(** * Token gate server: nonce registry, challenge codec, gating, session tokens

    A shallow embedding of the TypeScript sources [auth.ts] (nonce registry,
    [signJwt], [extractLine]), [gear.ts] ([getVFTBalance]) and [server.ts]
    (the [/auth/nonce], [/auth/verify], [/auth/refresh] and [/entitlement]
    handlers with their helpers), followed by the properties of the
    challenge-response protocol.

    Conventions of the embedding.
    - A JavaScript string is the list of its UTF-16 code units ([list N]).
    - Millisecond and second timestamps, durations and the integer-valued
      configuration are exact integers ([Z]); the IEEE rounding of values
      beyond 2^53 is not modelled for them.
    - A JavaScript [number] that comes from outside (the balance) is
      [NaN], an infinity, or a finite rational.
    - [Date.now()], [randomUUID()], the chain and the libraries
      [jsonwebtoken], [@polkadot/util-crypto] are inputs: the readings of the
      clock are arguments, the libraries are variables of a section. *)

From Stdlib Require Import ZArith QArith Qabs Lia Bool List String Ascii.
From stdpp Require Import base option list gmap.

Local Open Scope Z_scope.

(** ** JavaScript strings *)

Abbreviation jsstring := (list N).

(** A string literal of the source, as code units (the literals are ASCII). *)
Definition lit (s : string) : jsstring :=
  List.map N_of_ascii (list_ascii_of_string s).

(** ** Nonce registry ([auth.ts]) *)

Module Nonce.

(** [nonceStore = new Map<string, number>()]. *)
Abbreviation store := (gmap jsstring Z).

(** [issueNonce(ttlSec)]: the fresh UUID and the clock reading are inputs. *)
Definition issueNonce (uuid : jsstring) (now ttlSec : Z) (s : store)
  : jsstring * store :=
  (uuid, <[uuid := now + ttlSec * 1000]> s).

(** [consumeNonce(nonce)]: [!exp] holds for [undefined] and for [0]. *)
Definition consumeNonce (nonce : jsstring) (now : Z) (s : store)
  : bool * store :=
  match s !! nonce with
  | None => (false, s)
  | Some exp =>
      if exp =? 0 then (false, s)
      else (now <? exp, delete nonce s)
  end.

(** Calls on the registry, for reasoning about sequences of them. *)
Inductive op :=
| Issue (uuid : jsstring) (now ttlSec : Z)
| Consume (nonce : jsstring) (now : Z).

Definition step (o : op) (s : store) : store :=
  match o with
  | Issue uuid now ttl => snd (issueNonce uuid now ttl s)
  | Consume n now => snd (consumeNonce n now s)
  end.

Fixpoint run (ops : list op) (s : store) : store :=
  match ops with
  | [] => s
  | o :: ops' => run ops' (step o s)
  end.

(** Number of [Consume nonce] calls of [ops] that return [true]. *)
Fixpoint successes (nonce : jsstring) (ops : list op) (s : store) : nat :=
  match ops with
  | [] => 0%nat
  | o :: ops' =>
      (match o with
       | Consume n now =>
           if decide (n = nonce)
           then (if fst (consumeNonce n now s) then 1 else 0)%nat
           else 0%nat
       | Issue _ _ _ => 0%nat
       end + successes nonce ops' (step o s))%nat
  end.

(** No call of [ops] issues the value [nonce] again. *)
Fixpoint no_reissue (nonce : jsstring) (ops : list op) : Prop :=
  match ops with
  | [] => True
  | Issue uuid _ _ :: ops' => uuid ≠ nonce ∧ no_reissue nonce ops'
  | Consume _ _ :: ops' => no_reissue nonce ops'
  end.

(** Every stored expiry is a non-zero number: what [issueNonce] stores as
    long as [now + ttlSec * 1000] is not [0]. *)
Definition live_registry (s : store) : Prop :=
  map_Forall (λ _ exp, exp ≠ 0) s.

(** Every [Issue] of [ops] stores a non-zero expiry. *)
Fixpoint stores_live (ops : list op) : Prop :=
  match ops with
  | [] => True
  | Issue _ now ttlSec :: ops' => now + ttlSec * 1000 ≠ 0 ∧ stores_live ops'
  | Consume _ _ :: ops' => stores_live ops'
  end.

(** The value can no longer be consumed successfully. *)
Definition spent (nonce : jsstring) (s : store) : Prop :=
  s !! nonce = None ∨ s !! nonce = Some 0.

End Nonce.

(** ** String operations of the JavaScript runtime used by the sources *)

Module Js.

Local Open Scope N_scope.

(** ECMAScript [LineTerminator]: LF, CR, LS, PS. *)
Definition isLineTerminator (c : N) : bool :=
  (c =? 10) || (c =? 13) || (c =? 8232) || (c =? 8233).

(** ECMAScript [WhiteSpace] and [LineTerminator]: what [trim] strips and what
    [\s] matches. *)
Definition isWhiteSpace (c : N) : bool :=
  isLineTerminator c
  || (c =? 9) || (c =? 11) || (c =? 12) || (c =? 32) || (c =? 160)
  || (c =? 5760) || ((8192 <=? c) && (c <=? 8202))
  || (c =? 8239) || (c =? 8287) || (c =? 12288) || (c =? 65279).

(** [\d]. *)
Definition isDigit (c : N) : bool := (48 <=? c) && (c <=? 57).

Fixpoint trimStart (s : jsstring) : jsstring :=
  match s with
  | c :: s' => if isWhiteSpace c then trimStart s' else s
  | [] => []
  end.

Definition trim (s : jsstring) : jsstring :=
  rev (trimStart (rev (trimStart s))).

(** [s.split(sep)] for a separator of one code unit. *)
Fixpoint split (sep : N) (s : jsstring) : list jsstring :=
  match s with
  | [] => [[]]
  | c :: s' =>
      if c =? sep then [] :: split sep s'
      else match split sep s' with
           | l :: ls => (c :: l) :: ls
           | [] => [[c]]
           end
  end.

(** [parts.join(sep)]. *)
Fixpoint join (sep : jsstring) (parts : list jsstring) : jsstring :=
  match parts with
  | [] => []
  | [p] => p
  | p :: ps => p ++ sep ++ join sep ps
  end.

(** [s.startsWith(p)]. *)
Fixpoint startsWith (s p : jsstring) : bool :=
  match p, s with
  | [], _ => true
  | c :: p', d :: s' => (c =? d) && startsWith s' p'
  | _ :: _, [] => false
  end.

(** Case folding of the [/i] flag on the ASCII letters of the patterns. *)
Definition toLowerAscii (c : N) : N :=
  if (65 <=? c) && (c <=? 90) then c + 32 else c.

Fixpoint startsWithNoCase (s p : jsstring) : bool :=
  match p, s with
  | [], _ => true
  | c :: p', d :: s' =>
      (toLowerAscii c =? toLowerAscii d) && startsWithNoCase s' p'
  | _ :: _, [] => false
  end.

(** The longest prefix of code units satisfying [f], and the rest. *)
Fixpoint span (f : N → bool) (s : jsstring) : jsstring * jsstring :=
  match s with
  | c :: s' =>
      if f c then let '(a, b) := span f s' in (c :: a, b) else ([], s)
  | [] => ([], [])
  end.

(** [Number(digits)] for a string of decimal digits. *)
Definition digitsValue (ds : jsstring) : Z :=
  fold_left (λ acc c, (acc * 10 + (Z.of_N c - 48))%Z) ds 0%Z.

End Js.

(** ** Challenge message codec ([auth.ts], [server.ts]) *)

Definition LF : N := 10%N.
Definition COLON : N := 58%N.

(** [extractLine(message, key)]. *)
Definition extractLine (message key : jsstring) : jsstring :=
  match List.find (λ l, Js.startsWith l (key ++ [COLON])) (Js.split LF message) with
  | Some line => Js.trim (Js.join [COLON] (tail (Js.split COLON line)))
  | None => []
  end.

(** [parseDurationMs(s)]: the pattern [/^(\d+)\s*([smh])?$/i] on the trimmed
    text; the unit defaults to seconds. *)
Definition parseDurationMs (s : jsstring) : Z :=
  let '(digits, rest) := Js.span Js.isDigit (Js.trim s) in
  match digits with
  | [] => 0
  | _ =>
      let val := Js.digitsValue digits in
      match Js.trimStart rest with
      | [] => val * 1000
      | [u] =>
          let unit := Js.toLowerAscii u in
          if (unit =? 115)%N then val * 1000
          else if (unit =? 109)%N then val * 60 * 1000
          else if (unit =? 104)%N then val * 60 * 60 * 1000
          else 0
      | _ => 0
      end
  end.

(** ** Numbers received from outside the process *)

(** A JavaScript [number]: [NaN], an infinity, or a finite value. *)
Inductive number :=
| NaN
| Infinity (negative : bool)
| Finite (q : Q).

Module Num.

Definition isNaN (n : number) : bool :=
  match n with NaN => true | _ => false end.

Definition isFinite (n : number) : bool :=
  match n with Finite _ => true | _ => false end.

(** [Number.MAX_SAFE_INTEGER]. *)
Definition MAX_SAFE_INTEGER : Z := 2 ^ 53 - 1.

(** [Math.trunc] on a finite value: rounding towards zero. *)
Definition trunc (q : Q) : Z := Z.quot (Qnum q) (Z.pos (Qden q)).

(** [Math.abs(n) > Number.MAX_SAFE_INTEGER] on a finite value. *)
Definition exceedsSafe (q : Q) : bool :=
  negb (Qle_bool (Qabs q) (inject_Z MAX_SAFE_INTEGER)).

End Num.

(** ** Effects visible outside the handlers *)

Inductive event :=
| Warn (what : string)              (* console.warn *)
| LogError (what : string)          (* console.error *)
| BalanceQuery (address : jsstring) (* svc.balanceOf(address) sent to the chain *)
| Signed (token : jsstring).        (* jwt.sign produced a token *)

(** [toSafeBigInt(n)], with what it writes to the console. *)
Definition toSafeBigInt (n : number) : Z * list event :=
  match n with
  | Finite q =>
      (Num.trunc q,
       if Num.exceedsSafe q then [Warn "[toSafeBigInt] Error:"] else [])
  | _ => (0, [])
  end.

(** [toHuman(v, decimals)], in exact rational arithmetic. *)
Definition toHuman (v : Z) (decimals : Z) : Q :=
  if decimals <=? 0 then inject_Z v
  else
    let denom := 10 ^ Z.min decimals 15 in
    let res := Qdiv (inject_Z v) (inject_Z denom) in
    if 15 <? decimals
    then Qdiv res (inject_Z (10 ^ (decimals - 15)))
    else res.

(** ** Configuration ([server.ts], read from the environment at start-up) *)

Record Config := {
  JWT_SECRET : jsstring;
  VARA_WS : jsstring;
  EXPECTED_DOMAIN : jsstring;
  EXPECTED_CHAIN_ID : jsstring;
  VFT_DECIMALS : Z;
  VFT_THRESHOLD_HUMAN : Z;
  NONCE_TTL : Z;
  JWT_TTL_MIN : Z;
  CLOCK_SKEW_MS : Z;
  REFRESH_MIN_REMAIN_SEC : Z;
  RECHECK_ON_REFRESH : bool
}.

(** ** Session token payload and the libraries *)

(** The claims of a token: [{ sub, hasAccess?, iat?, exp? }]. *)
Record payload := {
  sub : jsstring;
  hasAccess : option bool;
  iat : option Z;
  exp : option Z
}.

(** The library functions called by the sources. [None] stands for a thrown
    exception ([NaN] for [Date_parse]). The clock that [jsonwebtoken] reads
    is passed in milliseconds. *)
Class Libraries := {
  (* Date.parse(text) *)
  Date_parse : jsstring → option Z;
  (* signatureVerify(message, signature, address).isValid *)
  signatureVerify : jsstring → jsstring → jsstring → option bool;
  (* u8aToHex(decodeAddress(addr)) *)
  decodeAddress : jsstring → option jsstring;
  (* jwt.sign(claims, secret, { expiresIn: `${ttlMin}m` }) at clock [now] *)
  jwt_sign : payload → jsstring → Z → Z → jsstring;
  (* jwt.verify(token, secret) at clock [now] *)
  jwt_verify : jsstring → jsstring → Z → option payload;
  (* jwt.decode(token) *)
  jwt_decode : jsstring → option payload
}.

(** What [jsonwebtoken] promises of a token it signed: until the expiry,
    [verify] with the same secret gives back the claims with [iat] and [exp]
    added. *)
Definition jwt_sign_verify `{Libraries} : Prop :=
  ∀ (claims : payload) (secret : jsstring) (ttlMin t0 t : Z),
    iat claims = None → exp claims = None →
    t / 1000 < t0 / 1000 + ttlMin * 60 →
    jwt_verify (jwt_sign claims secret ttlMin t0) secret t
    = Some {| sub := sub claims; hasAccess := hasAccess claims;
              iat := Some (t0 / 1000);
              exp := Some (t0 / 1000 + ttlMin * 60) |}.

(** ** The chain, the clock and the server state *)

Record GearApi := { providerAddress : jsstring }.

(** Result of [svc.balanceOf(address)], seen through [Number(result)]. *)
Inductive queryResult :=
| QueryThrows
| QueryReturns (asNumber : number).

(** The chain as the server sees it. The client classes [Program] and
    [Service] of [./vft] are not part of the sources at hand; what they do is
    a parameter here. *)
Record Chain := {
  (* GearApi.create({ providerAddress }) resolves, or rejects *)
  create : jsstring → option GearApi;
  (* new Program(api, id) and new Service(program) return normally *)
  newProgram : bool;
  balanceOf : jsstring → queryResult
}.

(** What the outside gives to one request: [Date_now k] is the reading of the
    clock at the k-th place of the handler that reads it, in source order. *)
Record Env := {
  randomUUID : jsstring;
  Date_now : nat → Z;
  chain : Chain
}.

Record ServerState := {
  nonceStore : gmap jsstring Z;
  gearApi : option GearApi;
  trace : list event
}.

(** ** Responses *)

Inductive exn :=
| ZodError
| MissingField (key : jsstring)     (* new Error(`Error: ${key}`) *)
| RangeError
| GearApiError
| SignatureError
| JsonWebTokenError.

Inductive errorText :=
| Text (s : string)
| MessageOf (e : exn).              (* e.message *)

Inductive body :=
| ErrorBody (error : errorText)
| GatingBody (error : string) (balance threshold : Q) (decimals : Z)
| VerifyBody (jwt : jsstring) (balance threshold : Q) (decimals : Z)
| RefreshBody (jwt : jsstring) (remainingSec : Z) (refreshed : bool)
| EntitlementBody (address : jsstring) (access : option bool)
| NonceBody (nonce : jsstring) (expiresIn : Z).

Record response := { status : Z; json : body }.

(** The token carried by a response, if any. *)
Definition jwt_of (r : response) : option jsstring :=
  match json r with
  | VerifyBody t _ _ _ | RefreshBody t _ _ => Some t
  | _ => None
  end.

(** ** Handler monad: server state, early response, exception *)

Inductive outcome (A : Type) :=
| Value (a : A)
| Responded (r : response)
| Thrown (e : exn).
Arguments Value {A} a.
Arguments Responded {A} r.
Arguments Thrown {A} e.

Definition M (A : Type) : Type := ServerState → outcome A * ServerState.

#[global] Instance M_ret : MRet M := λ A a st, (Value a, st).

#[global] Instance M_bind : MBind M := λ A B f m st,
  match m st with
  | (Value a, st') => f a st'
  | (Responded r, st') => (Responded r, st')
  | (Thrown e, st') => (Thrown e, st')
  end.

Definition respond {A} (code : Z) (b : body) : M A :=
  λ st, (Responded {| status := code; json := b |}, st).

Definition throw {A} (e : exn) : M A := λ st, (Thrown e, st).

(** [sendError(res, code, error)]. *)
Definition sendError {A} (code : Z) (error : string) : M A :=
  respond code (ErrorBody (Text error)).

Definition emit (es : list event) (st : ServerState) : ServerState :=
  {| nonceStore := nonceStore st; gearApi := gearApi st;
     trace := trace st ++ es |}.

(** Run a helper that returns a value and console/chain events. *)
Definition logged {A} (w : A * list event) : M A :=
  λ st, (Value (fst w), emit (snd w) st).

(** Run a handler body under its [try]/[catch]. *)
Definition handle (catch : exn → response * list event) (m : M response)
    (st : ServerState) : response * ServerState :=
  match m st with
  | (Value r, st') => (r, st')
  | (Responded r, st') => (r, st')
  | (Thrown e, st') => (fst (catch e), emit (snd (catch e)) st')
  end.

(** ** Balance lookup ([gear.ts]) *)

Section Gear.
Context `{Libraries}.

(** [toHexAddress(addr)]. *)
Definition toHexAddress (addr : jsstring) : jsstring * list event :=
  if Js.startsWith addr (lit "0x") && (2 <? Z.of_nat (length addr))
  then (addr, [])
  else
    match decodeAddress addr with
    | Some hex => (hex, [])
    | None => (addr, [Warn "[toHexAddress] Error:"])
    end.

(** [getVFTBalance(accountAddress, api)]. *)
Definition getVFTBalance (ch : Chain) (accountAddress : jsstring)
    (api : option GearApi) : number * list event :=
  match accountAddress, api with
  | [], _ | _, None => (Finite 0, [Warn "Account Error"])
  | _ :: _, Some _ =>
      if negb (newProgram ch)
      then (Finite 0, [LogError "[getVFTBalance] Balance Error:"])
      else
        let '(normalized, ev) := toHexAddress accountAddress in
        match balanceOf ch normalized with
        | QueryThrows =>
            (Finite 0,
             ev ++ [BalanceQuery normalized;
                    LogError "[getVFTBalance] Balance Error:"])
        | QueryReturns balance =>
            if Num.isNaN balance
            then (Finite 0,
                  ev ++ [BalanceQuery normalized; Warn "[getVFTBalance]:"])
            else (balance, ev ++ [BalanceQuery normalized])
        end
  end.

End Gear.

(** ** Authentication helpers ([auth.ts], [server.ts]) *)

(** The JSON body of a verify request; [None] is a field that is absent or
    not a string. *)
Record SignedMessage := {
  address : option jsstring;
  message : option jsstring;
  signature : option jsstring
}.

Section Handlers.
Context `{Libraries}.

(** [SignedMessageSchema.parse(req.body)]. *)
Definition SignedMessageSchema_parse (req : SignedMessage)
  : M (jsstring * jsstring * jsstring) :=
  match address req, message req, signature req with
  | Some a, Some m, Some s =>
      if (3 <=? Z.of_nat (length a)) && (5 <=? Z.of_nat (length m))
         && (10 <=? Z.of_nat (length s))
      then mret (a, m, s)
      else throw ZodError
  | _, _, _ => throw ZodError
  end.

(** [mustExtract(message, key)]. *)
Definition mustExtract (message key : jsstring) : M jsstring :=
  match extractLine message key with
  | [] => throw (MissingField key)
  | v => mret v
  end.

(** [consumeNonce(nonce)] on the registry of the server. *)
Definition consumeNonce (nonce : jsstring) (now : Z) : M bool :=
  λ st,
    let '(ok, s') := Nonce.consumeNonce nonce now (nonceStore st) in
    (Value ok,
     {| nonceStore := s'; gearApi := gearApi st; trace := trace st |}).

(** [isMessageFresh(issuedAt, expiresIn, skewMs)]; [now] is the reading of
    [Date.now()]. *)
Definition isMessageFresh (issuedAt expiresIn : jsstring) (skewMs : Z)
    (now : Z) : bool :=
  match Date_parse issuedAt with
  | None => false
  | Some issued =>
      let durMs := parseDurationMs expiresIn in
      if durMs <=? 0 then false
      else (issued - skewMs <=? now) && (now <=? issued + durMs + skewMs)
  end.

(** [verifySignature(address, message, signature)]. *)
Definition verifySignature (address message signature : jsstring) : M bool :=
  match signatureVerify message signature address with
  | Some isValid => mret isValid
  | None => throw SignatureError
  end.

(** [signJwt(address, ttlMin, secret)]: the claims are [sub] and
    [hasAccess: true]. *)
Definition signJwt (address : jsstring) (ttlMin : Z) (secret : jsstring)
    (now : Z) : jsstring :=
  jwt_sign {| sub := address; hasAccess := Some true;
              iat := None; exp := None |} secret ttlMin now.

Definition signJwtM (address : jsstring) (ttlMin : Z) (secret : jsstring)
    (now : Z) : M jsstring :=
  logged (signJwt address ttlMin secret now,
          [Signed (signJwt address ttlMin secret now)]).

(** [jwt.verify(token, JWT_SECRET)]. *)
Definition jwtVerify (token secret : jsstring) (now : Z) : M payload :=
  match jwt_verify token secret now with
  | Some p => mret p
  | None => throw JsonWebTokenError
  end.

(** [getApi()]: the handle is created once and kept. *)
Definition getApi (cfg : Config) (env : Env) : M GearApi :=
  λ st,
    match gearApi st with
    | Some api => (Value api, st)
    | None =>
        match create (chain env) (VARA_WS cfg) with
        | Some api =>
            (Value api,
             {| nonceStore := nonceStore st; gearApi := Some api;
                trace := trace st |})
        | None => (Thrown GearApiError, st)
        end
    end.

(** [BigInt(VFT_THRESHOLD_HUMAN) * (10n ** BigInt(VFT_DECIMALS))]: a
    negative exponent is a [RangeError]. *)
Definition thresholdRaw (cfg : Config) : M Z :=
  if VFT_DECIMALS cfg <? 0 then throw RangeError
  else mret (VFT_THRESHOLD_HUMAN cfg * 10 ^ VFT_DECIMALS cfg).

(** [getBearerToken(req)]: the pattern [/^Bearer\s+(.+)$/i] on the
    [Authorization] header. [\s+] is greedy and gives back its last code
    unit when nothing follows the white space; [.] matches no line
    terminator. *)
Definition getBearerToken (authorization : option jsstring)
  : option jsstring :=
  let auth := default [] authorization in
  if Js.startsWithNoCase auth (lit "Bearer") then
    let '(ws, rest) := Js.span Js.isWhiteSpace (drop 6 auth) in
    match ws, rest with
    | [], _ => None
    | _ :: _, _ :: _ =>
        if existsb Js.isLineTerminator rest then None else Some rest
    | _ :: _, [] =>
        match rev ws with
        | c :: _ :: _ => if Js.isLineTerminator c then None else Some [c]
        | _ => None
        end
    end
  else None.

(** The token of [GET /entitlement]: the [Authorization] header (the empty
    string when there is none) with a leading match of [/^Bearer\s+/i]
    removed. *)
Definition stripBearer (authorization : option jsstring) : jsstring :=
  let auth := default [] authorization in
  if Js.startsWithNoCase auth (lit "Bearer") then
    match Js.span Js.isWhiteSpace (drop 6 auth) with
    | ([], _) => auth
    | (_ :: _, rest) => rest
    end
  else auth.

(** [secondsUntil(exp)]. *)
Definition secondsUntil (exp : option Z) (now : Z) : Z :=
  match exp with
  | None => 0
  | Some e => if e =? 0 then 0 else e - now / 1000
  end.

(** The balance of [account] as an exact integer together with the raw
    threshold: the steps shared by verify and refresh. *)
Definition balanceAndThreshold (cfg : Config) (env : Env) (account : jsstring)
  : M (Z * Z) :=
  api ← getApi cfg env;
  balRawNumber ← logged (getVFTBalance (chain env) account (Some api));
  thresholdRaw ← thresholdRaw cfg;
  balRawInt ← logged (toSafeBigInt balRawNumber);
  mret (balRawInt, thresholdRaw).

(** ** The handlers ([server.ts]) *)

(** [POST /auth/nonce]. *)
Definition post_auth_nonce (cfg : Config) (env : Env) (st : ServerState)
  : response * ServerState :=
  let '(nonce, s') :=
    Nonce.issueNonce (randomUUID env) (Date_now env 0) (NONCE_TTL cfg)
      (nonceStore st) in
  ({| status := 200; json := NonceBody nonce (NONCE_TTL cfg) |},
   {| nonceStore := s'; gearApi := gearApi st; trace := trace st |}).

(** Body of the [try] block of [POST /auth/verify]. *)
Definition verify_try (cfg : Config) (env : Env) (req : SignedMessage)
  : M response :=
  '(address, message, signature) ← SignedMessageSchema_parse req;
  nonce ← mustExtract message (lit "Nonce");
  domain ← mustExtract message (lit "Domain");
  chainId ← mustExtract message (lit "ChainId");
  issuedAt ← mustExtract message (lit "IssuedAt");
  expiresIn ← mustExtract message (lit "ExpiresIn");
  fresh_nonce ← consumeNonce nonce (Date_now env 0);
  if negb fresh_nonce then sendError 400 "Invalid Nonce"
  else if bool_decide (EXPECTED_DOMAIN cfg ≠ [])
          && bool_decide (domain ≠ EXPECTED_DOMAIN cfg)
  then sendError 400 "Invalid domain"
  else if bool_decide (EXPECTED_CHAIN_ID cfg ≠ [])
          && bool_decide (chainId ≠ EXPECTED_CHAIN_ID cfg)
  then sendError 400 "Invalid chainId"
  else if negb (isMessageFresh issuedAt expiresIn (CLOCK_SKEW_MS cfg)
                  (Date_now env 1))
  then sendError 400 "Message Error"
  else
    valid ← verifySignature address message signature;
    if negb valid then sendError 401 "firma inválida"
    else
      '(balRawInt, thresholdRaw) ← balanceAndThreshold cfg env address;
      if balRawInt <? thresholdRaw then
        respond 403
          (GatingBody "gating: balance insuficiente"
             (toHuman balRawInt (VFT_DECIMALS cfg))
             (toHuman thresholdRaw (VFT_DECIMALS cfg))
             (VFT_DECIMALS cfg))
      else
        token ← signJwtM address (JWT_TTL_MIN cfg) (JWT_SECRET cfg)
                  (Date_now env 2);
        mret {| status := 200;
                json := VerifyBody token
                          (toHuman balRawInt (VFT_DECIMALS cfg))
                          (toHuman thresholdRaw (VFT_DECIMALS cfg))
                          (VFT_DECIMALS cfg) |}.

(** [POST /auth/verify]: whatever is thrown becomes a 400 with its message. *)
Definition post_auth_verify (cfg : Config) (env : Env) (req : SignedMessage)
    (st : ServerState) : response * ServerState :=
  handle (λ e, ({| status := 400; json := ErrorBody (MessageOf e) |},
                [LogError "[/auth/verify] error:"]))
    (verify_try cfg env req) st.

(** Body of the [try] block of [POST /auth/refresh]. *)
Definition refresh_try (cfg : Config) (env : Env)
    (authorization : option jsstring) : M response :=
  match getBearerToken authorization with
  | None => sendError 401 "falta token"
  | Some token =>
      payload ← jwtVerify token (JWT_SECRET cfg) (Date_now env 0);
      let remain := secondsUntil (exp payload) (Date_now env 1) in
      if REFRESH_MIN_REMAIN_SEC cfg <? remain then
        respond 200 (RefreshBody token remain false)
      else
        _ ← (if RECHECK_ON_REFRESH cfg then
               '(balRawInt, thresholdRaw) ← balanceAndThreshold cfg env (sub payload);
               if balRawInt <? thresholdRaw then
                 respond 403
                   (GatingBody "gating: Insuficient Balance (refresh)"
                      (toHuman balRawInt (VFT_DECIMALS cfg))
                      (toHuman thresholdRaw (VFT_DECIMALS cfg))
                      (VFT_DECIMALS cfg))
               else mret ()
             else mret ());
        newJwt ← signJwtM (sub payload) (JWT_TTL_MIN cfg) (JWT_SECRET cfg)
                   (Date_now env 2);
        mret {| status := 200;
                json := RefreshBody newJwt
                          (secondsUntil (jwt_decode newJwt ≫= exp)
                             (Date_now env 3))
                          true |}
  end.

(** [POST /auth/refresh]: whatever is thrown becomes [401 Invalid token]. *)
Definition post_auth_refresh (cfg : Config) (env : Env)
    (authorization : option jsstring) (st : ServerState)
  : response * ServerState :=
  handle (λ _, ({| status := 401; json := ErrorBody (Text "Invalid token") |},
                []))
    (refresh_try cfg env authorization) st.

(** Body of the [try] block of [GET /entitlement]. *)
Definition entitlement_try (cfg : Config) (env : Env)
    (authorization : option jsstring) : M response :=
  match stripBearer authorization with
  | [] => sendError 401 "Token Error"
  | token =>
      payload ← jwtVerify token (JWT_SECRET cfg) (Date_now env 0);
      mret {| status := 200;
              json := EntitlementBody (sub payload) (hasAccess payload) |}
  end.

(** [GET /entitlement]. *)
Definition get_entitlement (cfg : Config) (env : Env)
    (authorization : option jsstring) (st : ServerState)
  : response * ServerState :=
  handle (λ _, ({| status := 401; json := ErrorBody (Text "Invalid token") |},
                []))
    (entitlement_try cfg env authorization) st.

End Handlers.

(** ** The server as a whole *)

(** The requests of the protocol, with what each carries. *)
Inductive request :=
| PostNonce
| PostVerify (body : SignedMessage)
| PostRefresh (authorization : option jsstring)
| GetEntitlement (authorization : option jsstring).

Section Server.
Context `{Libraries}.

(** One request served in the environment [env]. *)
Definition serve (cfg : Config) (env : Env) (req : request)
    (st : ServerState) : response * ServerState :=
  match req with
  | PostNonce => post_auth_nonce cfg env st
  | PostVerify body => post_auth_verify cfg env body st
  | PostRefresh authorization => post_auth_refresh cfg env authorization st
  | GetEntitlement authorization => get_entitlement cfg env authorization st
  end.

(** The state after a sequence of requests, each with its environment. *)
Fixpoint serveAll (cfg : Config) (reqs : list (Env * request))
    (st : ServerState) : ServerState :=
  match reqs with
  | [] => st
  | (env, req) :: reqs' => serveAll cfg reqs' (snd (serve cfg env req st))
  end.

End Server.

(** ** A reference instance of the libraries

    A small executable model of the library interface: it shows that the
    contract [jwt_sign_verify] can be met, and it runs the handlers on
    concrete requests. A token is the subject followed by the access flag,
    [iat], [exp] and a keyed tag. *)

Module Reference.

Definition encodeZ (z : Z) : N :=
  if 0 <=? z then Z.to_N (2 * z) else Z.to_N (- 2 * z - 1).

Definition decodeZ (n : N) : Z :=
  if Z.even (Z.of_N n) then Z.of_N n / 2 else - ((Z.of_N n + 1) / 2).

Definition encodeFlag (f : option bool) : N :=
  match f with None => 0 | Some false => 1 | Some true => 2 end%N.

Definition decodeFlag (n : N) : option bool :=
  if (n =? 0)%N then None else Some (negb (n =? 1)%N).

Definition tag (secret content : jsstring) : N :=
  fold_left N.add (secret ++ content) (N.of_nat (length secret)).

Definition sign (claims : payload) (secret : jsstring) (ttlMin now : Z)
  : jsstring :=
  let content :=
    sub claims ++ [encodeFlag (hasAccess claims); encodeZ (now / 1000);
                   encodeZ (now / 1000 + ttlMin * 60)] in
  content ++ [tag secret content].

Definition decode (token : jsstring) : option payload :=
  match rev token with
  | _ :: e :: i :: f :: rsub =>
      Some {| sub := rev rsub; hasAccess := decodeFlag f;
              iat := Some (decodeZ i); exp := Some (decodeZ e) |}
  | _ => None
  end.

Definition verify (token secret : jsstring) (now : Z) : option payload :=
  match rev token with
  | t :: content =>
      if (t =? tag secret (rev content))%N then
        p ← decode token;
        e ← exp p;
        if now / 1000 <? e then Some p else None
      else None
  | [] => None
  end.

(** 2025-01-01T00:00:00Z, the one date text the reference [Date.parse]
    knows. *)
Definition NEW_YEAR_2025 : Z := 1735689600000.

#[export] Instance libraries : Libraries := {|
  Date_parse text :=
    if bool_decide (text = lit "2025-01-01T00:00:00.000Z")
    then Some NEW_YEAR_2025 else None;
  signatureVerify message signature address :=
    match signature with
    | [] => None
    | _ => Some (bool_decide (signature = address ++ message))
    end;
  decodeAddress addr :=
    match addr with
    | [] => None
    | _ => Some (lit "0x" ++ addr)
    end;
  jwt_sign := sign;
  jwt_verify := verify;
  jwt_decode := decode
|}.

(** *** A concrete deployment and requests *)

Definition cfg : Config := {|
  JWT_SECRET := lit "s3cret";
  VARA_WS := lit "wss://rpc.example";
  EXPECTED_DOMAIN := lit "app.example";
  EXPECTED_CHAIN_ID := lit "vara";
  VFT_DECIMALS := 0;
  VFT_THRESHOLD_HUMAN := 3000;
  NONCE_TTL := 600;
  JWT_TTL_MIN := 20;
  CLOCK_SKEW_MS := 120000;
  REFRESH_MIN_REMAIN_SEC := 300;
  RECHECK_ON_REFRESH := true
|}.

Definition alice : jsstring := lit "5GrwvaEF5zXb26Fz9rcQpDWS57CtERHpNehXCPcNoHGKutQY".

(** A chain on which every account holds [balance]. *)
Definition chain_with (balance : number) : Chain := {|
  create url := Some {| providerAddress := url |};
  newProgram := true;
  balanceOf _ := QueryReturns balance
|}.

(** A chain whose balance query throws. *)
Definition chain_down : Chain := {|
  create url := Some {| providerAddress := url |};
  newProgram := true;
  balanceOf _ := QueryThrows
|}.

(** Every reading of the clock is [now]. *)
Definition env_at (now : Z) (ch : Chain) : Env := {|
  randomUUID := lit "123e4567-e89b-42d3-a456-426614174000";
  Date_now _ := now;
  chain := ch
|}.

Definition empty_state : ServerState :=
  {| nonceStore := ∅; gearApi := None; trace := [] |}.

(** The state after [POST /auth/nonce] at the start of 2025. *)
Definition issued_state : ServerState :=
  snd (post_auth_nonce cfg (env_at NEW_YEAR_2025 (chain_with (Finite 0)))
         empty_state).

Definition challenge (nonce domain : string) : jsstring :=
  lit "Nonce: " ++ lit nonce ++ [LF]
  ++ lit "Domain: " ++ lit domain ++ [LF]
  ++ lit "ChainId: vara" ++ [LF]
  ++ lit "IssuedAt: 2025-01-01T00:00:00.000Z" ++ [LF]
  ++ lit "ExpiresIn: 10m".

(** A request signed by [alice] over the challenge. *)
Definition request (nonce domain : string) : SignedMessage := {|
  address := Some alice;
  message := Some (challenge nonce domain);
  signature := Some (alice ++ challenge nonce domain)
|}.

Definition good_request : SignedMessage :=
  request "123e4567-e89b-42d3-a456-426614174000" "app.example".

Definition bearer (token : jsstring) : option jsstring :=
  Some (lit "Bearer " ++ token).

End Reference.

(** ** Vocabulary of the statements *)

(** A computation that keeps the expiries of the registry non-zero. *)
Definition keeps_live {A} (m : M A) : Prop :=
  ∀ st, Nonce.live_registry (nonceStore st) →
        Nonce.live_registry (nonceStore (snd (m st))).

(** A computation that leaves the nonce registry as it found it. *)
Definition keeps_registry {A} (m : M A) : Prop :=
  ∀ st, nonceStore (snd (m st)) = nonceStore st.

Section Vocabulary.
Context `{Libraries}.

(** The request passes [SignedMessageSchema] with these three strings. *)
Definition well_shaped (req : SignedMessage) (a m s : jsstring) : Prop :=
  address req = Some a ∧ message req = Some m ∧ signature req = Some s
  ∧ (3 ≤ length a)%nat ∧ (5 ≤ length m)%nat ∧ (10 ≤ length s)%nat.

(** The five fields of the challenge are present in the message. *)
Definition fields_present (m : jsstring) : Prop :=
  extractLine m (lit "Nonce") ≠ []
  ∧ extractLine m (lit "Domain") ≠ []
  ∧ extractLine m (lit "ChainId") ≠ []
  ∧ extractLine m (lit "IssuedAt") ≠ []
  ∧ extractLine m (lit "ExpiresIn") ≠ [].

(** The nonce is not in the registry, or its expiry has passed. *)
Definition nonce_absent_or_expired (st : ServerState) (nonce : jsstring)
    (now : Z) : Prop :=
  nonceStore st !! nonce = None
  ∨ ∃ e, nonceStore st !! nonce = Some e ∧ e ≤ now.

(** The nonce is in the registry and its expiry has not passed. *)
Definition nonce_unexpired (st : ServerState) (nonce : jsstring) (now : Z)
  : Prop :=
  ∃ e, nonceStore st !! nonce = Some e ∧ now < e.

(** The nonce is in the registry with a non-zero expiry that has not
    passed: [consumeNonce] answers [true]. *)
Definition nonce_accepted (st : ServerState) (nonce : jsstring) (now : Z)
  : Prop :=
  ∃ e, nonceStore st !! nonce = Some e ∧ e ≠ 0 ∧ now < e.

Definition domain_ok (cfg : Config) (m : jsstring) : Prop :=
  EXPECTED_DOMAIN cfg = []
  ∨ extractLine m (lit "Domain") = EXPECTED_DOMAIN cfg.

Definition chain_id_ok (cfg : Config) (m : jsstring) : Prop :=
  EXPECTED_CHAIN_ID cfg = []
  ∨ extractLine m (lit "ChainId") = EXPECTED_CHAIN_ID cfg.

(** The freshness check of the handler on the message. *)
Definition message_fresh (cfg : Config) (env : Env) (m : jsstring) : bool :=
  isMessageFresh (extractLine m (lit "IssuedAt"))
    (extractLine m (lit "ExpiresIn")) (CLOCK_SKEW_MS cfg) (Date_now env 1).

(** The handle that [getApi()] resolves to, if it does. *)
Definition apiHandle (cfg : Config) (env : Env) (st : ServerState)
  : option GearApi :=
  match gearApi st with
  | Some api => Some api
  | None => create (chain env) (VARA_WS cfg)
  end.

(** The request passes every check of verify that precedes the balance
    lookup, and the lookup can be made. *)
Definition reaches_gating (cfg : Config) (env : Env) (req : SignedMessage)
    (st : ServerState) (a m s : jsstring) : Prop :=
  well_shaped req a m s ∧ fields_present m
  ∧ nonce_accepted st (extractLine m (lit "Nonce")) (Date_now env 0)
  ∧ domain_ok cfg m ∧ chain_id_ok cfg m
  ∧ message_fresh cfg env m = true
  ∧ signatureVerify m s a = Some true
  ∧ is_Some (apiHandle cfg env st)
  ∧ 0 ≤ VFT_DECIMALS cfg.

(** The balance of [account] as verify and refresh compare it: the number
    from [getVFTBalance] through [toSafeBigInt]. *)
Definition rawBalance (env : Env) (account : jsstring) : Z :=
  fst (toSafeBigInt
         (fst (getVFTBalance (chain env) account
                 (Some {| providerAddress := [] |})))).

(** The events of one balance lookup for [account]. *)
Definition balanceEvents (env : Env) (account : jsstring) : list event :=
  snd (getVFTBalance (chain env) account (Some {| providerAddress := [] |}))
  ++ snd (toSafeBigInt
            (fst (getVFTBalance (chain env) account
                    (Some {| providerAddress := [] |})))).

(** [thresholdRaw] as an integer. *)
Definition rawThreshold (cfg : Config) : Z :=
  VFT_THRESHOLD_HUMAN cfg * 10 ^ VFT_DECIMALS cfg.

(** The tokens signed so far, oldest first. *)
Definition signedTokens (tr : list event) : list jsstring :=
  omap (λ e, match e with Signed t => Some t | _ => None end) tr.

(** The balance queries sent so far. *)
Definition balanceQueries (tr : list event) : list jsstring :=
  omap (λ e, match e with BalanceQuery a => Some a | _ => None end) tr.

(** The four failures of verify that follow the consumption of the nonce. *)
Definition failed_after_nonce (r : response) : Prop :=
  r = {| status := 400; json := ErrorBody (Text "Invalid domain") |}
  ∨ r = {| status := 400; json := ErrorBody (Text "Invalid chainId") |}
  ∨ r = {| status := 400; json := ErrorBody (Text "Message Error") |}
  ∨ r = {| status := 401; json := ErrorBody (Text "firma inválida") |}.

End Vocabulary.

Section FailureVocabulary.
Context `{Libraries}.

(** The chain cannot be read for [account]: the client objects cannot be
    built, the query throws, or its result is not a number. *)
Definition chain_read_fails (ch : Chain) (account : jsstring) : Prop :=
  newProgram ch = false
  ∨ balanceOf ch (fst (toHexAddress account)) = QueryThrows
  ∨ balanceOf ch (fst (toHexAddress account)) = QueryReturns NaN.

(** Something was written with [console.warn] or [console.error]. *)
Definition console_written (evs : list event) : Prop :=
  ∃ what, Warn what ∈ evs ∨ LogError what ∈ evs.

(** A token signed over the claims [{ sub, hasAccess: true }] with the
    secret and lifetime of the configuration. *)
Definition access_token (cfg : Config) (t : jsstring) : Prop :=
  ∃ (a : jsstring) (now : Z),
    t = jwt_sign {| sub := a; hasAccess := Some true;
                    iat := None; exp := None |}
          (JWT_SECRET cfg) (JWT_TTL_MIN cfg) now.

(** A computation only appends to the trace; every token it signs
    satisfies [S], a response it sends satisfies [R] and a value it returns
    satisfies [V]. *)
Definition issues (S : jsstring → Prop) (R : response → Prop) {A}
    (V : A → Prop) (m : M A) : Prop :=
  ∀ st,
    (∃ added, trace (snd (m st)) = trace st ++ added
              ∧ Forall S (signedTokens added))
    ∧ match fst (m st) with
      | Value a => V a
      | Responded r => R r
      | Thrown _ => True
      end.

(** Every token carried by the response satisfies [P]. *)
Definition carries (P : jsstring → Prop) (r : response) : Prop :=
  ∀ t, jwt_of r = Some t → P t.

End FailureVocabulary.

(** ** CORS allow-list ([server.ts]) *)

Definition COMMA : N := 44%N.

(** [ALLOWED_ORIGINS]: the environment variable, or ["*"] when it is unset
    or empty, split at commas, each entry trimmed, empty entries dropped. *)
Definition ALLOWED_ORIGINS (env : option jsstring) : list jsstring :=
  let text := match env with
              | None | Some [] => lit "*"
              | Some s => s
              end in
  filter (λ s, s ≠ []) (map Js.trim (Js.split COMMA text)).

(** The [origin] callback given to [cors]: [true] for [cb(null, true)],
    [false] for [cb(new Error("CORS Error"))]. *)
Definition corsAllows (allowed : list jsstring) (origin : option jsstring)
  : bool :=
  match origin with
  | None | Some [] => true
  | Some o => bool_decide (lit "*" ∈ allowed) || bool_decide (o ∈ allowed)
  end.

(** ** Vocabulary of the further statements *)

(** Only white space. *)
Definition blank (s : jsstring) : bool := forallb Js.isWhiteSpace s.

(** Empty, or with a first and a last code unit that are not white space. *)
Definition trimmed (s : jsstring) : bool :=
  match s with
  | [] => true
  | c :: _ =>
      negb (Js.isWhiteSpace c) && negb (Js.isWhiteSpace (List.last s c))
  end.

(** Milliseconds of the unit letter of a duration, [0] for any other code
    unit. *)
Definition unitMs (u : N) : Z :=
  if (Js.toLowerAscii u =? 115)%N then 1000
  else if (Js.toLowerAscii u =? 109)%N then 60000
  else if (Js.toLowerAscii u =? 104)%N then 3600000
  else 0.

(** No request of the sequence issues the value [nonce] again. *)
Definition never_reissues (nonce : jsstring) (reqs : list (Env * request))
  : Prop :=
  Forall (λ er, snd er = PostNonce → randomUUID (fst er) ≠ nonce) reqs.

(** The tokens of a response as a list. *)
Definition tokens_of (r : response) : list jsstring :=
  match jwt_of r with
  | Some t => [t]
  | None => []
  end.

(** The outcome of a handler that gave no token: the status is not 200, the
    response carries no token and no token was signed. *)
Definition no_token (st : ServerState) (out : response * ServerState)
  : Prop :=
  status (fst out) ≠ 200
  ∧ jwt_of (fst out) = None
  ∧ signedTokens (trace (snd out)) = signedTokens (trace st).

(** ** Further deployments for concrete runs *)

Module Deployments.

(** A chain to which no connection can be created. *)
Definition unreachable_chain : Chain := {|
  create _ := None;
  newProgram := true;
  balanceOf _ := QueryReturns (Finite 5000)
|}.

(** The reference configuration with re-check on refresh switched off. *)
Definition cfg_no_recheck : Config := {|
  JWT_SECRET := JWT_SECRET Reference.cfg;
  VARA_WS := VARA_WS Reference.cfg;
  EXPECTED_DOMAIN := EXPECTED_DOMAIN Reference.cfg;
  EXPECTED_CHAIN_ID := EXPECTED_CHAIN_ID Reference.cfg;
  VFT_DECIMALS := 0;
  VFT_THRESHOLD_HUMAN := 3000;
  NONCE_TTL := 600;
  JWT_TTL_MIN := 20;
  CLOCK_SKEW_MS := 120000;
  REFRESH_MIN_REMAIN_SEC := 300;
  RECHECK_ON_REFRESH := false
|}.

(** The reference configuration with a threshold of zero. *)
Definition cfg_zero_threshold : Config := {|
  JWT_SECRET := JWT_SECRET Reference.cfg;
  VARA_WS := VARA_WS Reference.cfg;
  EXPECTED_DOMAIN := EXPECTED_DOMAIN Reference.cfg;
  EXPECTED_CHAIN_ID := EXPECTED_CHAIN_ID Reference.cfg;
  VFT_DECIMALS := 0;
  VFT_THRESHOLD_HUMAN := 0;
  NONCE_TTL := 600;
  JWT_TTL_MIN := 20;
  CLOCK_SKEW_MS := 120000;
  REFRESH_MIN_REMAIN_SEC := 300;
  RECHECK_ON_REFRESH := true
|}.

(** An environment whose fresh UUID is another value. *)
Definition env_other_uuid (now : Z) (ch : Chain) : Env := {|
  randomUUID := lit "9b2e0d6e-1c1f-4f6e-8a53-0d2b6f1c7e11";
  Date_now _ := now;
  chain := ch
|}.

End Deployments.

(** The token of a response that says it renewed the session. *)
Definition renewed_token (r : response) : list jsstring :=
  match json r with
  | RefreshBody t _ true => [t]
  | _ => []
  end.

(** * Properties *)

(** ** Nonce registry *)

Section NonceFacts.
Import Nonce.

Lemma live_registry_empty : live_registry ∅.
Proof. apply map_Forall_empty. Qed.

Lemma live_registry_issue (uuid : jsstring) (now ttl : Z) (s : store) :
  now + ttl * 1000 ≠ 0 → live_registry s →
  live_registry (snd (issueNonce uuid now ttl s)).
Proof. intros Hne Hs. simpl. by apply map_Forall_insert_2. Qed.

Lemma live_registry_consume (nonce : jsstring) (now : Z) (s : store) :
  live_registry s → live_registry (snd (consumeNonce nonce now s)).
Proof.
  intros Hs. unfold consumeNonce.
  destruct (s !! nonce) as [exp|]; [|done].
  destruct (exp =? 0); [done|]. simpl. by apply map_Forall_delete.
Qed.

(** The registries the server can reach keep non-zero expiries. *)
Lemma live_registry_run (ops : list op) : ∀ s : store,
  stores_live ops → live_registry s → live_registry (run ops s).
Proof.
  induction ops as [|o ops IH]; intros s Hops Hs; [done|].
  simpl. destruct o as [uuid now ttl|n now]; simpl in Hops.
  - destruct Hops as [Hne Hops]. apply IH; [done|].
    by apply live_registry_issue.
  - apply IH; [done|]. by apply live_registry_consume.
Qed.

Lemma consumeNonce_spent_after (nonce : jsstring) (now : Z) (s : store) :
  spent nonce (snd (consumeNonce nonce now s)).
Proof.
  unfold consumeNonce, spent.
  destruct (s !! nonce) as [exp|] eqn:E; [|by left].
  destruct (Z.eqb_spec exp 0) as [->|]; simpl; [by right|].
  left. apply lookup_delete_eq.
Qed.

Lemma consumeNonce_spent_false (nonce : jsstring) (now : Z) (s : store) :
  spent nonce s → fst (consumeNonce nonce now s) = false.
Proof. unfold consumeNonce. by intros [-> | ->]. Qed.

Lemma step_spent (nonce : jsstring) (o : op) (s : store) :
  no_reissue nonce [o] → spent nonce s → spent nonce (step o s).
Proof.
  unfold spent. destruct o as [uuid now ttl|n now]; simpl.
  - intros [Hne _] H. by rewrite lookup_insert_ne.
  - intros _ H. unfold consumeNonce.
    destruct (s !! n) as [exp|] eqn:E; [|done].
    destruct (exp =? 0); [done|]. simpl.
    destruct (decide (n = nonce)) as [->|Hne].
    + left. apply lookup_delete_eq.
    + by rewrite lookup_delete_ne.
Qed.

Lemma run_spent (nonce : jsstring) (ops : list op) : ∀ s : store,
  no_reissue nonce ops → spent nonce s → spent nonce (run ops s).
Proof.
  induction ops as [|o ops IH]; intros s Hno Hs; [done|].
  simpl. apply IH.
  - destruct o; simpl in Hno; tauto.
  - apply step_spent; [|done]. destruct o; simpl in *; tauto.
Qed.

Lemma successes_spent (nonce : jsstring) (ops : list op) : ∀ s : store,
  no_reissue nonce ops → spent nonce s → successes nonce ops s = 0%nat.
Proof.
  induction ops as [|o ops IH]; intros s Hno Hs; [done|].
  simpl. rewrite IH.
  - destruct o as [|n now]; [done|]. destruct (decide (n = nonce)) as [->|]; [|done].
    by rewrite consumeNonce_spent_false.
  - destruct o; simpl in Hno; tauto.
  - apply step_spent; [|done]. destruct o; simpl in *; tauto.
Qed.

Lemma successes_le_1 (nonce : jsstring) (ops : list op) : ∀ s : store,
  no_reissue nonce ops → (successes nonce ops s ≤ 1)%nat.
Proof.
  induction ops as [|o ops IH]; intros s Hno; simpl; [lia|].
  destruct o as [uuid now ttl|n now].
  - simpl in Hno. destruct Hno as [_ Hno].
    specialize (IH (step (Issue uuid now ttl) s) Hno). lia.
  - simpl in Hno. destruct (decide (n = nonce)) as [->|].
    + rewrite (successes_spent nonce ops); [|done|apply consumeNonce_spent_after].
      destruct (fst _); lia.
    + specialize (IH (step (Consume n now) s) Hno). lia.
Qed.

End NonceFacts.

(** C1. On a registry whose stored expiries are non-zero, [consumeNonce]
    deletes the entry of the value whatever its expiry, and answers [true]
    exactly when an entry existed whose expiry lies after the clock reading.
    On any registry, after a first [consumeNonce] of a value every later
    [consumeNonce] of it answers [false] unless the value is issued again,
    and in any sequence of calls that does not issue the value again at most
    one [consumeNonce] of it answers [true]. *)
Theorem consumeNonce_one_shot (nonce : jsstring) (now : Z) (s : Nonce.store) :
  (Nonce.live_registry s →
   snd (Nonce.consumeNonce nonce now s) = delete nonce s
   ∧ (fst (Nonce.consumeNonce nonce now s) = true
      ↔ ∃ exp, s !! nonce = Some exp ∧ now < exp))
  ∧ (∀ ops now', Nonce.no_reissue nonce ops →
       fst (Nonce.consumeNonce nonce now'
              (Nonce.run ops (snd (Nonce.consumeNonce nonce now s)))) = false)
  ∧ (∀ ops, Nonce.no_reissue nonce ops →
       (Nonce.successes nonce ops s ≤ 1)%nat).
Proof.
  split; [|split].
  - intros Hlive. split; [|split].
    + unfold Nonce.consumeNonce. destruct (s !! nonce) as [exp|] eqn:E.
      * destruct (Z.eqb_spec exp 0) as [->|]; [|done].
        by specialize (Hlive _ _ E).
      * simpl. symmetry. by apply delete_id.
    + unfold Nonce.consumeNonce. destruct (s !! nonce) as [exp|] eqn:E; [|done].
      destruct (Z.eqb_spec exp 0) as [->|]; [done|]. simpl.
      intros Hlt. exists exp. split; [done|]. by apply Z.ltb_lt.
    + intros (exp & E & Hlt). unfold Nonce.consumeNonce. rewrite E.
      destruct (Z.eqb_spec exp 0) as [->|]; [by specialize (Hlive _ _ E)|].
      simpl. by apply Z.ltb_lt.
  - intros ops now' Hno. apply consumeNonce_spent_false.
    apply run_spent; [done|]. apply consumeNonce_spent_after.
  - intros ops Hno. by apply successes_le_1.
Qed.

(** ** Challenge message codec *)

Example extractLine_first_only :
  extractLine (lit "Nonce: abc
Domain: app.example
Nonce: other") (lit "Nonce") = lit "abc".
Proof. reflexivity. Qed.

Example extractLine_keeps_later_colons :
  extractLine (lit "IssuedAt:  2025-01-01T10:00:00Z  ") (lit "IssuedAt")
  = lit "2025-01-01T10:00:00Z".
Proof. reflexivity. Qed.

Example extractLine_absent : extractLine (lit "Domain: x") (lit "Nonce") = [].
Proof. reflexivity. Qed.

Example parseDurationMs_minutes : parseDurationMs (lit "10m") = 600000.
Proof. reflexivity. Qed.

Example parseDurationMs_default_unit : parseDurationMs (lit " 90 ") = 90000.
Proof. reflexivity. Qed.

Example parseDurationMs_upper_hours : parseDurationMs (lit "2 H") = 7200000.
Proof. reflexivity. Qed.

Example parseDurationMs_bad_shape : parseDurationMs (lit "10 min") = 0.
Proof. reflexivity. Qed.

Example parseDurationMs_negative_text : parseDurationMs (lit "-5m") = 0.
Proof. reflexivity. Qed.

(** ** The handler monad *)

Section MonadLaws.

Lemma bind_ret {A B} (a : A) (f : A → M B) : (mret a ≫= f) = f a.
Proof. reflexivity. Qed.

Lemma bind_throw {A B} (e : exn) (f : A → M B) : (throw e ≫= f) = throw e.
Proof. reflexivity. Qed.

Lemma bind_respond {A B} (code : Z) (b : body) (f : A → M B) :
  (respond code b ≫= f) = respond code b.
Proof. reflexivity. Qed.

Lemma bind_logged {A B} (w : A * list event) (f : A → M B) (st : ServerState) :
  (logged w ≫= f) st = f (fst w) (emit (snd w) st).
Proof. reflexivity. Qed.

Lemma keeps_ret {A} (a : A) : keeps_registry (mret a : M A).
Proof. by intros st. Qed.

Lemma keeps_throw {A} (e : exn) : keeps_registry (throw e : M A).
Proof. by intros st. Qed.

Lemma keeps_respond {A} (code : Z) (b : body) :
  keeps_registry (respond code b : M A).
Proof. by intros st. Qed.

Lemma keeps_sendError {A} (code : Z) (msg : string) :
  keeps_registry (sendError code msg : M A).
Proof. by intros st. Qed.

Lemma keeps_logged {A} (w : A * list event) : keeps_registry (logged w).
Proof. by intros st. Qed.

Lemma keeps_bind {A B} (m : M A) (f : A → M B) :
  keeps_registry m → (∀ a, keeps_registry (f a)) → keeps_registry (m ≫= f).
Proof.
  intros Hm Hf st. unfold mbind, M_bind. specialize (Hm st).
  destruct (m st) as [[a|r|e] st1]; simpl in *; [|done..].
  by rewrite Hf.
Qed.

Lemma keeps_if {A} (b : bool) (m1 m2 : M A) :
  keeps_registry m1 → keeps_registry m2 →
  keeps_registry (if b then m1 else m2).
Proof. by destruct b. Qed.

Lemma handle_registry (catch : exn → response * list event) (m : M response)
    (st : ServerState) :
  nonceStore (snd (handle catch m st)) = nonceStore (snd (m st)).
Proof. unfold handle. by destruct (m st) as [[r|r|e] st1]. Qed.

End MonadLaws.

Create HintDb keeps discriminated.
#[export] Hint Resolve keeps_ret keeps_throw keeps_respond keeps_sendError
  keeps_logged keeps_if : keeps.

(** ** Steps of the handlers *)

Section Steps.
Context `{Libraries}.

Lemma parse_well_shaped (req : SignedMessage) (a m s : jsstring) :
  well_shaped req a m s → SignedMessageSchema_parse req = mret (a, m, s).
Proof.
  intros (Ha & Hm & Hs & La & Lm & Ls). unfold SignedMessageSchema_parse.
  rewrite Ha, Hm, Hs.
  assert ((3 <=? Z.of_nat (length a)) = true) as -> by (apply Z.leb_le; lia).
  assert ((5 <=? Z.of_nat (length m)) = true) as -> by (apply Z.leb_le; lia).
  assert ((10 <=? Z.of_nat (length s)) = true) as -> by (apply Z.leb_le; lia).
  reflexivity.
Qed.

Lemma mustExtract_present (m key : jsstring) :
  extractLine m key ≠ [] → mustExtract m key = mret (extractLine m key).
Proof. unfold mustExtract. by destruct (extractLine m key). Qed.

Lemma bind_consumeNonce {B} (nonce : jsstring) (now : Z) (f : bool → M B)
    (st : ServerState) :
  (consumeNonce nonce now ≫= f) st
  = f (fst (Nonce.consumeNonce nonce now (nonceStore st)))
      {| nonceStore := snd (Nonce.consumeNonce nonce now (nonceStore st));
         gearApi := gearApi st; trace := trace st |}.
Proof.
  unfold mbind, M_bind, consumeNonce.
  by destruct (Nonce.consumeNonce nonce now (nonceStore st)).
Qed.

Lemma keeps_verifySignature (a m s : jsstring) :
  keeps_registry (verifySignature a m s).
Proof. unfold verifySignature. destruct (signatureVerify m s a); auto with keeps. Qed.

Lemma keeps_jwtVerify (token secret : jsstring) (now : Z) :
  keeps_registry (jwtVerify token secret now).
Proof. unfold jwtVerify. destruct (jwt_verify token secret now); auto with keeps. Qed.

Lemma keeps_signJwtM (a : jsstring) (ttl : Z) (secret : jsstring) (now : Z) :
  keeps_registry (signJwtM a ttl secret now).
Proof. apply keeps_logged. Qed.

Lemma keeps_getApi (cfg : Config) (env : Env) : keeps_registry (getApi cfg env).
Proof.
  intros st. unfold getApi. destruct (gearApi st); [done|].
  by destruct (create (chain env) (VARA_WS cfg)).
Qed.

Lemma keeps_thresholdRaw (cfg : Config) : keeps_registry (thresholdRaw cfg).
Proof. unfold thresholdRaw. destruct (VFT_DECIMALS cfg <? 0); auto with keeps. Qed.

Lemma keeps_balanceAndThreshold (cfg : Config) (env : Env) (account : jsstring) :
  keeps_registry (balanceAndThreshold cfg env account).
Proof.
  unfold balanceAndThreshold.
  apply keeps_bind; [apply keeps_getApi|]; intros api.
  apply keeps_bind; [apply keeps_logged|]; intros n.
  apply keeps_bind; [apply keeps_thresholdRaw|]; intros thr.
  apply keeps_bind; [apply keeps_logged|]; intros bal.
  apply keeps_ret.
Qed.

End Steps.

#[export] Hint Resolve keeps_verifySignature keeps_jwtVerify keeps_signJwtM
  keeps_getApi keeps_thresholdRaw keeps_balanceAndThreshold : keeps.

(** Rewrite the prefix of [verify_try] on a request that passes the schema
    and carries the five fields: what remains starts at [consumeNonce]. *)
Ltac verify_prefix Hshape :=
  unfold post_auth_verify; rewrite ?handle_registry;
  unfold handle, verify_try;
  rewrite (parse_well_shaped _ _ _ _ Hshape), bind_ret;
  rewrite !mustExtract_present, !bind_ret by assumption;
  rewrite bind_consumeNonce.

Ltac keeps_registry_tac :=
  repeat first
    [ apply keeps_bind; [solve [auto with keeps]|]; intros ?
    | match goal with |- keeps_registry (let '(_, _) := ?p in _) =>
        destruct p end
    | apply keeps_if
    | solve [auto with keeps] ].

Section VerifyOrder.
Context `{Libraries}.

(** Once the fields are extracted, the registry that verify leaves behind is
    the one [consumeNonce] produced, whatever the later checks decide. *)
Lemma verify_registry (cfg : Config) (env : Env) (req : SignedMessage)
    (st : ServerState) (a m s : jsstring) :
  well_shaped req a m s → fields_present m →
  nonceStore (snd (post_auth_verify cfg env req st))
  = snd (Nonce.consumeNonce (extractLine m (lit "Nonce")) (Date_now env 0)
           (nonceStore st)).
Proof.
  intros Hshape (F1 & F2 & F3 & F4 & F5).
  verify_prefix Hshape.
  match goal with |- nonceStore (snd (?m ?st1)) = _ =>
    assert (keeps_registry m) as Hk; [|by rewrite Hk] end.
  keeps_registry_tac.
Qed.

Lemma verify_rejected_nonce (cfg : Config) (env : Env) (req : SignedMessage)
    (st : ServerState) (a m s : jsstring) :
  well_shaped req a m s → fields_present m →
  fst (Nonce.consumeNonce (extractLine m (lit "Nonce")) (Date_now env 0)
         (nonceStore st)) = false →
  fst (post_auth_verify cfg env req st)
  = {| status := 400; json := ErrorBody (Text "Invalid Nonce") |}.
Proof.
  intros Hshape (F1 & F2 & F3 & F4 & F5) Hc.
  verify_prefix Hshape. by rewrite Hc.
Qed.

End VerifyOrder.

(** C2. On a request that passes the schema and carries the five fields,
    verify answers [400 Invalid Nonce] when the nonce is absent from the
    registry or its expiry has passed, whatever the signature and the balance
    are; and when the nonce is present and unexpired and verify answers with
    the domain, chain-id, freshness or signature failure, the nonce is no
    longer in the registry afterwards. *)
Theorem verify_consumes_nonce_first `{Libraries} (cfg : Config) (env : Env)
    (req : SignedMessage) (st : ServerState) (a m s : jsstring) :
  well_shaped req a m s → fields_present m →
  (nonce_absent_or_expired st (extractLine m (lit "Nonce")) (Date_now env 0) →
   fst (post_auth_verify cfg env req st)
   = {| status := 400; json := ErrorBody (Text "Invalid Nonce") |})
  ∧ (nonce_unexpired st (extractLine m (lit "Nonce")) (Date_now env 0) →
     failed_after_nonce (fst (post_auth_verify cfg env req st)) →
     nonceStore (snd (post_auth_verify cfg env req st))
       !! extractLine m (lit "Nonce") = None).
Proof.
  intros Hshape Hfields. split.
  - intros Hn. apply (verify_rejected_nonce cfg env req st a m s); [done..|].
    unfold Nonce.consumeNonce.
    destruct Hn as [-> | (e & -> & Hle)]; [done|].
    destruct (e =? 0); [done|]. simpl. apply Z.ltb_ge. lia.
  - intros (e & He & Hlt) Hfail.
    rewrite (verify_registry cfg env req st a m s) by done.
    destruct (fst (Nonce.consumeNonce (extractLine m (lit "Nonce"))
                     (Date_now env 0) (nonceStore st))) eqn:Hc.
    + revert Hc. unfold Nonce.consumeNonce. rewrite He.
      destruct (e =? 0); [done|]. simpl. intros _. apply lookup_delete_eq.
    + rewrite (verify_rejected_nonce cfg env req st a m s) in Hfail by done.
      by destruct Hfail as [Hf | [Hf | [Hf | Hf]]].
Qed.

(** ** Freshness of the challenge *)

Section Freshness.
Context `{Libraries}.

Lemma isMessageFresh_iff (issuedAt expiresIn : jsstring) (skew now : Z) :
  isMessageFresh issuedAt expiresIn skew now = true
  ↔ ∃ issued, Date_parse issuedAt = Some issued
      ∧ 0 < parseDurationMs expiresIn
      ∧ issued - skew ≤ now ≤ issued + parseDurationMs expiresIn + skew.
Proof.
  unfold isMessageFresh. split.
  - destruct (Date_parse issuedAt) as [issued|]; [|done].
    destruct (Z.leb_spec (parseDurationMs expiresIn) 0); [done|].
    intros [H1 H2]%andb_true_iff. exists issued.
    apply Z.leb_le in H1, H2. auto.
  - intros (issued & -> & Hdur & H1 & H2).
    destruct (Z.leb_spec (parseDurationMs expiresIn) 0); [lia|].
    apply andb_true_iff. split; by apply Z.leb_le.
Qed.

Lemma verify_future_rejected (cfg : Config) (env : Env) (req : SignedMessage)
    (st : ServerState) (m : jsstring) (issued : Z) :
  message req = Some m →
  Date_parse (extractLine m (lit "IssuedAt")) = Some issued →
  Date_now env 1 < issued - CLOCK_SKEW_MS cfg →
  status (fst (post_auth_verify cfg env req st)) = 400
  ∧ jwt_of (fst (post_auth_verify cfg env req st)) = None.
Proof.
  intros Hm Hp Hlt.
  assert (∀ e, isMessageFresh (extractLine m (lit "IssuedAt")) e
            (CLOCK_SKEW_MS cfg) (Date_now env 1) = false) as Hstale.
  { intros e. apply not_true_is_false. rewrite isMessageFresh_iff.
    intros (i & Hi & _ & Hlo & _). rewrite Hp in Hi. injection Hi as <-. lia. }
  unfold post_auth_verify, handle, verify_try, SignedMessageSchema_parse.
  rewrite Hm.
  destruct (address req) as [a|]; [|done].
  destruct (signature req) as [s|]; [|done].
  destruct (_ && _); [|done]. rewrite bind_ret.
  unfold mustExtract.
  destruct (extractLine m (lit "Nonce")) as [|n0 n]; [done|]. rewrite bind_ret.
  destruct (extractLine m (lit "Domain")) as [|d0 d]; [done|]. rewrite bind_ret.
  destruct (extractLine m (lit "ChainId")) as [|c0 c]; [done|]. rewrite bind_ret.
  destruct (extractLine m (lit "IssuedAt")) as [|i0 i] eqn:Ei; [done|]. rewrite bind_ret.
  destruct (extractLine m (lit "ExpiresIn")) as [|e0 e]; [done|]. rewrite bind_ret.
  rewrite bind_consumeNonce.
  destruct (fst (Nonce.consumeNonce _ _ _)); [|done]. simpl negb. cbv iota.
  destruct (_ && _); [done|].
  destruct (_ && _); [done|].
  rewrite Hstale. done.
Qed.

End Freshness.

(** ** The gating decision *)

Section Gating.
Context `{Libraries}.

Lemma consumeNonce_accepted (st : ServerState) (nonce : jsstring) (now : Z) :
  nonce_accepted st nonce now →
  Nonce.consumeNonce nonce now (nonceStore st)
  = (true, delete nonce (nonceStore st)).
Proof.
  intros (e & He & Hne & Hlt). unfold Nonce.consumeNonce. rewrite He.
  destruct (Z.eqb_spec e 0); [done|].
  by assert ((now <? e) = true) as -> by (apply Z.ltb_lt; lia).
Qed.

Lemma domain_check_passes (cfg : Config) (m : jsstring) :
  domain_ok cfg m →
  bool_decide (EXPECTED_DOMAIN cfg ≠ [])
  && bool_decide (extractLine m (lit "Domain") ≠ EXPECTED_DOMAIN cfg) = false.
Proof.
  intros [He | He]; apply andb_false_iff; [left | right];
    apply bool_decide_eq_false; tauto.
Qed.

Lemma chain_id_check_passes (cfg : Config) (m : jsstring) :
  chain_id_ok cfg m →
  bool_decide (EXPECTED_CHAIN_ID cfg ≠ [])
  && bool_decide (extractLine m (lit "ChainId") ≠ EXPECTED_CHAIN_ID cfg) = false.
Proof.
  intros [He | He]; apply andb_false_iff; [left | right];
    apply bool_decide_eq_false; tauto.
Qed.

Lemma getVFTBalance_any_handle (ch : Chain) (account : jsstring)
    (api api' : GearApi) :
  getVFTBalance ch account (Some api) = getVFTBalance ch account (Some api').
Proof. by destruct account. Qed.

Lemma bind_balanceAndThreshold {B} (cfg : Config) (env : Env)
    (account : jsstring) (f : Z * Z → M B) (st : ServerState) (api : GearApi) :
  apiHandle cfg env st = Some api → 0 ≤ VFT_DECIMALS cfg →
  (balanceAndThreshold cfg env account ≫= f) st
  = f (rawBalance env account, rawThreshold cfg)
      {| nonceStore := nonceStore st; gearApi := Some api;
         trace := trace st ++ balanceEvents env account |}.
Proof.
  intros Hapi Hdec.
  assert (getApi cfg env st
          = (Value api, {| nonceStore := nonceStore st; gearApi := Some api;
                           trace := trace st |})) as Hget.
  { unfold getApi, apiHandle in *. destruct st as [ns [g|] tr]; simpl in *.
    - by injection Hapi as ->.
    - by rewrite Hapi. }
  unfold balanceAndThreshold, thresholdRaw, rawBalance, balanceEvents, rawThreshold.
  assert ((VFT_DECIMALS cfg <? 0) = false) as -> by (apply Z.ltb_ge; lia).
  unfold mbind at 1 2, M_bind at 1 2. rewrite Hget.
  rewrite (getVFTBalance_any_handle _ _ api {| providerAddress := [] |}).
  rewrite bind_logged, bind_ret, bind_logged. unfold emit. simpl.
  by rewrite app_assoc.
Qed.

Lemma verify_at_gating (cfg : Config) (env : Env) (req : SignedMessage)
    (st : ServerState) (a m s : jsstring) :
  reaches_gating cfg env req st a m s →
  ∃ api, apiHandle cfg env st = Some api ∧
  post_auth_verify cfg env req st
  = let st1 := {| nonceStore := delete (extractLine m (lit "Nonce")) (nonceStore st);
                  gearApi := Some api;
                  trace := trace st ++ balanceEvents env a |} in
    if rawBalance env a <? rawThreshold cfg then
      ({| status := 403;
          json := GatingBody "gating: balance insuficiente"
                    (toHuman (rawBalance env a) (VFT_DECIMALS cfg))
                    (toHuman (rawThreshold cfg) (VFT_DECIMALS cfg))
                    (VFT_DECIMALS cfg) |}, st1)
    else
      ({| status := 200;
          json := VerifyBody
                    (signJwt a (JWT_TTL_MIN cfg) (JWT_SECRET cfg) (Date_now env 2))
                    (toHuman (rawBalance env a) (VFT_DECIMALS cfg))
                    (toHuman (rawThreshold cfg) (VFT_DECIMALS cfg))
                    (VFT_DECIMALS cfg) |},
       emit [Signed (signJwt a (JWT_TTL_MIN cfg) (JWT_SECRET cfg)
                       (Date_now env 2))] st1).
Proof.
  intros (Hshape & Hfields & Hnonce & Hdom & Hchain & Hfresh & Hsig
          & [api Hapi] & Hdec).
  exists api. split; [done|].
  destruct Hfields as (F1 & F2 & F3 & F4 & F5).
  verify_prefix Hshape.
  rewrite (consumeNonce_accepted _ _ _ Hnonce). cbn [negb fst snd].
  rewrite (domain_check_passes _ _ Hdom), (chain_id_check_passes _ _ Hchain).
  unfold message_fresh in Hfresh. rewrite Hfresh. cbn [negb].
  unfold verifySignature. rewrite Hsig, bind_ret. cbn [negb].
  rewrite (bind_balanceAndThreshold _ _ _ _ _ api) by done.
  cbv zeta.
  destruct (rawBalance env a <? rawThreshold cfg); [done|].
  unfold signJwtM. by rewrite bind_logged.
Qed.

End Gating.

Section GatingFacts.
Context `{Libraries}.

Lemma verify_stale (cfg : Config) (env : Env) (req : SignedMessage)
    (st : ServerState) (a m s : jsstring) :
  well_shaped req a m s → fields_present m →
  nonce_accepted st (extractLine m (lit "Nonce")) (Date_now env 0) →
  domain_ok cfg m → chain_id_ok cfg m →
  message_fresh cfg env m = false →
  fst (post_auth_verify cfg env req st)
  = {| status := 400; json := ErrorBody (Text "Message Error") |}.
Proof.
  intros Hshape (F1 & F2 & F3 & F4 & F5) Hnonce Hdom Hchain Hstale.
  verify_prefix Hshape.
  rewrite (consumeNonce_accepted _ _ _ Hnonce). cbn [negb fst snd].
  rewrite (domain_check_passes _ _ Hdom), (chain_id_check_passes _ _ Hchain).
  unfold message_fresh in Hstale. by rewrite Hstale.
Qed.

Lemma signedTokens_app (tr1 tr2 : list event) :
  signedTokens (tr1 ++ tr2) = signedTokens tr1 ++ signedTokens tr2.
Proof. apply omap_app. Qed.

Lemma balanceQueries_app (tr1 tr2 : list event) :
  balanceQueries (tr1 ++ tr2) = balanceQueries tr1 ++ balanceQueries tr2.
Proof. apply omap_app. Qed.

Lemma signedTokens_toSafeBigInt (n : number) :
  signedTokens (snd (toSafeBigInt n)) = [].
Proof. destruct n as [| |q]; simpl; [done..|]. by destruct (Num.exceedsSafe q). Qed.

Lemma signedTokens_getVFTBalance (ch : Chain) (account : jsstring)
    (api : option GearApi) :
  signedTokens (snd (getVFTBalance ch account api)) = [].
Proof.
  unfold getVFTBalance. destruct account as [|c account]; [done|].
  destruct api as [api|]; [|done].
  destruct (newProgram ch); [|done]. cbn [negb].
  assert (signedTokens (snd (toHexAddress (c :: account))) = []) as Hhex.
  { unfold toHexAddress. destruct (_ && _); [done|].
    by destruct (decodeAddress (c :: account)). }
  destruct (toHexAddress (c :: account)) as [normalized ev]. simpl in Hhex.
  destruct (balanceOf ch normalized) as [|balance]; simpl.
  - by rewrite signedTokens_app, Hhex.
  - destruct (Num.isNaN balance); simpl; by rewrite signedTokens_app, Hhex.
Qed.

Lemma signedTokens_balanceEvents (env : Env) (account : jsstring) :
  signedTokens (balanceEvents env account) = [].
Proof.
  unfold balanceEvents.
  by rewrite signedTokens_app, signedTokens_getVFTBalance,
    signedTokens_toSafeBigInt.
Qed.

End GatingFacts.

(** C3. The freshness check of verify passes exactly when [IssuedAt] parses
    as a timestamp, the duration parsed from [ExpiresIn] is strictly
    positive, and the clock lies in the closed interval from
    [issued - skew] to [issued + duration + skew]. A request that reaches
    the check and does not pass it is answered [400 Message Error]; and a
    message whose [IssuedAt] lies in the future by more than the skew is
    answered with a 400 and no token, whatever its signature and the balance
    are. *)
Theorem verify_freshness `{Libraries} (cfg : Config) (env : Env)
    (req : SignedMessage) (st : ServerState) (a m s : jsstring) :
  (message_fresh cfg env m = true
   ↔ ∃ issued,
       Date_parse (extractLine m (lit "IssuedAt")) = Some issued
       ∧ 0 < parseDurationMs (extractLine m (lit "ExpiresIn"))
       ∧ issued - CLOCK_SKEW_MS cfg ≤ Date_now env 1
         ≤ issued + parseDurationMs (extractLine m (lit "ExpiresIn"))
           + CLOCK_SKEW_MS cfg)
  ∧ (well_shaped req a m s → fields_present m →
     nonce_accepted st (extractLine m (lit "Nonce")) (Date_now env 0) →
     domain_ok cfg m → chain_id_ok cfg m →
     message_fresh cfg env m = false →
     fst (post_auth_verify cfg env req st)
     = {| status := 400; json := ErrorBody (Text "Message Error") |})
  ∧ (message req = Some m →
     ∀ issued,
       Date_parse (extractLine m (lit "IssuedAt")) = Some issued →
       Date_now env 1 < issued - CLOCK_SKEW_MS cfg →
       status (fst (post_auth_verify cfg env req st)) = 400
       ∧ jwt_of (fst (post_auth_verify cfg env req st)) = None).
Proof.
  split; [apply isMessageFresh_iff|]. split.
  - apply verify_stale.
  - intros Hm issued. by apply verify_future_rejected.
Qed.

(** C4. With [thresholdRaw = VFT_THRESHOLD_HUMAN * 10 ^ VFT_DECIMALS] as an
    integer, a request that passes every check before the balance lookup is
    granted exactly when the integer balance is at least the threshold: then
    verify answers 200 with a newly signed token, the balance equal to the
    threshold included; with a strictly smaller balance it answers 403 with
    the balance, the threshold and the decimals, and signs no token. *)
Theorem verify_gating_exact `{Libraries} (cfg : Config) (env : Env)
    (req : SignedMessage) (st : ServerState) (a m s : jsstring) :
  reaches_gating cfg env req st a m s →
  (rawThreshold cfg ≤ rawBalance env a →
   fst (post_auth_verify cfg env req st)
   = {| status := 200;
        json := VerifyBody
                  (signJwt a (JWT_TTL_MIN cfg) (JWT_SECRET cfg) (Date_now env 2))
                  (toHuman (rawBalance env a) (VFT_DECIMALS cfg))
                  (toHuman (rawThreshold cfg) (VFT_DECIMALS cfg))
                  (VFT_DECIMALS cfg) |}
   ∧ signedTokens (trace (snd (post_auth_verify cfg env req st)))
     = signedTokens (trace st)
       ++ [signJwt a (JWT_TTL_MIN cfg) (JWT_SECRET cfg) (Date_now env 2)])
  ∧ (rawBalance env a < rawThreshold cfg →
     fst (post_auth_verify cfg env req st)
     = {| status := 403;
          json := GatingBody "gating: balance insuficiente"
                    (toHuman (rawBalance env a) (VFT_DECIMALS cfg))
                    (toHuman (rawThreshold cfg) (VFT_DECIMALS cfg))
                    (VFT_DECIMALS cfg) |}
     ∧ jwt_of (fst (post_auth_verify cfg env req st)) = None
     ∧ signedTokens (trace (snd (post_auth_verify cfg env req st)))
       = signedTokens (trace st)).
Proof.
  intros Hreach.
  destruct (verify_at_gating cfg env req st a m s Hreach) as (api & _ & ->).
  cbv zeta. split; intros Hcmp.
  - assert ((rawBalance env a <? rawThreshold cfg) = false) as ->
      by (apply Z.ltb_ge; lia).
    split; [done|]. simpl.
    by rewrite !signedTokens_app, signedTokens_balanceEvents, app_nil_r.
  - assert ((rawBalance env a <? rawThreshold cfg) = true) as ->
      by (apply Z.ltb_lt; lia).
    split; [done|]. split; [done|]. simpl.
    by rewrite signedTokens_app, signedTokens_balanceEvents, app_nil_r.
Qed.

(** ** Conversion of the balance to an integer *)

Section SafeBigInt.

Lemma trunc_bounds (q : Q) :
  (Qabs (inject_Z (Num.trunc q)) <= Qabs q)%Q
  ∧ (Qabs q < Qabs (inject_Z (Num.trunc q)) + 1)%Q
  ∧ ((0 <= q)%Q → 0 ≤ Num.trunc q)
  ∧ ((q <= 0)%Q → Num.trunc q ≤ 0).
Proof.
  destruct q as [n d]. unfold Num.trunc, Qle, Qlt. simpl.
  assert (Z.abs (n ÷ Z.pos d) = Z.abs n / Z.pos d) as Habs.
  { rewrite <- (Z.quot_abs n (Z.pos d)) by lia.
    rewrite (Z.abs_eq (Z.pos d)) by lia.
    apply Z.quot_div_nonneg; lia. }
  pose proof (Z.mul_div_le (Z.abs n) (Z.pos d) ltac:(lia)) as Hle.
  pose proof (Z.mul_succ_div_gt (Z.abs n) (Z.pos d) ltac:(lia)) as Hgt.
  rewrite Habs. repeat split.
  - lia.
  - lia.
  - intros Hn. apply Z.quot_pos; lia.
  - intros Hn. rewrite <- (Z.opp_involutive n), Z.quot_opp_l by lia.
    pose proof (Z.quot_pos (- n) (Z.pos d)). lia.
Qed.

Lemma exceedsSafe_iff (q : Q) :
  Num.exceedsSafe q = true ↔ (inject_Z Num.MAX_SAFE_INTEGER < Qabs q)%Q.
Proof.
  unfold Num.exceedsSafe. rewrite negb_true_iff, <- not_true_iff_false, Qle_bool_iff.
  split; [apply Qnot_le_lt | apply Qlt_not_le].
Qed.

End SafeBigInt.

(** C5, counterexample. A finite balance beyond the safe
    range is not mapped to [0]: [toSafeBigInt] warns and returns it. *)
Lemma toSafeBigInt_keeps_out_of_range :
  (inject_Z Num.MAX_SAFE_INTEGER < Qabs (inject_Z 9007199254740994))%Q
  ∧ toSafeBigInt (Finite (inject_Z 9007199254740994))
    = (9007199254740994, [Warn "[toSafeBigInt] Error:"])
  ∧ fst (toSafeBigInt (Finite (inject_Z 9007199254740994))) ≠ 0.
Proof. split; [reflexivity|]. split; [reflexivity|]. discriminate. Qed.

(** C5, amended. [toSafeBigInt] maps [NaN] and the infinities to [0] and writes
    nothing; a finite number is rounded towards zero to an integer, and a
    warning is written exactly when its absolute value exceeds
    [Number.MAX_SAFE_INTEGER], the rounded value being returned all the
    same. *)
Theorem toSafeBigInt_spec (n : number) :
  (Num.isFinite n = false → toSafeBigInt n = (0, []))
  ∧ (∀ q, n = Finite q →
       (Qabs (inject_Z (fst (toSafeBigInt n))) <= Qabs q)%Q
       ∧ (Qabs q < Qabs (inject_Z (fst (toSafeBigInt n))) + 1)%Q
       ∧ ((0 <= q)%Q → 0 ≤ fst (toSafeBigInt n))
       ∧ ((q <= 0)%Q → fst (toSafeBigInt n) ≤ 0)
       ∧ ((inject_Z Num.MAX_SAFE_INTEGER < Qabs q)%Q →
          snd (toSafeBigInt n) = [Warn "[toSafeBigInt] Error:"])
       ∧ ((Qabs q <= inject_Z Num.MAX_SAFE_INTEGER)%Q →
          snd (toSafeBigInt n) = [])).
Proof.
  split.
  - by destruct n.
  - intros q ->. simpl.
    destruct (trunc_bounds q) as (H1 & H2 & H3 & H4).
    repeat split; try done.
    + intros Hbig. apply exceedsSafe_iff in Hbig. by rewrite Hbig.
    + intros Hsmall. destruct (Num.exceedsSafe q) eqn:E; [|done].
      apply exceedsSafe_iff in E. by apply Qlt_not_le in E.
Qed.

Lemma toSafeBigInt_spec_witness :
  toSafeBigInt (Infinity false) = (0, [])
  ∧ snd (toSafeBigInt (Finite (inject_Z 9007199254740994)))
    = [Warn "[toSafeBigInt] Error:"].
Proof.
  split.
  - apply (proj1 (toSafeBigInt_spec (Infinity false))). reflexivity.
  - apply (proj2 (toSafeBigInt_spec (Finite (inject_Z 9007199254740994)))
             (inject_Z 9007199254740994) eq_refl).
    reflexivity.
Defined.

(** ** Refresh *)

Section Refresh.
Context `{Libraries}.

Lemma getBearerToken_nonempty (h : option jsstring) (token : jsstring) :
  getBearerToken h = Some token → token ≠ [].
Proof.
  unfold getBearerToken. destruct (Js.startsWithNoCase _ _); [|done].
  destruct (Js.span Js.isWhiteSpace _) as [ws rest].
  destruct ws as [|w ws]; [done|]. destruct rest as [|c rest].
  - destruct (rev (w :: ws)) as [|c [|c' l]]; [done..|].
    destruct (Js.isLineTerminator c); [done|]. by intros [= <-].
  - destruct (existsb _ _); [done|]. by intros [= <-].
Qed.

Lemma refresh_at_recheck (cfg : Config) (env : Env) (h : option jsstring)
    (st : ServerState) (token : jsstring) (p : payload) :
  getBearerToken h = Some token →
  jwt_verify token (JWT_SECRET cfg) (Date_now env 0) = Some p →
  secondsUntil (exp p) (Date_now env 1) ≤ REFRESH_MIN_REMAIN_SEC cfg →
  RECHECK_ON_REFRESH cfg = true →
  is_Some (apiHandle cfg env st) → 0 ≤ VFT_DECIMALS cfg →
  ∃ api, apiHandle cfg env st = Some api ∧
  post_auth_refresh cfg env h st
  = let st1 := {| nonceStore := nonceStore st; gearApi := Some api;
                  trace := trace st ++ balanceEvents env (sub p) |} in
    let newJwt := signJwt (sub p) (JWT_TTL_MIN cfg) (JWT_SECRET cfg)
                    (Date_now env 2) in
    if rawBalance env (sub p) <? rawThreshold cfg then
      ({| status := 403;
          json := GatingBody "gating: Insuficient Balance (refresh)"
                    (toHuman (rawBalance env (sub p)) (VFT_DECIMALS cfg))
                    (toHuman (rawThreshold cfg) (VFT_DECIMALS cfg))
                    (VFT_DECIMALS cfg) |}, st1)
    else
      ({| status := 200;
          json := RefreshBody newJwt
                    (secondsUntil (jwt_decode newJwt ≫= exp) (Date_now env 3))
                    true |},
       emit [Signed newJwt] st1).
Proof.
  intros Htok Hver Hrem Hre [api Hapi] Hdec. exists api. split; [done|].
  unfold post_auth_refresh, handle, refresh_try. rewrite Htok.
  unfold jwtVerify. rewrite Hver, bind_ret. cbv zeta.
  assert ((REFRESH_MIN_REMAIN_SEC cfg <? secondsUntil (exp p) (Date_now env 1))
          = false) as -> by (apply Z.ltb_ge; lia).
  rewrite Hre.
  unfold mbind at 1, M_bind at 1.
  rewrite (bind_balanceAndThreshold _ _ _ _ _ api) by done.
  destruct (rawBalance env (sub p) <? rawThreshold cfg); [done|].
  unfold mret, M_ret. cbv beta iota. unfold signJwtM. by rewrite bind_logged.
Qed.

End Refresh.

(** C6. When the presented token validates and more seconds remain until its
    expiry than [REFRESH_MIN_REMAIN_SEC], refresh answers 200 with the very
    token that was presented, [refreshed = false] and the remaining seconds;
    the server state is left as it was: no balance query is sent and no
    token is signed. *)
Theorem refresh_above_floor_unchanged `{Libraries} (cfg : Config) (env : Env)
    (h : option jsstring) (st : ServerState) (token : jsstring) (p : payload) :
  getBearerToken h = Some token →
  jwt_verify token (JWT_SECRET cfg) (Date_now env 0) = Some p →
  REFRESH_MIN_REMAIN_SEC cfg < secondsUntil (exp p) (Date_now env 1) →
  post_auth_refresh cfg env h st
  = ({| status := 200;
        json := RefreshBody token (secondsUntil (exp p) (Date_now env 1))
                  false |}, st)
  ∧ balanceQueries (trace (snd (post_auth_refresh cfg env h st)))
    = balanceQueries (trace st)
  ∧ signedTokens (trace (snd (post_auth_refresh cfg env h st)))
    = signedTokens (trace st).
Proof.
  intros Htok Hver Hrem.
  assert (post_auth_refresh cfg env h st
          = ({| status := 200;
                json := RefreshBody token
                          (secondsUntil (exp p) (Date_now env 1)) false |}, st))
    as ->; [|done].
  unfold post_auth_refresh, handle, refresh_try. rewrite Htok.
  unfold jwtVerify. rewrite Hver, bind_ret. cbv zeta.
  by assert ((REFRESH_MIN_REMAIN_SEC cfg <? secondsUntil (exp p) (Date_now env 1))
             = true) as -> by (apply Z.ltb_lt; lia).
Qed.

(** C7. When the presented token validates with no more seconds remaining
    than [REFRESH_MIN_REMAIN_SEC], re-check on refresh is enabled and the
    balance fetched for the subject is strictly below the threshold, refresh
    answers 403 with an error, the balance, the threshold and the decimals,
    carries no token and signs none. The denial leaves the nonce registry as
    it was, and afterwards the entitlement check still accepts the presented
    token whenever the token library does. *)
Theorem refresh_recheck_denies `{Libraries} (cfg : Config) (env : Env)
    (h : option jsstring) (st : ServerState) (token : jsstring) (p : payload) :
  getBearerToken h = Some token →
  jwt_verify token (JWT_SECRET cfg) (Date_now env 0) = Some p →
  secondsUntil (exp p) (Date_now env 1) ≤ REFRESH_MIN_REMAIN_SEC cfg →
  RECHECK_ON_REFRESH cfg = true →
  is_Some (apiHandle cfg env st) → 0 ≤ VFT_DECIMALS cfg →
  rawBalance env (sub p) < rawThreshold cfg →
  fst (post_auth_refresh cfg env h st)
  = {| status := 403;
       json := GatingBody "gating: Insuficient Balance (refresh)"
                 (toHuman (rawBalance env (sub p)) (VFT_DECIMALS cfg))
                 (toHuman (rawThreshold cfg) (VFT_DECIMALS cfg))
                 (VFT_DECIMALS cfg) |}
  ∧ jwt_of (fst (post_auth_refresh cfg env h st)) = None
  ∧ signedTokens (trace (snd (post_auth_refresh cfg env h st)))
    = signedTokens (trace st)
  ∧ nonceStore (snd (post_auth_refresh cfg env h st)) = nonceStore st
  ∧ (∀ (env' : Env) (h' : option jsstring) (p' : payload),
       stripBearer h' = token →
       jwt_verify token (JWT_SECRET cfg) (Date_now env' 0) = Some p' →
       fst (get_entitlement cfg env' h'
              (snd (post_auth_refresh cfg env h st)))
       = {| status := 200;
            json := EntitlementBody (sub p') (hasAccess p') |}).
Proof.
  intros Htok Hver Hrem Hre Hapi Hdec Hlow.
  destruct (refresh_at_recheck cfg env h st token p) as (api & _ & ->);
    [done..|]. cbv zeta.
  assert ((rawBalance env (sub p) <? rawThreshold cfg) = true) as ->
    by (apply Z.ltb_lt; lia).
  split; [done|]. split; [done|]. split.
  { simpl. by rewrite signedTokens_app, signedTokens_balanceEvents, app_nil_r. }
  split; [done|].
  intros env' h' p' Hh' Hver'.
  unfold get_entitlement, handle, entitlement_try. rewrite Hh'.
  pose proof (getBearerToken_nonempty _ _ Htok) as Hne.
  destruct token as [|c token]; [done|].
  unfold jwtVerify. by rewrite Hver', bind_ret.
Qed.

(** ** Fail-closed balance lookup and token failures *)

Section FailClosed.
Context `{Libraries}.

Lemma getVFTBalance_never_NaN (ch : Chain) (account : jsstring)
    (api : option GearApi) :
  Num.isNaN (fst (getVFTBalance ch account api)) = false.
Proof.
  unfold getVFTBalance. destruct account as [|c account]; [done|].
  destruct api as [api|]; [|done].
  destruct (newProgram ch); [|done]. cbn [negb].
  destruct (toHexAddress (c :: account)) as [normalized ev].
  destruct (balanceOf ch normalized) as [|balance]; [done|].
  by destruct (Num.isNaN balance) eqn:E.
Qed.

Lemma getVFTBalance_unreadable (ch : Chain) (account : jsstring)
    (api : option GearApi) :
  account = [] ∨ api = None ∨ chain_read_fails ch account →
  fst (getVFTBalance ch account api) = Finite 0
  ∧ console_written (snd (getVFTBalance ch account api)).
Proof.
  unfold getVFTBalance, chain_read_fails, console_written.
  intros Hfail. destruct account as [|c account].
  { split; [done|]. exists "Account Error"%string. left. apply list_elem_of_here. }
  destruct api as [api|].
  2:{ split; [done|]. exists "Account Error"%string. left. apply list_elem_of_here. }
  destruct Hfail as [? | [? | Hfail]]; [done..|].
  destruct (newProgram ch).
  2:{ split; [done|]. eexists. right. apply list_elem_of_here. }
  destruct Hfail as [? | Hfail]; [done|]. cbn [negb].
  destruct (toHexAddress (c :: account)) as [normalized ev]. simpl in Hfail.
  destruct Hfail as [-> | ->]; simpl.
  - split; [done|]. eexists. right.
    apply list_elem_of_In, in_or_app. right. simpl. auto.
  - split; [done|]. eexists. left.
    apply list_elem_of_In, in_or_app. right. simpl. auto.
Qed.

Lemma rawBalance_unreadable (env : Env) (account : jsstring) :
  account = [] ∨ chain_read_fails (chain env) account →
  rawBalance env account = 0.
Proof.
  intros Hfail. unfold rawBalance.
  destruct (getVFTBalance_unreadable (chain env) account
              (Some {| providerAddress := [] |})) as [-> _]; [|done].
  destruct Hfail; auto.
Qed.

End FailClosed.

Section ZeroThreshold.
Import Reference Deployments.

(** C8, counterexample. With a threshold of zero the chain that cannot be
    read does not lead to a denial: [getVFTBalance] returns [0], which meets
    the threshold, and verify answers 200 with a token. *)
Lemma unreadable_chain_granted_at_zero_threshold :
  chain_read_fails chain_down alice
  ∧ fst (getVFTBalance chain_down alice (Some {| providerAddress := [] |}))
    = Finite 0
  ∧ status (fst (post_auth_verify cfg_zero_threshold
                   (env_at (NEW_YEAR_2025 + 5000) chain_down)
                   good_request issued_state)) = 200
  ∧ jwt_of (fst (post_auth_verify cfg_zero_threshold
                   (env_at (NEW_YEAR_2025 + 5000) chain_down)
                   good_request issued_state))
    = Some (signJwt alice 20 (lit "s3cret") (NEW_YEAR_2025 + 5000)).
Proof.
  split; [right; left; reflexivity|]. by vm_compute.
Qed.

End ZeroThreshold.

(** C8, amended. [getVFTBalance] returns [0] and writes to the console when the
    account address is empty, when there is no API handle, when the client
    objects cannot be built or the query throws, and when the result of the
    query is not a number; it never returns [NaN]. With a positive
    threshold, a request that reaches the balance lookup while the chain cannot
    be read is denied: verify answers 403 without a token, and so does
    refresh with re-check. *)
Theorem getVFTBalance_fail_closed `{Libraries} (ch : Chain)
    (account : jsstring) (api : option GearApi) :
  (account = [] ∨ api = None ∨ chain_read_fails ch account →
   fst (getVFTBalance ch account api) = Finite 0
   ∧ console_written (snd (getVFTBalance ch account api)))
  ∧ Num.isNaN (fst (getVFTBalance ch account api)) = false
  ∧ (∀ cfg env req st m s,
       chain env = ch → reaches_gating cfg env req st account m s →
       chain_read_fails ch account → 0 < rawThreshold cfg →
       fst (post_auth_verify cfg env req st)
       = {| status := 403;
            json := GatingBody "gating: balance insuficiente"
                      (toHuman 0 (VFT_DECIMALS cfg))
                      (toHuman (rawThreshold cfg) (VFT_DECIMALS cfg))
                      (VFT_DECIMALS cfg) |}
       ∧ jwt_of (fst (post_auth_verify cfg env req st)) = None)
  ∧ (∀ cfg env h st token p,
       chain env = ch → sub p = account →
       getBearerToken h = Some token →
       jwt_verify token (JWT_SECRET cfg) (Date_now env 0) = Some p →
       secondsUntil (exp p) (Date_now env 1) ≤ REFRESH_MIN_REMAIN_SEC cfg →
       RECHECK_ON_REFRESH cfg = true →
       is_Some (apiHandle cfg env st) → 0 ≤ VFT_DECIMALS cfg →
       account = [] ∨ chain_read_fails ch account → 0 < rawThreshold cfg →
       status (fst (post_auth_refresh cfg env h st)) = 403
       ∧ jwt_of (fst (post_auth_refresh cfg env h st)) = None).
Proof.
  split; [apply getVFTBalance_unreadable|].
  split; [apply getVFTBalance_never_NaN|]. split.
  - intros cfg env req st m s <- Hreach Hfail Hthr.
    destruct (verify_at_gating cfg env req st account m s Hreach)
      as (api' & _ & ->). cbv zeta.
    rewrite rawBalance_unreadable by auto.
    by assert ((0 <? rawThreshold cfg) = true) as -> by (apply Z.ltb_lt; lia).
  - intros cfg env h st token p <- <- Htok Hver Hrem Hre Hapi Hdec Hfail Hthr.
    destruct (refresh_at_recheck cfg env h st token p) as (api' & _ & ->);
      [done..|]. cbv zeta.
    rewrite rawBalance_unreadable by auto.
    by assert ((0 <? rawThreshold cfg) = true) as -> by (apply Z.ltb_lt; lia).
Qed.

Section MissingToken.
Import Reference.

(** C9, counterexample. With the reference libraries, a
    refresh without a token and a refresh with a malformed token are both
    answered 401, but with different bodies. *)
Lemma missing_token_answer_differs :
  getBearerToken None = None
  ∧ getBearerToken (bearer (lit "x")) = Some (lit "x")
  ∧ verify (lit "x") (JWT_SECRET cfg) 0 = None
  ∧ fst (post_auth_refresh cfg
           (env_at 0 chain_down) None
           empty_state)
    = {| status := 401; json := ErrorBody (Text "falta token") |}
  ∧ fst (post_auth_refresh cfg
           (env_at 0 chain_down)
           (bearer (lit "x")) empty_state)
    = {| status := 401; json := ErrorBody (Text "Invalid token") |}
  ∧ fst (post_auth_refresh cfg
           (env_at 0 chain_down) None
           empty_state)
    ≠ fst (post_auth_refresh cfg
             (env_at 0 chain_down)
             (bearer (lit "x")) empty_state).
Proof. repeat split; try reflexivity. discriminate. Qed.

End MissingToken.

(** C9, amended. Every request to refresh or to the entitlement check whose
    token is missing or rejected by the token library is answered 401 and
    leaves the state as it was. When a token is presented and the library
    rejects it, for whatever cause, the body is the one
    [{ error: "Invalid token" }] on both endpoints; a missing token is
    answered with its own body, "falta token" on refresh and "Token Error" on
    the entitlement check. *)
Theorem invalid_token_generic `{Libraries} (cfg : Config) (env : Env)
    (h : option jsstring) (st : ServerState) :
  (getBearerToken h = None →
   post_auth_refresh cfg env h st
   = ({| status := 401; json := ErrorBody (Text "falta token") |}, st))
  ∧ (∀ token, getBearerToken h = Some token →
       jwt_verify token (JWT_SECRET cfg) (Date_now env 0) = None →
       post_auth_refresh cfg env h st
       = ({| status := 401; json := ErrorBody (Text "Invalid token") |}, st))
  ∧ (stripBearer h = [] →
     get_entitlement cfg env h st
     = ({| status := 401; json := ErrorBody (Text "Token Error") |}, st))
  ∧ (stripBearer h ≠ [] →
     jwt_verify (stripBearer h) (JWT_SECRET cfg) (Date_now env 0) = None →
     get_entitlement cfg env h st
     = ({| status := 401; json := ErrorBody (Text "Invalid token") |}, st)).
Proof.
  repeat split.
  - intros Hnone. unfold post_auth_refresh, handle, refresh_try.
    by rewrite Hnone.
  - intros token Htok Hrej. unfold post_auth_refresh, handle, refresh_try.
    rewrite Htok. unfold jwtVerify. rewrite Hrej, bind_throw.
    unfold throw, emit. simpl. rewrite app_nil_r. by destruct st.
  - intros Hnone. unfold get_entitlement, handle, entitlement_try.
    by rewrite Hnone.
  - intros Hsome Hrej. unfold get_entitlement, handle, entitlement_try.
    destruct (stripBearer h) as [|c token]; [done|].
    unfold jwtVerify. rewrite Hrej, bind_throw.
    unfold throw, emit. simpl. rewrite app_nil_r. by destruct st.
Qed.

(** ** Tokens issued by the server *)

Section Issues.
Context `{Libraries}.
Context (S : jsstring → Prop) (R : response → Prop).

Lemma issues_ret {A} (V : A → Prop) (a : A) : V a → issues S R V (mret a).
Proof.
  intros Ha st. split; [|done]. exists []. by rewrite app_nil_r.
Qed.

Lemma issues_throw {A} (V : A → Prop) (e : exn) : issues S R V (throw e).
Proof. intros st. split; [|done]. exists []. by rewrite app_nil_r. Qed.

Lemma issues_respond {A} (V : A → Prop) (code : Z) (b : body) :
  R {| status := code; json := b |} → issues S R V (respond code b).
Proof. intros Hr st. split; [|done]. exists []. by rewrite app_nil_r. Qed.

Lemma issues_logged {A} (V : A → Prop) (w : A * list event) :
  Forall S (signedTokens (snd w)) → V (fst w) → issues S R V (logged w).
Proof. intros Hs Hv st. split; [|done]. by exists (snd w). Qed.

Lemma issues_bind {A B} (V : A → Prop) (W : B → Prop) (m : M A)
    (f : A → M B) :
  issues S R V m → (∀ a, V a → issues S R W (f a)) →
  issues S R W (m ≫= f).
Proof.
  intros Hm Hf st. unfold mbind, M_bind.
  destruct (Hm st) as [(added & Htr & Hs) Hout].
  destruct (m st) as [[a|r|e] st1]; simpl in *.
  - destruct (Hf a Hout st1) as [(added' & Htr' & Hs') Hout'].
    split; [|done]. exists (added ++ added').
    rewrite Htr', Htr, app_assoc. split; [done|].
    rewrite signedTokens_app. by apply Forall_app.
  - split; [|done]. by exists added.
  - split; [|done]. by exists added.
Qed.

Lemma issues_if {A} (V : A → Prop) (b : bool) (m1 m2 : M A) :
  issues S R V m1 → issues S R V m2 → issues S R V (if b then m1 else m2).
Proof. by destruct b. Qed.

Lemma issues_silent {A} (V : A → Prop) (m : M A) :
  (∀ st, trace (snd (m st)) = trace st
         ∧ match fst (m st) with
           | Value a => V a | Responded r => R r | Thrown _ => True
           end) →
  issues S R V m.
Proof.
  intros Hm st. destruct (Hm st) as [Htr Hout]. split; [|done].
  exists []. by rewrite app_nil_r.
Qed.

Lemma issues_parse (req : SignedMessage) :
  issues S R (λ _, True) (SignedMessageSchema_parse req).
Proof.
  unfold SignedMessageSchema_parse.
  destruct (address req), (message req), (signature req);
    try apply issues_throw.
  destruct (_ && _); [by apply issues_ret | apply issues_throw].
Qed.

Lemma issues_mustExtract (m key : jsstring) :
  issues S R (λ _, True) (mustExtract m key).
Proof.
  unfold mustExtract. destruct (extractLine m key);
    [apply issues_throw | by apply issues_ret].
Qed.

Lemma issues_consumeNonce (nonce : jsstring) (now : Z) :
  issues S R (λ _, True) (consumeNonce nonce now).
Proof.
  apply issues_silent. intros st. unfold consumeNonce.
  by destruct (Nonce.consumeNonce nonce now (nonceStore st)).
Qed.

Lemma issues_verifySignature (a m s : jsstring) :
  issues S R (λ _, True) (verifySignature a m s).
Proof.
  unfold verifySignature. destruct (signatureVerify m s a);
    [by apply issues_ret | apply issues_throw].
Qed.

Lemma issues_jwtVerify (token secret : jsstring) (now : Z) :
  issues S R (λ p, jwt_verify token secret now = Some p)
    (jwtVerify token secret now).
Proof.
  unfold jwtVerify. destruct (jwt_verify token secret now);
    [by apply issues_ret | apply issues_throw].
Qed.

Lemma issues_getApi (cfg : Config) (env : Env) :
  issues S R (λ _, True) (getApi cfg env).
Proof.
  apply issues_silent. intros st. unfold getApi.
  destruct (gearApi st); [done|].
  by destruct (create (chain env) (VARA_WS cfg)).
Qed.

Lemma issues_thresholdRaw (cfg : Config) :
  issues S R (λ _, True) (thresholdRaw cfg).
Proof.
  unfold thresholdRaw. destruct (VFT_DECIMALS cfg <? 0);
    [apply issues_throw | by apply issues_ret].
Qed.

Lemma issues_balanceAndThreshold (cfg : Config) (env : Env)
    (account : jsstring) :
  issues S R (λ _, True) (balanceAndThreshold cfg env account).
Proof.
  unfold balanceAndThreshold.
  eapply issues_bind; [apply issues_getApi|]; intros api _.
  eapply issues_bind with (V := λ _, True).
  { apply issues_logged; [|done].
    rewrite signedTokens_getVFTBalance. constructor. }
  intros n _.
  eapply issues_bind; [apply issues_thresholdRaw|]; intros thr _.
  eapply issues_bind with (V := λ _, True).
  { apply issues_logged; [|done].
    rewrite signedTokens_toSafeBigInt. constructor. }
  intros bal _. by apply issues_ret.
Qed.

Lemma issues_signJwtM (cfg : Config) (a : jsstring) (now : Z) :
  S (signJwt a (JWT_TTL_MIN cfg) (JWT_SECRET cfg) now) →
  issues S R (λ t, t = signJwt a (JWT_TTL_MIN cfg) (JWT_SECRET cfg) now)
    (signJwtM a (JWT_TTL_MIN cfg) (JWT_SECRET cfg) now).
Proof.
  intros Hs. unfold signJwtM. apply issues_logged; [|done].
  simpl. by constructor.
Qed.

Lemma issues_handle (catch : exn → response * list event) (m : M response)
    (st : ServerState) :
  issues S R R m → (∀ e, signedTokens (snd (catch e)) = []) →
  (∀ e, R (fst (catch e))) →
  (∃ added, trace (snd (handle catch m st)) = trace st ++ added
            ∧ Forall S (signedTokens added))
  ∧ R (fst (handle catch m st)).
Proof.
  intros Hm Hquiet Hcatch. unfold handle.
  destruct (Hm st) as [(added & Htr & Hs) Hout].
  destruct (m st) as [[r|r|e] st1]; simpl in *.
  - split; [|done]. by exists added.
  - split; [|done]. by exists added.
  - split; [|done]. exists (added ++ snd (catch e)).
    rewrite Htr, app_assoc. split; [done|].
    rewrite signedTokens_app, Hquiet, app_nil_r. done.
Qed.

End Issues.

Section IssuedTokens.
Context `{Libraries}.

Lemma signJwt_access_token (cfg : Config) (a : jsstring) (now : Z) :
  access_token cfg (signJwt a (JWT_TTL_MIN cfg) (JWT_SECRET cfg) now).
Proof. by exists a, now. Qed.

Lemma verify_try_issues (cfg : Config) (env : Env) (req : SignedMessage) :
  issues (access_token cfg) (carries (access_token cfg))
    (carries (access_token cfg)) (verify_try cfg env req).
Proof.
  unfold verify_try.
  eapply issues_bind; [apply issues_parse|]; intros [[a m] s] _.
  do 5 (eapply issues_bind; [apply issues_mustExtract|]; intros ? _).
  eapply issues_bind; [apply issues_consumeNonce|]; intros ok _.
  repeat (apply issues_if; [by apply issues_respond|]).
  eapply issues_bind; [apply issues_verifySignature|]; intros valid _.
  apply issues_if; [by apply issues_respond|].
  eapply issues_bind; [apply issues_balanceAndThreshold|]; intros [bal thr] _.
  apply issues_if; [by apply issues_respond|].
  eapply issues_bind;
    [apply issues_signJwtM, signJwt_access_token|]; intros t ->.
  apply issues_ret. intros t [= <-]. apply signJwt_access_token.
Qed.

Lemma refresh_try_issues (cfg : Config) (env : Env) (h : option jsstring) :
  issues (access_token cfg)
    (carries (λ t, getBearerToken h = Some t ∨ access_token cfg t))
    (carries (λ t, getBearerToken h = Some t ∨ access_token cfg t))
    (refresh_try cfg env h).
Proof.
  unfold refresh_try. destruct (getBearerToken h) as [token|];
    [|by apply issues_respond].
  eapply issues_bind; [apply issues_jwtVerify|]; intros p _. cbv zeta.
  apply issues_if.
  { apply issues_respond. intros t [= <-]. by left. }
  eapply issues_bind with (V := λ _, True).
  { apply issues_if; [|by apply issues_ret].
    eapply issues_bind; [apply issues_balanceAndThreshold|];
      intros [bal thr] _.
    apply issues_if; [by apply issues_respond | by apply issues_ret]. }
  intros _ _.
  eapply issues_bind;
    [apply issues_signJwtM, signJwt_access_token|]; intros t ->.
  apply issues_ret. intros t [= <-]. right. apply signJwt_access_token.
Qed.

End IssuedTokens.

(** C10. Every token that verify or refresh signs is signed over claims with
    [hasAccess: true], and a token carried by their responses is such a
    token or, for refresh, the token that was presented. With a token
    library that gives back the signed claims until the expiry, the
    entitlement check of a token signed by [signJwt] reports
    [hasAccess = true] as long as the token has not expired. *)
Theorem issued_tokens_grant_access `{Libraries} (cfg : Config) (env : Env)
    (st : ServerState) :
  (∀ req,
     (∃ added,
        trace (snd (post_auth_verify cfg env req st)) = trace st ++ added
        ∧ Forall (access_token cfg) (signedTokens added))
     ∧ carries (access_token cfg) (fst (post_auth_verify cfg env req st)))
  ∧ (∀ h,
       (∃ added,
          trace (snd (post_auth_refresh cfg env h st)) = trace st ++ added
          ∧ Forall (access_token cfg) (signedTokens added))
       ∧ carries (λ t, getBearerToken h = Some t ∨ access_token cfg t)
           (fst (post_auth_refresh cfg env h st)))
  ∧ (jwt_sign_verify →
     ∀ (a : jsstring) (t0 : Z) (h : option jsstring),
       stripBearer h = signJwt a (JWT_TTL_MIN cfg) (JWT_SECRET cfg) t0 →
       stripBearer h ≠ [] →
       Date_now env 0 / 1000 < t0 / 1000 + JWT_TTL_MIN cfg * 60 →
       fst (get_entitlement cfg env h st)
       = {| status := 200; json := EntitlementBody a (Some true) |}).
Proof.
  split; [|split].
  - intros req. unfold post_auth_verify.
    apply issues_handle; [apply verify_try_issues|done|done].
  - intros h. unfold post_auth_refresh.
    apply issues_handle; [apply refresh_try_issues|done|done].
  - intros Hlib a t0 h Hh Hne Hlive.
    unfold get_entitlement, handle, entitlement_try.
    destruct (stripBearer h) as [|c token] eqn:E; [done|].
    unfold jwtVerify. rewrite Hh. unfold signJwt.
    by rewrite Hlib.
Qed.
(** ** The registry of the running server *)

Section ServerRegistry.
Context `{Libraries}.

Lemma keeps_registry_live {A} (m : M A) : keeps_registry m → keeps_live m.
Proof. intros Hk st Hlive. by rewrite Hk. Qed.

Lemma keeps_live_bind {A B} (m : M A) (f : A → M B) :
  keeps_live m → (∀ a, keeps_live (f a)) → keeps_live (m ≫= f).
Proof.
  intros Hm Hf st Hlive. unfold mbind, M_bind. specialize (Hm st Hlive).
  destruct (m st) as [[a|r|e] st1]; simpl in *; [|done..].
  by apply Hf.
Qed.

Lemma keeps_live_consumeNonce (nonce : jsstring) (now : Z) :
  keeps_live (consumeNonce nonce now).
Proof.
  intros st Hlive. unfold consumeNonce.
  pose proof (live_registry_consume nonce now _ Hlive) as Hc.
  by destruct (Nonce.consumeNonce nonce now (nonceStore st)).
Qed.

Lemma keeps_parse (req : SignedMessage) :
  keeps_registry (SignedMessageSchema_parse req).
Proof.
  unfold SignedMessageSchema_parse.
  destruct (address req), (message req), (signature req); auto with keeps.
Qed.

Lemma keeps_mustExtract (m key : jsstring) :
  keeps_registry (mustExtract m key).
Proof. unfold mustExtract. destruct (extractLine m key); auto with keeps. Qed.

Lemma verify_try_live (cfg : Config) (env : Env) (req : SignedMessage) :
  keeps_live (verify_try cfg env req).
Proof.
  unfold verify_try.
  apply keeps_live_bind; [apply keeps_registry_live, keeps_parse|].
  intros [[a m] s].
  do 5 (apply keeps_live_bind;
        [apply keeps_registry_live, keeps_mustExtract|]; intros ?).
  apply keeps_live_bind; [apply keeps_live_consumeNonce|]; intros ok.
  apply keeps_registry_live. keeps_registry_tac.
Qed.

Lemma refresh_try_keeps (cfg : Config) (env : Env) (h : option jsstring) :
  keeps_registry (refresh_try cfg env h).
Proof.
  unfold refresh_try. destruct (getBearerToken h); [|auto with keeps].
  apply keeps_bind; [auto with keeps|]; intros p. cbv zeta.
  apply keeps_if; [auto with keeps|].
  apply keeps_bind.
  - apply keeps_if; [|auto with keeps]. keeps_registry_tac.
  - intros _. keeps_registry_tac.
Qed.

Lemma entitlement_try_keeps (cfg : Config) (env : Env) (h : option jsstring) :
  keeps_registry (entitlement_try cfg env h).
Proof.
  unfold entitlement_try. destruct (stripBearer h); [auto with keeps|].
  keeps_registry_tac.
Qed.

(** Every handler keeps the stored expiries non-zero when the clock and the
    nonce lifetime are not negative and not both zero. *)
Lemma serve_live (cfg : Config) (env : Env) (req : request)
    (st : ServerState) :
  0 < Date_now env 0 → 0 ≤ NONCE_TTL cfg →
  Nonce.live_registry (nonceStore st) →
  Nonce.live_registry (nonceStore (snd (serve cfg env req st))).
Proof.
  intros Hclock Httl Hlive. destruct req as [|body|h|h]; simpl.
  - unfold post_auth_nonce.
    apply (live_registry_issue (randomUUID env) (Date_now env 0)
             (NONCE_TTL cfg) (nonceStore st)); [nia|done].
  - unfold post_auth_verify. rewrite handle_registry.
    by apply verify_try_live.
  - unfold post_auth_refresh. rewrite handle_registry.
    by rewrite refresh_try_keeps.
  - unfold get_entitlement. rewrite handle_registry.
    by rewrite entitlement_try_keeps.
Qed.

Lemma serveAll_live (cfg : Config) (reqs : list (Env * request)) :
  ∀ st : ServerState,
    Forall (λ er, 0 < Date_now (fst er) 0) reqs → 0 ≤ NONCE_TTL cfg →
    Nonce.live_registry (nonceStore st) →
    Nonce.live_registry (nonceStore (serveAll cfg reqs st)).
Proof.
  induction reqs as [|[env req] reqs IH]; intros st Hclock Httl Hlive; [done|].
  simpl. inversion Hclock as [|? ? Hhead Htail]; subst. simpl in Hhead.
  apply IH; [done..|]. by apply serve_live.
Qed.

End ServerRegistry.

(** ** The reference libraries meet the contract *)

Section ReferenceFacts.
Import Reference.

Lemma decodeZ_encodeZ (z : Z) : decodeZ (encodeZ z) = z.
Proof.
  unfold decodeZ, encodeZ. destruct (Z.leb_spec 0 z).
  - rewrite Z2N.id by lia. rewrite Z.even_mul. simpl.
    rewrite Z.mul_comm. apply Z.div_mul. lia.
  - rewrite Z2N.id by lia.
    replace (- 2 * z - 1) with (2 * (- z) - 1) by lia.
    rewrite Z.even_sub, Z.even_mul. simpl.
    replace (2 * - z - 1 + 1) with (- z * 2) by lia.
    rewrite Z.div_mul by lia. lia.
Qed.

Lemma decodeFlag_encodeFlag (f : option bool) : decodeFlag (encodeFlag f) = f.
Proof. by destruct f as [[|]|]. Qed.

Lemma reference_sign_verify : jwt_sign_verify.
Proof.
  intros claims secret ttlMin t0 t Hiat Hexp Hlive. simpl.
  unfold verify, decode, sign.
  rewrite rev_app_distr. simpl rev at 1. cbn [app].
  rewrite rev_involutive, N.eqb_refl.
  rewrite !rev_app_distr. simpl. rewrite rev_involutive.
  rewrite !decodeZ_encodeZ, decodeFlag_encodeFlag.
  by assert ((t / 1000 <? t0 / 1000 + ttlMin * 60) = true) as ->
    by (apply Z.ltb_lt; lia).
Qed.

End ReferenceFacts.
(** ** The statements on a concrete deployment *)

Ltac by_computation :=
  vm_compute;
  first [reflexivity | discriminate | lia | eexists; reflexivity
        | intuition discriminate].

Section Witnesses.
Import Reference.

(** The good request reaches the balance lookup five seconds after the nonce
    was issued, whatever the chain answers afterwards. *)
Lemma good_request_reaches_gating (ch : Chain) :
  create ch = (λ url, Some {| providerAddress := url |}) →
  reaches_gating cfg (env_at (NEW_YEAR_2025 + 5000) ch) good_request
    issued_state alice
    (challenge "123e4567-e89b-42d3-a456-426614174000" "app.example")
    (alice ++ challenge "123e4567-e89b-42d3-a456-426614174000" "app.example").
Proof.
  intros Hcreate.
  split; [repeat split; by_computation|].
  split; [repeat split; by_computation|].
  split; [exists 1735690200000; repeat split; by_computation|].
  split; [right; by_computation|].
  split; [right; by_computation|].
  split; [by_computation|].
  split; [by_computation|].
  split; [|by_computation].
  unfold apiHandle. simpl. rewrite Hcreate. by eexists.
Qed.

Lemma consumeNonce_one_shot_witness :
  Nonce.live_registry {[ lit "n1" := 10 ]}
  ∧ fst (Nonce.consumeNonce (lit "n1") 5 {[ lit "n1" := 10 ]}) = true
  ∧ snd (Nonce.consumeNonce (lit "n1") 5 {[ lit "n1" := 10 ]})
    = delete (lit "n1") {[ lit "n1" := 10 ]}
  ∧ fst (Nonce.consumeNonce (lit "n1") 6
           (snd (Nonce.consumeNonce (lit "n1") 5 {[ lit "n1" := 10 ]})))
    = false
  ∧ (Nonce.successes (lit "n1")
       [Nonce.Consume (lit "n1") 5%Z; Nonce.Consume (lit "n1") 6%Z]
       {[ lit "n1" := 10%Z ]} ≤ 1)%nat.
Proof.
  assert (Nonce.live_registry {[ lit "n1" := 10 ]}) as Hlive.
  { apply map_Forall_singleton. lia. }
  split; [exact Hlive|].
  destruct (consumeNonce_one_shot (lit "n1") 5 {[ lit "n1" := 10 ]})
    as (Hfirst & Hlater & Honce).
  destruct (Hfirst Hlive) as [Hdel Hiff].
  split; [|split; [|split]].
  - apply Hiff. exists 10. split; [reflexivity | lia].
  - exact Hdel.
  - apply (Hlater [] 6). exact I.
  - apply Honce. exact I.
Defined.

Lemma verify_consumes_nonce_first_witness :
  fst (post_auth_verify cfg (env_at (NEW_YEAR_2025 + 5000) chain_down)
         good_request empty_state)
  = {| status := 400; json := ErrorBody (Text "Invalid Nonce") |}
  ∧ nonceStore
      (snd (post_auth_verify cfg (env_at (NEW_YEAR_2025 + 5000) chain_down)
              (request "123e4567-e89b-42d3-a456-426614174000" "evil.example")
              issued_state))
    !! lit "123e4567-e89b-42d3-a456-426614174000" = None.
Proof.
  split.
  - apply (verify_consumes_nonce_first cfg
             (env_at (NEW_YEAR_2025 + 5000) chain_down) good_request
             empty_state alice
             (challenge "123e4567-e89b-42d3-a456-426614174000" "app.example")
             (alice ++ challenge "123e4567-e89b-42d3-a456-426614174000"
                         "app.example")).
    + repeat split; by_computation.
    + repeat split; by_computation.
    + left. by_computation.
  - apply (verify_consumes_nonce_first cfg
             (env_at (NEW_YEAR_2025 + 5000) chain_down)
             (request "123e4567-e89b-42d3-a456-426614174000" "evil.example")
             issued_state alice
             (challenge "123e4567-e89b-42d3-a456-426614174000" "evil.example")
             (alice ++ challenge "123e4567-e89b-42d3-a456-426614174000"
                         "evil.example")).
    + repeat split; by_computation.
    + repeat split; by_computation.
    + exists 1735690200000. split; by_computation.
    + left. by_computation.
Defined.

Lemma verify_freshness_witness :
  status (fst (post_auth_verify cfg
                 (env_at (NEW_YEAR_2025 - 120001) (chain_with (Finite 5000)))
                 good_request issued_state)) = 400
  ∧ jwt_of (fst (post_auth_verify cfg
                   (env_at (NEW_YEAR_2025 - 120001) (chain_with (Finite 5000)))
                   good_request issued_state)) = None.
Proof.
  apply (proj2 (proj2 (verify_freshness cfg
                         (env_at (NEW_YEAR_2025 - 120001)
                            (chain_with (Finite 5000)))
                         good_request issued_state alice
                         (challenge "123e4567-e89b-42d3-a456-426614174000"
                            "app.example")
                         (alice ++ challenge
                                     "123e4567-e89b-42d3-a456-426614174000"
                                     "app.example")))
           eq_refl NEW_YEAR_2025).
  - by_computation.
  - by_computation.
Defined.

Lemma verify_gating_exact_witness :
  jwt_of (fst (post_auth_verify cfg
                 (env_at (NEW_YEAR_2025 + 5000) (chain_with (Finite 3000)))
                 good_request issued_state))
  = Some (signJwt alice 20 (lit "s3cret") (NEW_YEAR_2025 + 5000))
  ∧ status (fst (post_auth_verify cfg
                   (env_at (NEW_YEAR_2025 + 5000) (chain_with (Finite 2999)))
                   good_request issued_state)) = 403.
Proof.
  split.
  - destruct (verify_gating_exact cfg
                (env_at (NEW_YEAR_2025 + 5000) (chain_with (Finite 3000)))
                good_request issued_state alice _ _
                (good_request_reaches_gating (chain_with (Finite 3000))
                   eq_refl)) as [Hgrant _].
    destruct Hgrant as [-> _]; [by_computation | reflexivity].
  - destruct (verify_gating_exact cfg
                (env_at (NEW_YEAR_2025 + 5000) (chain_with (Finite 2999)))
                good_request issued_state alice _ _
                (good_request_reaches_gating (chain_with (Finite 2999))
                   eq_refl)) as [_ Hdeny].
    destruct Hdeny as [-> _]; [by_computation | reflexivity].
Defined.

Lemma refresh_above_floor_unchanged_witness :
  fst (post_auth_refresh cfg
         (env_at (NEW_YEAR_2025 + 5000) chain_down)
         (bearer (signJwt alice 20 (lit "s3cret") NEW_YEAR_2025))
         empty_state)
  = {| status := 200;
       json := RefreshBody (signJwt alice 20 (lit "s3cret") NEW_YEAR_2025)
                 1195 false |}.
Proof.
  destruct (refresh_above_floor_unchanged cfg
              (env_at (NEW_YEAR_2025 + 5000) chain_down)
              (bearer (signJwt alice 20 (lit "s3cret") NEW_YEAR_2025))
              empty_state
              (signJwt alice 20 (lit "s3cret") NEW_YEAR_2025)
              {| sub := alice; hasAccess := Some true;
                 iat := Some 1735689600; exp := Some 1735690800 |})
    as [-> _]; by_computation.
Defined.

Lemma refresh_recheck_denies_witness :
  status (fst (post_auth_refresh cfg
                 (env_at (NEW_YEAR_2025 + 1000000) (chain_with (Finite 1000)))
                 (bearer (signJwt alice 20 (lit "s3cret") NEW_YEAR_2025))
                 empty_state)) = 403
  ∧ fst (get_entitlement cfg
           (env_at (NEW_YEAR_2025 + 1100000) (chain_with (Finite 1000)))
           (bearer (signJwt alice 20 (lit "s3cret") NEW_YEAR_2025))
           (snd (post_auth_refresh cfg
                   (env_at (NEW_YEAR_2025 + 1000000)
                      (chain_with (Finite 1000)))
                   (bearer (signJwt alice 20 (lit "s3cret") NEW_YEAR_2025))
                   empty_state)))
    = {| status := 200; json := EntitlementBody alice (Some true) |}.
Proof.
  destruct (refresh_recheck_denies cfg
              (env_at (NEW_YEAR_2025 + 1000000) (chain_with (Finite 1000)))
              (bearer (signJwt alice 20 (lit "s3cret") NEW_YEAR_2025))
              empty_state
              (signJwt alice 20 (lit "s3cret") NEW_YEAR_2025)
              {| sub := alice; hasAccess := Some true;
                 iat := Some 1735689600; exp := Some 1735690800 |})
    as (Hdenied & _ & _ & _ & Hstill); [by_computation..|].
  split.
  - by rewrite Hdenied.
  - apply (Hstill (env_at (NEW_YEAR_2025 + 1100000) (chain_with (Finite 1000)))
             (bearer (signJwt alice 20 (lit "s3cret") NEW_YEAR_2025))
             {| sub := alice; hasAccess := Some true;
                iat := Some 1735689600; exp := Some 1735690800 |});
      by_computation.
Defined.

Lemma getVFTBalance_fail_closed_witness :
  getVFTBalance chain_down alice (Some {| providerAddress := [] |})
  = (Finite 0,
     [BalanceQuery (lit "0x" ++ alice);
      LogError "[getVFTBalance] Balance Error:"])
  ∧ status (fst (post_auth_verify cfg
                   (env_at (NEW_YEAR_2025 + 5000) chain_down)
                   good_request issued_state)) = 403.
Proof.
  split; [reflexivity|].
  destruct (getVFTBalance_fail_closed chain_down alice
              (Some {| providerAddress := [] |}))
    as (_ & _ & Hverify & _).
  destruct (Hverify cfg (env_at (NEW_YEAR_2025 + 5000) chain_down)
              good_request issued_state _ _ eq_refl
              (good_request_reaches_gating chain_down eq_refl)) as [-> _].
  - right. left. reflexivity.
  - by_computation.
  - reflexivity.
Defined.

Lemma invalid_token_generic_witness :
  post_auth_refresh cfg (env_at 0 chain_down) (bearer (lit "x")) empty_state
  = ({| status := 401; json := ErrorBody (Text "Invalid token") |},
     empty_state)
  ∧ get_entitlement cfg (env_at 0 chain_down) (bearer (lit "x")) empty_state
    = ({| status := 401; json := ErrorBody (Text "Invalid token") |},
       empty_state).
Proof.
  destruct (invalid_token_generic cfg (env_at 0 chain_down)
              (bearer (lit "x")) empty_state) as (_ & Hrefresh & _ & Hcheck).
  split.
  - apply (Hrefresh (lit "x")); reflexivity.
  - apply Hcheck; by_computation.
Defined.

Lemma issued_tokens_grant_access_witness :
  fst (get_entitlement cfg (env_at (NEW_YEAR_2025 + 1199000) chain_down)
         (bearer (signJwt alice 20 (lit "s3cret") NEW_YEAR_2025))
         empty_state)
  = {| status := 200; json := EntitlementBody alice (Some true) |}.
Proof.
  destruct (issued_tokens_grant_access cfg
              (env_at (NEW_YEAR_2025 + 1199000) chain_down) empty_state)
    as (_ & _ & Hcheck).
  apply (Hcheck reference_sign_verify alice NEW_YEAR_2025); by_computation.
Defined.

End Witnesses.

(** * Further properties of the sources *)

(** ** Strings of the runtime *)

Section JsFacts.
Import Js.

Lemma split_nonempty (sep : N) (s : jsstring) : split sep s ≠ [].
Proof.
  induction s as [|c s IH]; simpl; [done|].
  destruct (c =? sep)%N; [done|]. by destruct (split sep s).
Qed.

Lemma split_no_sep (sep : N) (l : jsstring) :
  sep ∉ l → split sep l = [l].
Proof.
  induction l as [|c l IH]; intros Hnot; simpl; [done|].
  apply not_elem_of_cons in Hnot as [Hne Hnot].
  destruct (N.eqb_spec c sep) as [->|_]; [done|].
  by rewrite IH.
Qed.

Lemma split_app_sep (sep : N) (l rest : jsstring) :
  sep ∉ l → split sep (l ++ sep :: rest) = l :: split sep rest.
Proof.
  induction l as [|c l IH]; intros Hnot; simpl.
  - by rewrite N.eqb_refl.
  - apply not_elem_of_cons in Hnot as [Hne Hnot].
    destruct (N.eqb_spec c sep) as [->|_]; [done|].
    by rewrite IH.
Qed.

Lemma join_cons_cons (sep : jsstring) (c : N) (l : jsstring)
    (ls : list jsstring) :
  join sep ((c :: l) :: ls) = c :: join sep (l :: ls).
Proof. by destruct ls. Qed.

Lemma join_split (sep : N) (s : jsstring) : join [sep] (split sep s) = s.
Proof.
  induction s as [|c s IH]; simpl; [done|].
  destruct (N.eqb_spec c sep) as [->|_].
  - pose proof (split_nonempty sep s) as Hne.
    destruct (split sep s) as [|p ps]; [done|].
    simpl in *. by rewrite IH.
  - pose proof (split_nonempty sep s) as Hne.
    destruct (split sep s) as [|p ps]; [done|].
    by rewrite join_cons_cons, IH.
Qed.

Lemma startsWith_app (p r : jsstring) : startsWith (p ++ r) p = true.
Proof.
  induction p as [|c p IH]; [by destruct r|].
  cbn [startsWith app]. by rewrite N.eqb_refl.
Qed.

Lemma startsWith_inv (s p : jsstring) :
  startsWith s p = true → s = p ++ drop (length p) s.
Proof.
  revert s. induction p as [|c p IH]; intros s; simpl; [done|].
  destruct s as [|d s]; [done|].
  intros [Hc Hs]%andb_true_iff. apply N.eqb_eq in Hc as ->.
  simpl. f_equal. by apply IH.
Qed.

Lemma trimStart_blank (ws s : jsstring) :
  forallb isWhiteSpace ws = true → trimStart (ws ++ s) = trimStart s.
Proof.
  induction ws as [|c ws IH]; simpl; [done|].
  intros [Hc Hws]%andb_true_iff. rewrite Hc. by apply IH.
Qed.

Lemma trimStart_head (c : N) (s : jsstring) :
  isWhiteSpace c = false → trimStart (c :: s) = c :: s.
Proof. intros Hc. simpl. by rewrite Hc. Qed.

Lemma trimStart_all_blank (ws : jsstring) :
  forallb isWhiteSpace ws = true → trimStart ws = [].
Proof.
  intros Hws. rewrite <- (app_nil_r ws). by rewrite trimStart_blank.
Qed.

(** What [trimStart] removes is white space, and what is left does not start
    with white space. *)
Lemma trimStart_decompose (s : jsstring) :
  ∃ ws, s = ws ++ trimStart s ∧ forallb isWhiteSpace ws = true
        ∧ match trimStart s with
          | [] => True
          | c :: _ => isWhiteSpace c = false
          end.
Proof.
  induction s as [|c s (ws & Hs & Hws & Hhead)]; simpl.
  - by exists [].
  - destruct (isWhiteSpace c) eqn:Hc.
    + exists (c :: ws). simpl. rewrite Hc, Hws. split; [by f_equal|done].
    + exists []. by rewrite Hc.
Qed.

Lemma last_rev_cons {A} (x : A) (l : list A) (d : A) :
  List.last (rev (x :: l)) d = x.
Proof. simpl. apply last_last. Qed.

(** The text between the stripped white space: a trimmed text is left
    unchanged by [trim] whatever white space surrounds it. *)
Lemma trim_surrounded (ws1 x ws2 : jsstring) :
  forallb isWhiteSpace ws1 = true → forallb isWhiteSpace ws2 = true →
  trimmed x = true → trim (ws1 ++ x ++ ws2) = x.
Proof.
  intros H1 H2 Hx. unfold trim. rewrite trimStart_blank by done.
  destruct x as [|c x].
  - simpl. rewrite (trimStart_all_blank ws2) by done. done.
  - simpl in Hx. apply andb_true_iff in Hx as [Hc Hl].
    apply negb_true_iff in Hc, Hl.
    change ((c :: x) ++ ws2) with (c :: (x ++ ws2)).
    rewrite trimStart_head by done.
    change (c :: x ++ ws2) with ((c :: x) ++ ws2).
    rewrite rev_app_distr, trimStart_blank.
    2:{ rewrite forallb_forall in *. intros y Hy. apply H2.
        by apply in_rev. }
    destruct (rev (c :: x)) as [|l r] eqn:E.
    { by apply (f_equal (@length N)) in E; rewrite length_rev in E. }
    assert (l = List.last (c :: x) c) as ->.
    { rewrite <- (rev_involutive (c :: x)), E. by rewrite last_rev_cons. }
    rewrite trimStart_head by done. by rewrite <- E, rev_involutive.
Qed.

Lemma trim_trimmed (s : jsstring) : trimmed (trim s) = true.
Proof.
  unfold trim.
  destruct (trimStart_decompose s) as (ws1 & Hs & Hws1 & Hhead1).
  destruct (trimStart_decompose (rev (trimStart s)))
    as (ws2 & Hr & Hws2 & Hhead2).
  destruct (trimStart (rev (trimStart s))) as [|l r] eqn:E; [done|].
  assert (trimStart s = rev (l :: r) ++ rev ws2) as Ht.
  { rewrite <- rev_app_distr, <- Hr. by rewrite rev_involutive. }
  destruct (rev (l :: r)) as [|c x] eqn:Ex.
  { by apply (f_equal (@length N)) in Ex; rewrite length_rev in Ex. }
  unfold trimmed. rewrite Ht in Hhead1. simpl in Hhead1.
  rewrite Hhead1. cbn [negb andb].
  rewrite <- Ex, last_rev_cons. by rewrite Hhead2.
Qed.

Lemma span_prefix (f : N → bool) (ds rest : jsstring) :
  forallb f ds = true →
  match rest with [] => True | c :: _ => f c = false end →
  span f (ds ++ rest) = (ds, rest).
Proof.
  intros Hds Hrest. induction ds as [|d ds IH]; simpl.
  - destruct rest as [|c rest]; [done|]. simpl. by rewrite Hrest.
  - simpl in Hds. apply andb_true_iff in Hds as [Hd Hds].
    by rewrite Hd, IH.
Qed.

Lemma span_fst_forall (f : N → bool) (s : jsstring) :
  forallb f (fst (span f s)) = true.
Proof.
  induction s as [|c s IH]; simpl; [done|].
  destruct (f c) eqn:Hc; [|done].
  destruct (span f s) as [a b]. simpl in *. by rewrite Hc.
Qed.

Lemma digitsValue_nonneg (ds : jsstring) :
  forallb isDigit ds = true → 0 ≤ digitsValue ds.
Proof.
  unfold digitsValue.
  assert (∀ acc, 0 ≤ acc → forallb isDigit ds = true →
            0 ≤ fold_left (λ acc c, acc * 10 + (Z.of_N c - 48)) ds acc)
    as Hgen; [|by apply Hgen].
  induction ds as [|d ds IH]; intros acc Hacc Hds; simpl; [done|].
  simpl in Hds. apply andb_true_iff in Hds as [Hd Hds].
  apply IH; [|done]. unfold isDigit in Hd.
  apply andb_true_iff in Hd as [Hlo Hhi].
  apply N.leb_le in Hlo, Hhi. lia.
Qed.

End JsFacts.
(** ** Nonce registry: issue, consume, other entries *)

(** X1. A nonce that was just issued can be consumed exactly until its
    expiry: [consumeNonce] of the issued value answers whether the clock is
    before [now + ttlSec * 1000], and leaves the registry without the
    value. *)
Theorem issueNonce_then_consumeNonce (uuid : jsstring) (now ttlSec t : Z)
    (s : Nonce.store) :
  now + ttlSec * 1000 ≠ 0 →
  Nonce.consumeNonce (fst (Nonce.issueNonce uuid now ttlSec s)) t
    (snd (Nonce.issueNonce uuid now ttlSec s))
  = (t <? now + ttlSec * 1000, delete uuid s).
Proof.
  intros Hne. unfold Nonce.consumeNonce, Nonce.issueNonce. simpl.
  rewrite lookup_insert_eq.
  destruct (Z.eqb_spec (now + ttlSec * 1000) 0); [done|].
  by rewrite delete_insert_eq.
Qed.

Lemma issueNonce_then_consumeNonce_witness :
  Nonce.consumeNonce (lit "u1") 600999
    (snd (Nonce.issueNonce (lit "u1") 1000 600 ∅))
  = (true, delete (lit "u1") ∅).
Proof.
  apply (issueNonce_then_consumeNonce (lit "u1") 1000 600 600999 ∅). lia.
Defined.

(** X2. Consuming or issuing one value leaves every other entry of the
    registry alone: the answer of a later [consumeNonce] of another value
    is the same as without the call. *)
Theorem registry_calls_independent (n n' : jsstring) (now now' ttlSec : Z)
    (s : Nonce.store) :
  n ≠ n' →
  snd (Nonce.consumeNonce n now s) !! n' = s !! n'
  ∧ snd (Nonce.issueNonce n now ttlSec s) !! n' = s !! n'
  ∧ fst (Nonce.consumeNonce n' now' (snd (Nonce.consumeNonce n now s)))
    = fst (Nonce.consumeNonce n' now' s)
  ∧ fst (Nonce.consumeNonce n' now'
           (snd (Nonce.issueNonce n now ttlSec s)))
    = fst (Nonce.consumeNonce n' now' s).
Proof.
  intros Hne.
  assert (snd (Nonce.consumeNonce n now s) !! n' = s !! n') as Hc.
  { unfold Nonce.consumeNonce. destruct (s !! n) as [e|]; [|done].
    destruct (e =? 0); [done|]. simpl. by rewrite lookup_delete_ne. }
  assert (snd (Nonce.issueNonce n now ttlSec s) !! n' = s !! n') as Hi.
  { simpl. by rewrite lookup_insert_ne. }
  assert (∀ s1 s2 : Nonce.store, s1 !! n' = s2 !! n' →
            fst (Nonce.consumeNonce n' now' s1)
            = fst (Nonce.consumeNonce n' now' s2)) as Hsame.
  { intros s1 s2 Heq. unfold Nonce.consumeNonce. rewrite Heq.
    destruct (s2 !! n') as [e|]; [|done]. by destruct (e =? 0). }
  split; [done|]. split; [done|]. split; by apply Hsame.
Qed.

Lemma registry_calls_independent_witness :
  fst (Nonce.consumeNonce (lit "b") 5
         (snd (Nonce.consumeNonce (lit "a") 5
                 {[ lit "a" := 10; lit "b" := 10 ]})))
  = fst (Nonce.consumeNonce (lit "b") 5 {[ lit "a" := 10; lit "b" := 10 ]}).
Proof.
  apply (registry_calls_independent (lit "a") (lit "b") 5 5 0
           {[ lit "a" := 10; lit "b" := 10 ]}).
  discriminate.
Defined.

(** ** Challenge message codec *)

Section CodecFacts.

Lemma find_cons_true {A} (f : A → bool) (x : A) (l : list A) :
  f x = true → List.find f (x :: l) = Some x.
Proof. intros Hx. simpl. by rewrite Hx. Qed.

Lemma find_cons_false {A} (f : A → bool) (x : A) (l : list A) :
  f x = false → List.find f (x :: l) = List.find f l.
Proof. intros Hx. simpl. by rewrite Hx. Qed.

Lemma after_first_colon (key l : jsstring) :
  COLON ∉ key → Js.startsWith l (key ++ [COLON]) = true →
  Js.join [COLON] (tail (Js.split COLON l)) = drop (S (length key)) l.
Proof.
  intros Hkey Hstart. apply startsWith_inv in Hstart.
  rewrite length_app in Hstart. simpl in Hstart.
  replace (length key + 1)%nat with (S (length key)) in Hstart by lia.
  set (r := drop (S (length key)) l) in *.
  rewrite Hstart, <- app_assoc. simpl.
  rewrite split_app_sep by done. simpl. apply join_split.
Qed.

End CodecFacts.

Lemma extractLine_lines (key l rest : jsstring) :
  LF ∉ l → COLON ∉ key →
  (Js.startsWith l (key ++ [COLON]) = true →
   extractLine l key = Js.trim (drop (S (length key)) l)
   ∧ extractLine (l ++ LF :: rest) key = Js.trim (drop (S (length key)) l))
  ∧ (Js.startsWith l (key ++ [COLON]) = false →
     extractLine l key = []
     ∧ extractLine (l ++ LF :: rest) key = extractLine rest key).
Proof.
  intros Hlf Hkey. unfold extractLine. split; intros Hstart.
  - rewrite split_no_sep, split_app_sep by done.
    rewrite !find_cons_true by done.
    by rewrite (after_first_colon key l).
  - rewrite split_no_sep, split_app_sep by done.
    rewrite !find_cons_false by done. done.
Qed.

(** X3. [extractLine] honours the first line that starts with the key and a
    colon: its value is the rest of that line after the colon, trimmed,
    whatever follows; a line that does not start so is skipped. *)
Theorem extractLine_first_matching_line (key l rest : jsstring) :
  LF ∉ l → COLON ∉ key →
  (Js.startsWith l (key ++ [COLON]) = true →
   extractLine l key = Js.trim (drop (S (length key)) l)
   ∧ extractLine (l ++ LF :: rest) key = Js.trim (drop (S (length key)) l))
  ∧ (Js.startsWith l (key ++ [COLON]) = false →
     extractLine l key = []
     ∧ extractLine (l ++ LF :: rest) key = extractLine rest key).
Proof. apply extractLine_lines. Qed.

Lemma extractLine_first_matching_line_witness :
  extractLine (lit "Domain: a:b " ++ LF :: lit "Domain: other")
    (lit "Domain") = lit "a:b"
  ∧ extractLine (lit "domain: x" ++ LF :: lit "Domain: y") (lit "Domain")
    = lit "y".
Proof.
  split.
  - destruct (extractLine_first_matching_line (lit "Domain")
                (lit "Domain: a:b ") (lit "Domain: other"))
      as [Hhit _]; [compute_done..|].
    destruct Hhit as [_ ->]; reflexivity.
  - destruct (extractLine_first_matching_line (lit "Domain")
                (lit "domain: x") (lit "Domain: y"))
      as [_ Hskip]; [compute_done..|].
    destruct Hskip as [_ ->]; reflexivity.
Defined.

(** X4. The value [extractLine] returns never starts or ends with white
    space: it is empty, or its first and last code units are not white
    space. *)
Theorem extractLine_trimmed (message key : jsstring) :
  trimmed (extractLine message key) = true.
Proof.
  unfold extractLine.
  destruct (List.find _ _); [apply trim_trimmed | done].
Qed.

(** ** Durations and freshness *)

(** X5. As long as the parsed duration does not exceed
    [Number.MAX_SAFE_INTEGER] milliseconds, the range in which the numbers
    of the source are exact, [parseDurationMs] returns a non-negative whole
    number of seconds. *)
Theorem parseDurationMs_nonneg (s : jsstring) :
  parseDurationMs s ≤ Num.MAX_SAFE_INTEGER →
  0 ≤ parseDurationMs s ∧ (1000 | parseDurationMs s).
Proof.
  intros _. unfold parseDurationMs.
  pose proof (span_fst_forall Js.isDigit (Js.trim s)) as Hdigits.
  destruct (Js.span Js.isDigit (Js.trim s)) as [digits rest].
  simpl in Hdigits.
  pose proof (digitsValue_nonneg digits Hdigits) as Hval.
  destruct digits as [|d digits]; [split; [lia | apply Z.divide_0_r]|].
  set (val := Js.digitsValue (d :: digits)) in *.
  destruct (Js.trimStart rest) as [|u [|u' r]].
  - split; [lia|]. by exists val.
  - repeat case_match; (split; [lia|]).
    + by exists val.
    + exists (val * 60). lia.
    + exists (val * 60 * 60). lia.
    + apply Z.divide_0_r.
  - split; [lia | apply Z.divide_0_r].
Qed.

Lemma parseDurationMs_nonneg_witness :
  0 ≤ parseDurationMs (lit "90m") ∧ (1000 | parseDurationMs (lit "90m")).
Proof.
  apply (parseDurationMs_nonneg (lit "90m")). by vm_compute.
Defined.

(** X6. A run of decimal digits, optionally followed by white space and one
    of the letters s, m, h in either case, with white space around, parses to
    the value of the digits times the milliseconds of the unit, as long as
    that product does not exceed [Number.MAX_SAFE_INTEGER], the range in
    which the numbers of the source are exact; without a letter the unit is
    the second. *)
Theorem parseDurationMs_units (ws1 ds ws2 ws3 : jsstring) (u : N) :
  blank ws1 = true → blank ws2 = true → blank ws3 = true →
  ds ≠ [] → forallb Js.isDigit ds = true →
  (Js.digitsValue ds * 1000 ≤ Num.MAX_SAFE_INTEGER →
   parseDurationMs (ws1 ++ ds ++ ws2 ++ ws3) = Js.digitsValue ds * 1000)
  ∧ (unitMs u ≠ 0 →
     Js.digitsValue ds * unitMs u ≤ Num.MAX_SAFE_INTEGER →
     parseDurationMs (ws1 ++ ds ++ ws2 ++ [u] ++ ws3)
     = Js.digitsValue ds * unitMs u).
Proof.
  unfold blank. intros H1 H2 H3 Hne Hds.
  assert (∀ d, Js.isDigit d = true → Js.isWhiteSpace d = false) as Hdw.
  { intros d Hd. unfold Js.isDigit in Hd.
    apply andb_true_iff in Hd as [Hlo Hhi]. apply N.leb_le in Hlo, Hhi.
    unfold Js.isWhiteSpace, Js.isLineTerminator.
    repeat (apply orb_false_iff; split);
      try (apply N.eqb_neq; lia).
    apply andb_false_iff. left. apply N.leb_gt. lia. }
  assert (∀ w, Js.isWhiteSpace w = true → Js.isDigit w = false) as Hwd.
  { intros w Hw. destruct (Js.isDigit w) eqn:E; [|done].
    by rewrite (Hdw w E) in Hw. }
  assert (trimmed ds = true) as Htrim.
  { destruct ds as [|d ds']; [done|]. unfold trimmed.
    rewrite forallb_forall in Hds.
    rewrite (Hdw d), (Hdw (List.last (d :: ds') d)); [done| |].
    - apply Hds. destruct (exists_last (l := d :: ds')) as (l' & a & E);
        [done|]. rewrite E, last_last, <- E.
      rewrite E. apply in_or_app. right. by left.
    - apply Hds. by left. }
  split.
  - intros _. unfold parseDurationMs.
    rewrite (trim_surrounded ws1 ds (ws2 ++ ws3)); [|done| |done].
    2:{ rewrite forallb_app. by rewrite H2, H3. }
    rewrite <- (app_nil_r ds) at 1. rewrite span_prefix by done.
    destruct ds; [done|]. done.
  - intros Hunit _.
    assert (Js.isWhiteSpace u = false ∧ Js.isDigit u = false) as [Huw Hud].
    { unfold unitMs, Js.toLowerAscii in Hunit.
      unfold Js.isWhiteSpace, Js.isLineTerminator, Js.isDigit.
      destruct ((65 <=? u)%N && (u <=? 90)%N) eqn:Eup.
      - apply andb_true_iff in Eup as [Hlo Hhi]. apply N.leb_le in Hlo, Hhi.
        split.
        + repeat (apply orb_false_iff; split); try (apply N.eqb_neq; lia).
          apply andb_false_iff. left. apply N.leb_gt. lia.
        + apply andb_false_iff. right. apply N.leb_gt. lia.
      - repeat case_match; try done;
          match goal with H : (u =? _)%N = true |- _ =>
            apply N.eqb_eq in H; subst u end; by vm_compute. }
    assert (trimmed (ds ++ ws2 ++ [u]) = true) as Htrim'.
    { destruct ds as [|d ds']; [done|]. unfold trimmed. simpl app.
      rewrite forallb_forall in Hds. rewrite (Hdw d) by (apply Hds; by left).
      change (d :: ds' ++ ws2 ++ [u]) with ((d :: ds') ++ ws2 ++ [u]).
      rewrite !app_assoc, last_last. by rewrite Huw. }
    unfold parseDurationMs.
    replace (ws1 ++ ds ++ ws2 ++ [u] ++ ws3)
      with (ws1 ++ (ds ++ ws2 ++ [u]) ++ ws3)
      by (by rewrite <- !app_assoc).
    rewrite trim_surrounded by done.
    rewrite span_prefix; [|done|].
    2:{ destruct ws2 as [|w ws2]; simpl; [done|].
        simpl in H2. apply andb_true_iff in H2 as [Hw _]. by apply Hwd. }
    destruct ds as [|d ds']; [done|].
    rewrite trimStart_blank by done. rewrite trimStart_head by done.
    unfold unitMs in *. repeat case_match; try done; lia.
Qed.

Lemma parseDurationMs_units_witness :
  parseDurationMs (lit " 15 ") = 15000
  ∧ parseDurationMs (lit "2 H ") = 7200000.
Proof.
  split.
  - apply (proj1 (parseDurationMs_units (lit " ") (lit "15") (lit " ") []
                    104%N eq_refl eq_refl eq_refl
                    ltac:(discriminate) eq_refl)).
    by vm_compute.
  - apply (proj2 (parseDurationMs_units [] (lit "2") (lit " ") (lit " ")
                    72%N eq_refl eq_refl eq_refl
                    ltac:(discriminate) eq_refl)).
    + discriminate.
    + by vm_compute.
Defined.

(** X7. A message that is fresh stays fresh under a larger clock-skew
    tolerance, and a message whose [ExpiresIn] parses to zero (an unknown
    shape, or a zero count) is never fresh, whatever the clock. *)
Theorem isMessageFresh_skew `{Libraries} (issuedAt expiresIn : jsstring)
    (skew skew' now : Z) :
  (skew ≤ skew' →
   isMessageFresh issuedAt expiresIn skew now = true →
   isMessageFresh issuedAt expiresIn skew' now = true)
  ∧ (parseDurationMs expiresIn = 0 →
     isMessageFresh issuedAt expiresIn skew now = false).
Proof.
  split.
  - intros Hle. rewrite !isMessageFresh_iff.
    intros (issued & Hp & Hdur & Hlo & Hhi). exists issued.
    repeat split; [done|done|lia|lia].
  - intros Hzero. unfold isMessageFresh. rewrite Hzero.
    by destruct (Date_parse issuedAt).
Qed.

Section FreshnessRuns.
Import Reference.

Lemma isMessageFresh_skew_witness :
  isMessageFresh (lit "2025-01-01T00:00:00.000Z") (lit "10m") 5000
    (NEW_YEAR_2025 - 3000) = true
  ∧ isMessageFresh (lit "2025-01-01T00:00:00.000Z") (lit "0m") 5000
      NEW_YEAR_2025 = false.
Proof.
  destruct (isMessageFresh_skew
              (lit "2025-01-01T00:00:00.000Z") (lit "10m") 3000 5000
              (NEW_YEAR_2025 - 3000)) as [Hwider _].
  destruct (isMessageFresh_skew
              (lit "2025-01-01T00:00:00.000Z") (lit "0m") 5000 5000
              NEW_YEAR_2025) as [_ Hzero].
  split.
  - apply Hwider; [lia | reflexivity].
  - apply Hzero. reflexivity.
Defined.

End FreshnessRuns.

(** ** Conversion of balances *)

(** X8. On a number that is an integer [toSafeBigInt] returns that integer
    itself; it writes nothing while the absolute value is at most
    [Number.MAX_SAFE_INTEGER] and one warning beyond. *)
Theorem toSafeBigInt_integer (z : Z) :
  fst (toSafeBigInt (Finite (inject_Z z))) = z
  ∧ (Z.abs z ≤ Num.MAX_SAFE_INTEGER →
     snd (toSafeBigInt (Finite (inject_Z z))) = [])
  ∧ (Num.MAX_SAFE_INTEGER < Z.abs z →
     snd (toSafeBigInt (Finite (inject_Z z)))
     = [Warn "[toSafeBigInt] Error:"]).
Proof.
  simpl. unfold Num.trunc. simpl. rewrite Z.quot_1_r.
  assert (Num.exceedsSafe (inject_Z z) = true
          ↔ Num.MAX_SAFE_INTEGER < Z.abs z) as Hiff.
  { rewrite exceedsSafe_iff. unfold Qlt. simpl. lia. }
  split; [done|]. split; intros Hz.
  - destruct (Num.exceedsSafe (inject_Z z)); [|done].
    assert (Num.MAX_SAFE_INTEGER < Z.abs z) by by apply Hiff. lia.
  - apply Hiff in Hz. by rewrite Hz.
Qed.

Lemma toSafeBigInt_integer_witness :
  toSafeBigInt (Finite (inject_Z (-5000))) = (-5000, []).
Proof.
  destruct (toSafeBigInt_integer (-5000)) as (Hval & Hquiet & _).
  rewrite (surjective_pairing (toSafeBigInt _)), Hval, Hquiet; [done|].
  vm_compute. discriminate.
Defined.
(** ** The Authorization header *)

Section BearerFacts.
Context `{Libraries}.

Lemma startsWithNoCase_app (w p rest : jsstring) :
  map Js.toLowerAscii w = map Js.toLowerAscii p →
  Js.startsWithNoCase (w ++ rest) p = true.
Proof.
  revert w. induction p as [|c p IH]; intros w Hw.
  - destruct w; [|done]. by destruct rest.
  - destruct w as [|d w]; [done|]. simpl in Hw.
    injection Hw as Hd Hw. cbn [Js.startsWithNoCase app].
    rewrite Hd, N.eqb_refl. by apply IH.
Qed.

Lemma bearer_header_split (w ws t : jsstring) :
  map Js.toLowerAscii w = lit "bearer" →
  blank ws = true →
  match t with [] => True | c :: _ => Js.isWhiteSpace c = false end →
  Js.startsWithNoCase (w ++ ws ++ t) (lit "Bearer") = true
  ∧ Js.span Js.isWhiteSpace (drop 6 (w ++ ws ++ t)) = (ws, t).
Proof.
  intros Hw Hws Ht. split.
  - apply startsWithNoCase_app. by rewrite Hw.
  - assert (length w = 6%nat) as Hlen.
    { by rewrite <- (length_map Js.toLowerAscii), Hw. }
    rewrite drop_app_length'; [|done]. by apply span_prefix.
Qed.

End BearerFacts.

(** X9. For a header made of the word Bearer in any letter case, a
    non-empty run of white space and a token that starts with no white
    space and holds no line terminator, refresh and the entitlement check
    read the same token: the one after the white space. *)
Theorem bearer_token_read (w ws t : jsstring) (c : N) :
  map Js.toLowerAscii w = lit "bearer" →
  ws ≠ [] → blank ws = true →
  Js.isWhiteSpace c = false →
  existsb Js.isLineTerminator (c :: t) = false →
  getBearerToken (Some (w ++ ws ++ c :: t)) = Some (c :: t)
  ∧ stripBearer (Some (w ++ ws ++ c :: t)) = c :: t.
Proof.
  intros Hw Hne Hws Hc Hlt.
  destruct (bearer_header_split w ws (c :: t) Hw Hws Hc) as [Hstart Hspan].
  unfold getBearerToken, stripBearer.
  change (default [] (Some (w ++ ws ++ c :: t))) with (w ++ ws ++ c :: t).
  rewrite Hstart, Hspan. destruct ws as [|x ws]; [done|].
  by rewrite Hlt.
Qed.

Lemma bearer_token_read_witness :
  getBearerToken (Some (lit "bEARER   abc.def")) = Some (lit "abc.def")
  ∧ stripBearer (Some (lit "bEARER   abc.def")) = lit "abc.def".
Proof.
  apply (bearer_token_read (lit "bEARER") (lit "   ") (lit "bc.def") 97%N);
    first [reflexivity | discriminate].
Defined.

(** X10. A non-empty header that does not start with the word Bearer is a
    missing token for refresh, which answers [401 falta token] and leaves
    the state alone, while the entitlement check takes the whole header as
    the token and answers 200 when the token library accepts it. *)
Theorem header_without_scheme `{Libraries} (cfg : Config) (env : Env)
    (h : jsstring) (st : ServerState) (p : payload) :
  h ≠ [] → Js.startsWithNoCase h (lit "Bearer") = false →
  post_auth_refresh cfg env (Some h) st
  = ({| status := 401; json := ErrorBody (Text "falta token") |}, st)
  ∧ (jwt_verify h (JWT_SECRET cfg) (Date_now env 0) = Some p →
     get_entitlement cfg env (Some h) st
     = ({| status := 200;
           json := EntitlementBody (sub p) (hasAccess p) |}, st)).
Proof.
  intros Hne Hstart. split.
  - unfold post_auth_refresh, handle, refresh_try, getBearerToken.
    change (default [] (Some h)) with h. by rewrite Hstart.
  - intros Hver.
    unfold get_entitlement, handle, entitlement_try, stripBearer.
    change (default [] (Some h)) with h. rewrite Hstart.
    destruct h as [|c h]; [done|].
    unfold jwtVerify. by rewrite Hver, bind_ret.
Qed.

Section HeaderRuns.
Import Reference.

Lemma header_without_scheme_witness :
  fst (post_auth_refresh cfg (env_at NEW_YEAR_2025 chain_down)
         (Some (signJwt alice 20 (lit "s3cret") NEW_YEAR_2025)) empty_state)
  = {| status := 401; json := ErrorBody (Text "falta token") |}
  ∧ fst (get_entitlement cfg (env_at NEW_YEAR_2025 chain_down)
           (Some (signJwt alice 20 (lit "s3cret") NEW_YEAR_2025))
           empty_state)
    = {| status := 200; json := EntitlementBody alice (Some true) |}.
Proof.
  destruct (header_without_scheme cfg (env_at NEW_YEAR_2025 chain_down)
              (signJwt alice 20 (lit "s3cret") NEW_YEAR_2025) empty_state
              {| sub := alice; hasAccess := Some true;
                 iat := Some 1735689600; exp := Some 1735690800 |})
    as [Hrefresh Hcheck]; [by vm_compute | by vm_compute |].
  split.
  - by rewrite Hrefresh.
  - rewrite Hcheck; [done | by vm_compute].
Defined.

End HeaderRuns.

(** X11. The entitlement check is read-only: it never changes the server
    state, and its answer depends only on the header, the secret and the
    clock, not on the state or on the chain. *)
Theorem get_entitlement_read_only `{Libraries} (cfg : Config)
    (env env' : Env) (h : option jsstring) (st st' : ServerState) :
  snd (get_entitlement cfg env h st) = st
  ∧ (Date_now env 0 = Date_now env' 0 →
     fst (get_entitlement cfg env h st)
     = fst (get_entitlement cfg env' h st')).
Proof.
  unfold get_entitlement, handle, entitlement_try.
  destruct (stripBearer h) as [|c token]; [done|].
  unfold jwtVerify. split.
  - destruct (jwt_verify _ _ _); [done|].
    rewrite bind_throw. unfold throw, emit. simpl. rewrite app_nil_r.
    by destruct st.
  - intros <-. by destruct (jwt_verify _ _ _).
Qed.

Section EntitlementRuns.
Import Reference.

Lemma get_entitlement_read_only_witness :
  fst (get_entitlement cfg (env_at NEW_YEAR_2025 chain_down)
         (bearer (signJwt alice 20 (lit "s3cret") NEW_YEAR_2025)) empty_state)
  = fst (get_entitlement cfg
           (env_at NEW_YEAR_2025 (chain_with (Finite 7)))
           (bearer (signJwt alice 20 (lit "s3cret") NEW_YEAR_2025))
           issued_state).
Proof.
  apply (get_entitlement_read_only cfg (env_at NEW_YEAR_2025 chain_down)
           (env_at NEW_YEAR_2025 (chain_with (Finite 7)))).
  reflexivity.
Defined.

End EntitlementRuns.
(** ** Every way verify can end *)

Section VerifyCases.
Context `{Libraries}.


Lemma bind_balanceAndThreshold_no_api {B} (cfg : Config) (env : Env)
    (account : jsstring) (f : Z * Z → M B) (st : ServerState) :
  apiHandle cfg env st = None →
  (balanceAndThreshold cfg env account ≫= f) st = (Thrown GearApiError, st).
Proof.
  intros Hapi. unfold balanceAndThreshold.
  assert (getApi cfg env st = (Thrown GearApiError, st)) as Hget.
  { unfold getApi, apiHandle in *. destruct (gearApi st); [done|].
    by rewrite Hapi. }
  unfold mbind at 1 2, M_bind at 1 2. by rewrite Hget.
Qed.

Lemma bind_balanceAndThreshold_range {B} (cfg : Config) (env : Env)
    (account : jsstring) (f : Z * Z → M B) (st : ServerState)
    (api : GearApi) :
  apiHandle cfg env st = Some api → VFT_DECIMALS cfg < 0 →
  (balanceAndThreshold cfg env account ≫= f) st
  = (Thrown RangeError,
     {| nonceStore := nonceStore st; gearApi := Some api;
        trace := trace st
                 ++ snd (getVFTBalance (chain env) account (Some api)) |}).
Proof.
  intros Hapi Hdec.
  assert (getApi cfg env st
          = (Value api, {| nonceStore := nonceStore st; gearApi := Some api;
                           trace := trace st |})) as Hget.
  { unfold getApi, apiHandle in *. destruct st as [ns [g|] tr]; simpl in *.
    - by injection Hapi as ->.
    - by rewrite Hapi. }
  unfold balanceAndThreshold, thresholdRaw.
  assert ((VFT_DECIMALS cfg <? 0) = true) as -> by (apply Z.ltb_lt; lia).
  unfold mbind at 1 2, M_bind at 1 2. rewrite Hget.
  by rewrite bind_logged, bind_throw.
Qed.


Lemma mustExtract_absent (m key : jsstring) :
  extractLine m key = [] → mustExtract m key = throw (MissingField key).
Proof. intros E. unfold mustExtract. by rewrite E. Qed.

Lemma handle_thrown (catch : exn → response * list event) (m : M response)
    (st st1 : ServerState) (e : exn) :
  m st = (Thrown e, st1) →
  handle catch m st = (fst (catch e), emit (snd (catch e)) st1).
Proof. intros Hm. unfold handle. by rewrite Hm. Qed.

Lemma handle_responded (catch : exn → response * list event)
    (m : M response) (st st1 : ServerState) (r : response) :
  m st = (Responded r, st1) → handle catch m st = (r, st1).
Proof. intros Hm. unfold handle. by rewrite Hm. Qed.

Lemma no_token_thrown_verify (cfg : Config) (env : Env) (req : SignedMessage)
    (st st1 : ServerState) (e : exn) :
  verify_try cfg env req st = (Thrown e, st1) →
  signedTokens (trace st1) = signedTokens (trace st) →
  no_token st (post_auth_verify cfg env req st).
Proof.
  intros Hm Htr. unfold post_auth_verify. rewrite (handle_thrown _ _ _ _ _ Hm).
  repeat split; [done|]. simpl.
  by rewrite signedTokens_app, Htr, app_nil_r.
Qed.

Lemma no_token_responded_verify (cfg : Config) (env : Env)
    (req : SignedMessage) (st st1 : ServerState) (r : response) :
  verify_try cfg env req st = (Responded r, st1) →
  status r ≠ 200 → jwt_of r = None →
  signedTokens (trace st1) = signedTokens (trace st) →
  no_token st (post_auth_verify cfg env req st).
Proof.
  intros Hm Hs Hj Htr. unfold post_auth_verify.
  by rewrite (handle_responded _ _ _ _ _ Hm).
Qed.

Lemma consumeNonce_true_accepted (st : ServerState) (nonce : jsstring)
    (now : Z) :
  fst (Nonce.consumeNonce nonce now (nonceStore st)) = true →
  nonce_accepted st nonce now.
Proof.
  unfold Nonce.consumeNonce, nonce_accepted.
  destruct (nonceStore st !! nonce) as [e|]; [|done].
  destruct (Z.eqb_spec e 0); [done|]. simpl.
  intros Hlt%Z.ltb_lt. by exists e.
Qed.

Lemma domain_check_fails (cfg : Config) (m : jsstring) :
  bool_decide (EXPECTED_DOMAIN cfg ≠ [])
  && bool_decide (extractLine m (lit "Domain") ≠ EXPECTED_DOMAIN cfg) = false →
  domain_ok cfg m.
Proof.
  intros [Hf | Hf]%andb_false_iff; apply bool_decide_eq_false in Hf.
  - left. by destruct (decide (EXPECTED_DOMAIN cfg = [])).
  - right. by destruct (decide (extractLine m (lit "Domain")
                                = EXPECTED_DOMAIN cfg)).
Qed.

Lemma chain_id_check_fails (cfg : Config) (m : jsstring) :
  bool_decide (EXPECTED_CHAIN_ID cfg ≠ [])
  && bool_decide (extractLine m (lit "ChainId") ≠ EXPECTED_CHAIN_ID cfg)
  = false →
  chain_id_ok cfg m.
Proof.
  intros [Hf | Hf]%andb_false_iff; apply bool_decide_eq_false in Hf.
  - left. by destruct (decide (EXPECTED_CHAIN_ID cfg = [])).
  - right. by destruct (decide (extractLine m (lit "ChainId")
                                = EXPECTED_CHAIN_ID cfg)).
Qed.

(** Verify either passes every check with a sufficient balance, or gives no
    token. *)
Lemma verify_cases (cfg : Config) (env : Env) (req : SignedMessage)
    (st : ServerState) :
  (∃ a m s, reaches_gating cfg env req st a m s
            ∧ rawThreshold cfg ≤ rawBalance env a)
  ∨ no_token st (post_auth_verify cfg env req st).
Proof.
  destruct (address req) as [a|] eqn:Ea.
  2:{ right.
      eapply no_token_thrown_verify;
        [ unfold verify_try, SignedMessageSchema_parse; rewrite Ea;
          reflexivity
        | done ]. }
  destruct (message req) as [m|] eqn:Em.
  2:{ right.
      eapply no_token_thrown_verify;
        [ unfold verify_try, SignedMessageSchema_parse; rewrite Ea, Em;
          reflexivity
        | done ]. }
  destruct (signature req) as [s|] eqn:Es.
  2:{ right.
      eapply no_token_thrown_verify;
        [ unfold verify_try, SignedMessageSchema_parse; rewrite Ea, Em, Es;
          reflexivity
        | done ]. }
  destruct ((3 <=? Z.of_nat (length a)) && (5 <=? Z.of_nat (length m))
            && (10 <=? Z.of_nat (length s))) eqn:Elen.
  2:{ right.
      eapply no_token_thrown_verify;
        [ unfold verify_try, SignedMessageSchema_parse;
          rewrite Ea, Em, Es, Elen; reflexivity
        | done ]. }
  assert (well_shaped req a m s) as Hshape.
  { apply andb_true_iff in Elen as [[La Lm]%andb_true_iff Ls].
    apply Z.leb_le in La, Lm, Ls. repeat split; try done; lia. }
  assert (verify_try cfg env req
          = (nonce ← mustExtract m (lit "Nonce");
             domain ← mustExtract m (lit "Domain");
             chainId ← mustExtract m (lit "ChainId");
             issuedAt ← mustExtract m (lit "IssuedAt");
             expiresIn ← mustExtract m (lit "ExpiresIn");
             fresh_nonce ← consumeNonce nonce (Date_now env 0);
             if negb fresh_nonce then sendError 400 "Invalid Nonce"
             else if bool_decide (EXPECTED_DOMAIN cfg ≠ [])
                     && bool_decide (domain ≠ EXPECTED_DOMAIN cfg)
             then sendError 400 "Invalid domain"
             else if bool_decide (EXPECTED_CHAIN_ID cfg ≠ [])
                     && bool_decide (chainId ≠ EXPECTED_CHAIN_ID cfg)
             then sendError 400 "Invalid chainId"
             else if negb (isMessageFresh issuedAt expiresIn
                             (CLOCK_SKEW_MS cfg) (Date_now env 1))
             then sendError 400 "Message Error"
             else
               valid ← verifySignature a m s;
               if negb valid then sendError 401 "firma inválida"
               else
                 '(balRawInt, thresholdRaw) ← balanceAndThreshold cfg env a;
                 if balRawInt <? thresholdRaw then
                   respond 403
                     (GatingBody "gating: balance insuficiente"
                        (toHuman balRawInt (VFT_DECIMALS cfg))
                        (toHuman thresholdRaw (VFT_DECIMALS cfg))
                        (VFT_DECIMALS cfg))
                 else
                   token ← signJwtM a (JWT_TTL_MIN cfg) (JWT_SECRET cfg)
                             (Date_now env 2);
                   mret {| status := 200;
                           json := VerifyBody token
                                     (toHuman balRawInt (VFT_DECIMALS cfg))
                                     (toHuman thresholdRaw (VFT_DECIMALS cfg))
                                     (VFT_DECIMALS cfg) |})) as Hbody.
  { unfold verify_try. by rewrite (parse_well_shaped _ _ _ _ Hshape). }
  destruct (decide (extractLine m (lit "Nonce") = [])) as [E1|F1].
  { right.
      eapply no_token_thrown_verify;
        [ rewrite Hbody; rewrite (mustExtract_absent _ _ E1), bind_throw;
          reflexivity
        | done ]. }
  rewrite (mustExtract_present _ _ F1), bind_ret in Hbody.
  destruct (decide (extractLine m (lit "Domain") = [])) as [E2|F2].
  { right.
      eapply no_token_thrown_verify;
        [ rewrite Hbody; rewrite (mustExtract_absent _ _ E2), bind_throw;
          reflexivity
        | done ]. }
  rewrite (mustExtract_present _ _ F2), bind_ret in Hbody.
  destruct (decide (extractLine m (lit "ChainId") = [])) as [E3|F3].
  { right.
      eapply no_token_thrown_verify;
        [ rewrite Hbody; rewrite (mustExtract_absent _ _ E3), bind_throw;
          reflexivity
        | done ]. }
  rewrite (mustExtract_present _ _ F3), bind_ret in Hbody.
  destruct (decide (extractLine m (lit "IssuedAt") = [])) as [E4|F4].
  { right.
      eapply no_token_thrown_verify;
        [ rewrite Hbody; rewrite (mustExtract_absent _ _ E4), bind_throw;
          reflexivity
        | done ]. }
  rewrite (mustExtract_present _ _ F4), bind_ret in Hbody.
  destruct (decide (extractLine m (lit "ExpiresIn") = [])) as [E5|F5].
  { right.
      eapply no_token_thrown_verify;
        [ rewrite Hbody; rewrite (mustExtract_absent _ _ E5), bind_throw;
          reflexivity
        | done ]. }
  rewrite (mustExtract_present _ _ F5), bind_ret in Hbody.
  assert (fields_present m) as Hfields by done.
  destruct (fst (Nonce.consumeNonce (extractLine m (lit "Nonce"))
                   (Date_now env 0) (nonceStore st))) eqn:Hc.
  2:{ right.
      eapply no_token_responded_verify;
        [ rewrite Hbody, bind_consumeNonce, Hc; reflexivity
        | done.. ]. }
  pose proof (consumeNonce_true_accepted _ _ _ Hc) as Hnonce.
  destruct (bool_decide (EXPECTED_DOMAIN cfg ≠ [])
            && bool_decide (extractLine m (lit "Domain")
                            ≠ EXPECTED_DOMAIN cfg)) eqn:Hd.
  { right.
      eapply no_token_responded_verify;
        [ rewrite Hbody, bind_consumeNonce, Hc; cbn [negb]; rewrite ?Hd;
          reflexivity
        | done.. ]. }
  destruct (bool_decide (EXPECTED_CHAIN_ID cfg ≠ [])
            && bool_decide (extractLine m (lit "ChainId")
                            ≠ EXPECTED_CHAIN_ID cfg)) eqn:Hch.
  { right.
      eapply no_token_responded_verify;
        [ rewrite Hbody, bind_consumeNonce, Hc; cbn [negb];
          rewrite ?Hd, ?Hch; reflexivity
        | done.. ]. }
  destruct (message_fresh cfg env m) eqn:Hfresh.
  2:{ right.
      eapply no_token_responded_verify;
        [ rewrite Hbody, bind_consumeNonce, Hc; cbn [negb];
          rewrite ?Hd, ?Hch; unfold message_fresh in Hfresh; rewrite Hfresh;
          reflexivity
        | done.. ]. }
  destruct (signatureVerify m s a) as [[|]|] eqn:Hsig.
  2:{ right.
      eapply no_token_responded_verify;
        [ rewrite Hbody, bind_consumeNonce, Hc; cbn [negb];
          rewrite ?Hd, ?Hch; unfold message_fresh in Hfresh; rewrite Hfresh;
          cbn [negb]; unfold verifySignature; rewrite Hsig, bind_ret;
          reflexivity
        | done.. ]. }
  2:{ right.
      eapply no_token_thrown_verify;
        [ rewrite Hbody, bind_consumeNonce, Hc; cbn [negb];
          rewrite ?Hd, ?Hch; unfold message_fresh in Hfresh; rewrite Hfresh;
          cbn [negb]; unfold verifySignature; rewrite Hsig, bind_throw;
          reflexivity
        | done ]. }
  destruct (apiHandle cfg env st) as [api|] eqn:Hapi.
  2:{ right.
      eapply no_token_thrown_verify;
        [ rewrite Hbody, bind_consumeNonce, Hc; cbn [negb];
          rewrite ?Hd, ?Hch; unfold message_fresh in Hfresh; rewrite Hfresh;
          cbn [negb]; unfold verifySignature; rewrite Hsig, bind_ret;
          cbn [negb]; rewrite bind_balanceAndThreshold_no_api by exact Hapi;
          reflexivity
        | done ]. }
  destruct (Z.lt_ge_cases (VFT_DECIMALS cfg) 0) as [Hneg|Hdec].
  { right. eapply no_token_thrown_verify.
    - rewrite Hbody, bind_consumeNonce, Hc. cbn [negb]. rewrite ?Hd, ?Hch.
      unfold message_fresh in Hfresh. rewrite Hfresh. cbn [negb].
      unfold verifySignature. rewrite Hsig, bind_ret. cbn [negb].
      by rewrite (bind_balanceAndThreshold_range _ _ _ _ _ api) by done.
    - simpl. by rewrite signedTokens_app, signedTokens_getVFTBalance,
        app_nil_r. }
  assert (reaches_gating cfg env req st a m s) as Hreach.
  { split; [exact Hshape|]. split; [exact Hfields|].
    split; [exact Hnonce|]. split; [by apply domain_check_fails|].
    split; [by apply chain_id_check_fails|]. split; [exact Hfresh|].
    split; [exact Hsig|]. split; [by exists api | exact Hdec]. }
  destruct (Z.lt_ge_cases (rawBalance env a) (rawThreshold cfg)) as [Hlow|Hok].
  - right. destruct (verify_at_gating cfg env req st a m s Hreach)
      as (api' & _ & ->). cbv zeta.
    assert ((rawBalance env a <? rawThreshold cfg) = true) as ->
      by (apply Z.ltb_lt; lia).
    repeat split; [done|]. simpl.
    by rewrite signedTokens_app, signedTokens_balanceEvents, app_nil_r.
  - left. by exists a, m, s.
Qed.

End VerifyCases.

Section VerifyOutcomes.
Context `{Libraries}.

(** A request that fails the schema or lacks a field is thrown out before
    anything else happens. *)
Lemma verify_prefix_cases (cfg : Config) (env : Env) (req : SignedMessage)
    (st : ServerState) :
  (∃ a m s, well_shaped req a m s ∧ fields_present m)
  ∨ (verify_try cfg env req st = (Thrown ZodError, st)
     ∧ ∀ a m s, ¬ well_shaped req a m s)
  ∨ (∃ a m s key,
       well_shaped req a m s ∧ ¬ fields_present m
       ∧ extractLine m key = []
       ∧ verify_try cfg env req st = (Thrown (MissingField key), st)).
Proof.
  assert (∀ a m s, well_shaped req a m s →
            address req = Some a ∧ message req = Some m
            ∧ signature req = Some s
            ∧ (3 <=? Z.of_nat (length a)) && (5 <=? Z.of_nat (length m))
              && (10 <=? Z.of_nat (length s)) = true) as Hinv.
  { intros a m s (Ha & Hm & Hs & La & Lm & Ls). repeat split; try done.
    rewrite !andb_true_iff, !Z.leb_le. lia. }
  destruct (address req) as [a|] eqn:Ea.
  2:{ right. left. split.
      - unfold verify_try, SignedMessageSchema_parse. by rewrite Ea.
      - intros a m s Hw. by destruct (Hinv _ _ _ Hw) as (? & _). }
  destruct (message req) as [m|] eqn:Em.
  2:{ right. left. split.
      - unfold verify_try, SignedMessageSchema_parse. by rewrite Ea, Em.
      - intros a' m s Hw. by destruct (Hinv _ _ _ Hw) as (_ & ? & _). }
  destruct (signature req) as [s|] eqn:Es.
  2:{ right. left. split.
      - unfold verify_try, SignedMessageSchema_parse. by rewrite Ea, Em, Es.
      - intros a' m' s Hw. by destruct (Hinv _ _ _ Hw) as (_ & _ & ? & _). }
  destruct ((3 <=? Z.of_nat (length a)) && (5 <=? Z.of_nat (length m))
            && (10 <=? Z.of_nat (length s))) eqn:Elen.
  2:{ right. left. split.
      - unfold verify_try, SignedMessageSchema_parse.
        by rewrite Ea, Em, Es, Elen.
      - intros a' m' s' Hw.
        destruct (Hinv _ _ _ Hw) as ([= <-] & [= <-] & [= <-] & Hl).
        by rewrite Hl in Elen. }
  assert (well_shaped req a m s) as Hshape.
  { apply andb_true_iff in Elen as [[La Lm]%andb_true_iff Ls].
    apply Z.leb_le in La, Lm, Ls. repeat split; try done; lia. }
  assert (∀ key, extractLine m key = [] → ¬ fields_present m →
            verify_try cfg env req st = (Thrown (MissingField key), st) →
            ∃ a m s key,
              well_shaped req a m s ∧ ¬ fields_present m
              ∧ extractLine m key = []
              ∧ verify_try cfg env req st = (Thrown (MissingField key), st))
    as Hmiss.
  { intros key Hk Hnot Hrun. by exists a, m, s, key. }
  unfold verify_try in *.
  rewrite (parse_well_shaped _ _ _ _ Hshape), bind_ret in *.
  destruct (decide (extractLine m (lit "Nonce") = [])) as [E1|F1].
  { right. right. apply (Hmiss _ E1); [by intros (? & _)|].
    by rewrite (mustExtract_absent _ _ E1). }
  rewrite (mustExtract_present _ _ F1), bind_ret in *.
  destruct (decide (extractLine m (lit "Domain") = [])) as [E2|F2].
  { right. right. apply (Hmiss _ E2); [by intros (_ & ? & _)|].
    by rewrite (mustExtract_absent _ _ E2). }
  rewrite (mustExtract_present _ _ F2), bind_ret in *.
  destruct (decide (extractLine m (lit "ChainId") = [])) as [E3|F3].
  { right. right. apply (Hmiss _ E3); [by intros (_ & _ & ? & _)|].
    by rewrite (mustExtract_absent _ _ E3). }
  rewrite (mustExtract_present _ _ F3), bind_ret in *.
  destruct (decide (extractLine m (lit "IssuedAt") = [])) as [E4|F4].
  { right. right. apply (Hmiss _ E4); [by intros (_ & _ & _ & ? & _)|].
    by rewrite (mustExtract_absent _ _ E4). }
  rewrite (mustExtract_present _ _ F4), bind_ret in *.
  destruct (decide (extractLine m (lit "ExpiresIn") = [])) as [E5|F5].
  { right. right. apply (Hmiss _ E5); [by intros (_ & _ & _ & _ & ?)|].
    by rewrite (mustExtract_absent _ _ E5). }
  left. by exists a, m, s.
Qed.

End VerifyOutcomes.

(** X12. A verify request that fails the schema, or whose message lacks one
    of the five fields, is answered 400 with the message of what was thrown
    before the nonce is looked at: the registry is left as it was, so the
    nonce of such a request is not used up. *)
Theorem verify_malformed_keeps_nonce `{Libraries} (cfg : Config) (env : Env)
    (req : SignedMessage) (st : ServerState) :
  (∀ a m s, ¬ (well_shaped req a m s ∧ fields_present m)) →
  status (fst (post_auth_verify cfg env req st)) = 400
  ∧ (∃ e, json (fst (post_auth_verify cfg env req st))
          = ErrorBody (MessageOf e)
          ∧ (e = ZodError ∨ ∃ key, e = MissingField key))
  ∧ nonceStore (snd (post_auth_verify cfg env req st)) = nonceStore st.
Proof.
  intros Hbad.
  destruct (verify_prefix_cases cfg env req st)
    as [(a & m & s & Hok) | [[Hrun _] | (a & m & s & key & _ & _ & _ & Hrun)]].
  - by destruct (Hbad a m s).
  - unfold post_auth_verify. rewrite (handle_thrown _ _ _ _ _ Hrun).
    split; [done|]. split; [|done]. exists ZodError. split; [done|by left].
  - unfold post_auth_verify. rewrite (handle_thrown _ _ _ _ _ Hrun).
    split; [done|]. split; [|done]. exists (MissingField key).
    split; [done|]. right. by exists key.
Qed.

Section MalformedRuns.
Import Reference.

Lemma verify_malformed_keeps_nonce_witness :
  nonceStore
    (snd (post_auth_verify cfg (env_at (NEW_YEAR_2025 + 5000) chain_down)
            {| address := Some alice;
               message := Some (lit "Nonce: 123e4567-e89b-42d3-a456-426614174000");
               signature := Some (lit "0123456789") |}
            issued_state))
  = nonceStore issued_state.
Proof.
  apply (verify_malformed_keeps_nonce cfg
           (env_at (NEW_YEAR_2025 + 5000) chain_down)).
  intros a m s [(_ & [= <-] & _) (_ & Hdomain & _)].
  by apply Hdomain.
Defined.

End MalformedRuns.

(** X13. Verify answers 200 only to a request that passed every check: the
    schema, the five fields, a nonce that [consumeNonce] accepted, the
    domain, the chain id, the freshness window, a valid signature, and an
    integer balance of at least the threshold; and it answers 200 to every
    such request. *)
Theorem verify_grants_iff `{Libraries} (cfg : Config) (env : Env)
    (req : SignedMessage) (st : ServerState) :
  status (fst (post_auth_verify cfg env req st)) = 200
  ↔ ∃ a m s, reaches_gating cfg env req st a m s
             ∧ rawThreshold cfg ≤ rawBalance env a.
Proof.
  split.
  - intros Hok. destruct (verify_cases cfg env req st) as [Hyes | Hno];
      [done|]. by destruct Hno as (Hstatus & _).
  - intros (a & m & s & Hreach & Hbal).
    destruct (verify_at_gating cfg env req st a m s Hreach)
      as (api & _ & ->). cbv zeta.
    by assert ((rawBalance env a <? rawThreshold cfg) = false) as ->
      by (apply Z.ltb_ge; lia).
Qed.

(** X14. Verify signs exactly the token it returns: the tokens signed during
    the request are the token of the response if there is one, and none
    otherwise. *)
Theorem verify_signs_what_it_returns `{Libraries} (cfg : Config) (env : Env)
    (req : SignedMessage) (st : ServerState) :
  signedTokens (trace (snd (post_auth_verify cfg env req st)))
  = signedTokens (trace st)
    ++ tokens_of (fst (post_auth_verify cfg env req st)).
Proof.
  destruct (verify_cases cfg env req st)
    as [(a & m & s & Hreach & Hbal) | (_ & Hnone & Hsame)].
  - destruct (verify_at_gating cfg env req st a m s Hreach)
      as (api & _ & ->). cbv zeta.
    assert ((rawBalance env a <? rawThreshold cfg) = false) as ->
      by (apply Z.ltb_ge; lia).
    simpl. by rewrite !signedTokens_app, signedTokens_balanceEvents, app_nil_r.
  - unfold tokens_of. by rewrite Hnone, Hsame, app_nil_r.
Qed.

Section GrantRuns.
Import Reference.

Lemma verify_grants_iff_witness :
  status (fst (post_auth_verify cfg
                 (env_at (NEW_YEAR_2025 + 5000) (chain_with (Finite 5000)))
                 good_request issued_state)) = 200.
Proof.
  apply (proj2 (verify_grants_iff cfg
                  (env_at (NEW_YEAR_2025 + 5000) (chain_with (Finite 5000)))
                  good_request issued_state)).
  exists alice,
    (challenge "123e4567-e89b-42d3-a456-426614174000" "app.example"),
    (alice ++ challenge "123e4567-e89b-42d3-a456-426614174000" "app.example").
  split.
  - apply (good_request_reaches_gating (chain_with (Finite 5000)) eq_refl).
  - by vm_compute.
Defined.

End GrantRuns.

(** ** Replay, issue and the rest of the registry *)

Section SpentNonce.
Context `{Libraries}.

(** A value that can no longer be consumed stays so under every request
    that does not issue it again. *)
Lemma serve_spent (cfg : Config) (env : Env) (req : request)
    (st : ServerState) (nonce : jsstring) :
  (req = PostNonce → randomUUID env ≠ nonce) →
  Nonce.spent nonce (nonceStore st) →
  Nonce.spent nonce (nonceStore (snd (serve cfg env req st))).
Proof.
  intros Hfresh Hspent. destruct req as [|body|h|h]; simpl.
  - unfold post_auth_nonce. simpl. unfold Nonce.spent in *.
    rewrite lookup_insert_ne; [done|]. by apply Hfresh.
  - destruct (verify_prefix_cases cfg env body st)
      as [(a & m & s & Hshape & Hfields)
         | [[Hrun _] | (a & m & s & key & _ & _ & _ & Hrun)]].
    + rewrite (verify_registry cfg env body st a m s) by done.
      by apply (step_spent nonce
                  (Nonce.Consume (extractLine m (lit "Nonce"))
                     (Date_now env 0))).
    + unfold post_auth_verify. by rewrite (handle_thrown _ _ _ _ _ Hrun).
    + unfold post_auth_verify. by rewrite (handle_thrown _ _ _ _ _ Hrun).
  - unfold post_auth_refresh. rewrite handle_registry.
    by rewrite refresh_try_keeps.
  - unfold get_entitlement. rewrite handle_registry.
    by rewrite entitlement_try_keeps.
Qed.

Lemma serveAll_spent (cfg : Config) (reqs : list (Env * request))
    (nonce : jsstring) :
  ∀ st : ServerState,
    never_reissues nonce reqs →
    Nonce.spent nonce (nonceStore st) →
    Nonce.spent nonce (nonceStore (serveAll cfg reqs st)).
Proof.
  induction reqs as [|[env req] reqs IH]; intros st Hno Hspent; [done|].
  simpl. inversion Hno as [|? ? Hhead Htail]; subst. simpl in Hhead.
  apply IH; [done|]. by apply serve_spent.
Qed.

End SpentNonce.

(** X15. A nonce can carry one verify attempt only: after verify has handled
    a request that passes the schema and carries the five fields, whatever
    its outcome, and after any further requests to the server that do not
    issue the same value again, a request with the same nonce is answered
    [400 Invalid Nonce]. *)
Theorem verify_replay_rejected `{Libraries} (cfg : Config) (env env' : Env)
    (req req' : SignedMessage) (reqs : list (Env * request))
    (st : ServerState) (a m s a' m' s' : jsstring) :
  well_shaped req a m s → fields_present m →
  well_shaped req' a' m' s' → fields_present m' →
  extractLine m' (lit "Nonce") = extractLine m (lit "Nonce") →
  never_reissues (extractLine m (lit "Nonce")) reqs →
  fst (post_auth_verify cfg env' req'
         (serveAll cfg reqs (snd (post_auth_verify cfg env req st))))
  = {| status := 400; json := ErrorBody (Text "Invalid Nonce") |}.
Proof.
  intros Hshape Hfields Hshape' Hfields' Hsame Hno.
  apply (verify_rejected_nonce cfg env' req' _ a' m' s'); [done..|].
  rewrite Hsame. apply consumeNonce_spent_false.
  apply serveAll_spent; [done|].
  rewrite (verify_registry cfg env req st a m s) by done.
  apply consumeNonce_spent_after.
Qed.

Section ReplayRuns.
Import Reference Deployments.

Lemma verify_replay_rejected_witness :
  status (fst (post_auth_verify cfg
                 (env_at (NEW_YEAR_2025 + 5000) (chain_with (Finite 5000)))
                 good_request issued_state)) = 200
  ∧ fst (post_auth_verify cfg
           (env_at (NEW_YEAR_2025 + 9000) (chain_with (Finite 5000)))
           good_request
           (serveAll cfg
              [(env_other_uuid (NEW_YEAR_2025 + 6000)
                  (chain_with (Finite 5000)), PostNonce);
               (env_at (NEW_YEAR_2025 + 7000) (chain_with (Finite 5000)),
                GetEntitlement None);
               (env_at (NEW_YEAR_2025 + 8000) (chain_with (Finite 5000)),
                PostVerify (request "another-nonce" "app.example"))]
              (snd (post_auth_verify cfg
                      (env_at (NEW_YEAR_2025 + 5000)
                         (chain_with (Finite 5000)))
                      good_request issued_state))))
    = {| status := 400; json := ErrorBody (Text "Invalid Nonce") |}.
Proof.
  split; [by vm_compute|].
  apply (verify_replay_rejected cfg _ _ good_request good_request _
           issued_state alice
           (challenge "123e4567-e89b-42d3-a456-426614174000" "app.example")
           (alice ++ challenge "123e4567-e89b-42d3-a456-426614174000"
                       "app.example")
           alice
           (challenge "123e4567-e89b-42d3-a456-426614174000" "app.example")
           (alice ++ challenge "123e4567-e89b-42d3-a456-426614174000"
                       "app.example")).
  - repeat split; by_computation.
  - repeat split; by_computation.
  - repeat split; by_computation.
  - repeat split; by_computation.
  - reflexivity.
  - repeat constructor; simpl; first [discriminate | by vm_compute].
Defined.

End ReplayRuns.


Section NonceRuns.
Import Reference.


End NonceRuns.

Lemma registry_calls_independent_registry (n n' : jsstring) (now : Z)
    (s : Nonce.store) :
  n ≠ n' → snd (Nonce.consumeNonce n now s) !! n' = s !! n'.
Proof.
  intros Hne. unfold Nonce.consumeNonce. destruct (s !! n) as [e|]; [|done].
  destruct (e =? 0); [done|]. simpl. by rewrite lookup_delete_ne.
Qed.

(** X17. Verify touches no entry of the registry other than the one of the
    nonce named in the message: every other nonce is as available after the
    request as before, whatever the request is. *)
Theorem verify_touches_named_nonce_only `{Libraries} (cfg : Config)
    (env : Env) (req : SignedMessage) (st : ServerState) (n : jsstring) :
  (∀ m, message req = Some m → extractLine m (lit "Nonce") ≠ n) →
  nonceStore (snd (post_auth_verify cfg env req st)) !! n
  = nonceStore st !! n.
Proof.
  intros Hother.
  destruct (verify_prefix_cases cfg env req st)
    as [(a & m & s & Hshape & Hfields)
       | [[Hrun _] | (a & m & s & key & _ & _ & _ & Hrun)]].
  - rewrite (verify_registry cfg env req st a m s) by done.
    apply registry_calls_independent_registry.
    destruct Hshape as (_ & Hm & _). by apply Hother.
  - unfold post_auth_verify. by rewrite (handle_thrown _ _ _ _ _ Hrun).
  - unfold post_auth_verify. by rewrite (handle_thrown _ _ _ _ _ Hrun).
Qed.

Section OtherNonceRuns.
Import Reference.

Lemma verify_touches_named_nonce_only_witness :
  nonceStore
    (snd (post_auth_verify cfg
            (env_at (NEW_YEAR_2025 + 5000) (chain_with (Finite 5000)))
            (request "another-nonce" "app.example") issued_state))
    !! lit "123e4567-e89b-42d3-a456-426614174000"
  = Some 1735690200000.
Proof.
  rewrite (verify_touches_named_nonce_only cfg
             (env_at (NEW_YEAR_2025 + 5000) (chain_with (Finite 5000)))
             (request "another-nonce" "app.example") issued_state
             (lit "123e4567-e89b-42d3-a456-426614174000")).
  - reflexivity.
  - intros m [= <-]. by vm_compute.
Defined.

End OtherNonceRuns.

(** ** The other ways refresh can end *)

Section RefreshCases.
Context `{Libraries}.

Lemma invalid_token_generic_cases (cfg : Config) (env : Env)
    (h : option jsstring) (st : ServerState) :
  (getBearerToken h = None →
   post_auth_refresh cfg env h st
   = ({| status := 401; json := ErrorBody (Text "falta token") |}, st))
  ∧ (∀ token, getBearerToken h = Some token →
       jwt_verify token (JWT_SECRET cfg) (Date_now env 0) = None →
       post_auth_refresh cfg env h st
       = ({| status := 401; json := ErrorBody (Text "Invalid token") |}, st)).
Proof.
  split.
  - intros Hnone. unfold post_auth_refresh, handle, refresh_try.
    by rewrite Hnone.
  - intros token Htok Hrej. unfold post_auth_refresh, handle, refresh_try.
    rewrite Htok. unfold jwtVerify. rewrite Hrej, bind_throw.
    unfold throw, emit. simpl. rewrite app_nil_r. by destruct st.
Qed.

Lemma refresh_renews_without_recheck_run (cfg : Config) (env : Env)
    (h : option jsstring) (st : ServerState) (token : jsstring)
    (p : payload) :
  getBearerToken h = Some token →
  jwt_verify token (JWT_SECRET cfg) (Date_now env 0) = Some p →
  secondsUntil (exp p) (Date_now env 1) ≤ REFRESH_MIN_REMAIN_SEC cfg →
  RECHECK_ON_REFRESH cfg = false →
  post_auth_refresh cfg env h st
  = ({| status := 200;
        json := RefreshBody
                  (signJwt (sub p) (JWT_TTL_MIN cfg) (JWT_SECRET cfg)
                     (Date_now env 2))
                  (secondsUntil
                     (jwt_decode (signJwt (sub p) (JWT_TTL_MIN cfg)
                                    (JWT_SECRET cfg) (Date_now env 2))
                      ≫= exp) (Date_now env 3))
                  true |},
     emit [Signed (signJwt (sub p) (JWT_TTL_MIN cfg) (JWT_SECRET cfg)
                     (Date_now env 2))] st).
Proof.
  intros Htok Hver Hrem Hre.
  unfold post_auth_refresh, handle, refresh_try. rewrite Htok.
  unfold jwtVerify. rewrite Hver, bind_ret. cbv zeta.
  assert ((REFRESH_MIN_REMAIN_SEC cfg
           <? secondsUntil (exp p) (Date_now env 1)) = false) as ->
    by (apply Z.ltb_ge; lia).
  rewrite Hre, bind_ret. unfold signJwtM. by rewrite bind_logged.
Qed.

Lemma refresh_fault_run (cfg : Config) (env : Env) (h : option jsstring)
    (st : ServerState) (token : jsstring) (p : payload) :
  getBearerToken h = Some token →
  jwt_verify token (JWT_SECRET cfg) (Date_now env 0) = Some p →
  secondsUntil (exp p) (Date_now env 1) ≤ REFRESH_MIN_REMAIN_SEC cfg →
  RECHECK_ON_REFRESH cfg = true →
  apiHandle cfg env st = None ∨ VFT_DECIMALS cfg < 0 →
  fst (post_auth_refresh cfg env h st)
  = {| status := 401; json := ErrorBody (Text "Invalid token") |}
  ∧ signedTokens (trace (snd (post_auth_refresh cfg env h st)))
    = signedTokens (trace st).
Proof.
  intros Htok Hver Hrem Hre Hfault.
  assert (∃ e st1, refresh_try cfg env h st = (Thrown e, st1)
                   ∧ signedTokens (trace st1) = signedTokens (trace st))
    as (e & st1 & Hrun & Hsame).
  { unfold refresh_try. rewrite Htok.
    unfold jwtVerify. rewrite Hver, bind_ret. cbv zeta.
    assert ((REFRESH_MIN_REMAIN_SEC cfg
             <? secondsUntil (exp p) (Date_now env 1)) = false) as ->
      by (apply Z.ltb_ge; lia).
    rewrite Hre. unfold mbind at 1, M_bind at 1.
    destruct (apiHandle cfg env st) as [api|] eqn:Hapi.
    - destruct Hfault as [? | Hneg]; [done|].
      rewrite (bind_balanceAndThreshold_range _ _ _ _ _ api) by done.
      eexists _, _. split; [done|]. simpl.
      by rewrite signedTokens_app, signedTokens_getVFTBalance, app_nil_r.
    - rewrite bind_balanceAndThreshold_no_api by done. by eexists _, _. }
  unfold post_auth_refresh. rewrite (handle_thrown _ _ _ _ _ Hrun).
  split; [done|]. simpl. by rewrite signedTokens_app, Hsame, app_nil_r.
Qed.

End RefreshCases.

(** X18. With re-check on refresh disabled, a valid token with no more
    seconds remaining than [REFRESH_MIN_REMAIN_SEC] is renewed without any
    access to the chain: refresh answers 200 with [refreshed = true] and a
    token newly signed for the same subject, signs that one token, sends no
    balance query and leaves the registry and the API handle as they were. *)
Theorem refresh_renews_without_recheck `{Libraries} (cfg : Config)
    (env : Env) (h : option jsstring) (st : ServerState) (token : jsstring)
    (p : payload) :
  getBearerToken h = Some token →
  jwt_verify token (JWT_SECRET cfg) (Date_now env 0) = Some p →
  secondsUntil (exp p) (Date_now env 1) ≤ REFRESH_MIN_REMAIN_SEC cfg →
  RECHECK_ON_REFRESH cfg = false →
  let newJwt :=
    signJwt (sub p) (JWT_TTL_MIN cfg) (JWT_SECRET cfg) (Date_now env 2) in
  post_auth_refresh cfg env h st
  = ({| status := 200;
        json := RefreshBody newJwt
                  (secondsUntil (jwt_decode newJwt ≫= exp) (Date_now env 3))
                  true |},
     emit [Signed newJwt] st)
  ∧ balanceQueries (trace (snd (post_auth_refresh cfg env h st)))
    = balanceQueries (trace st).
Proof.
  intros Htok Hver Hrem Hre newJwt.
  rewrite (refresh_renews_without_recheck_run cfg env h st token p) by done.
  split; [done|]. simpl. by rewrite balanceQueries_app, app_nil_r.
Qed.

(** X19. With re-check on refresh enabled, a valid token with no more
    seconds remaining than the floor is renewed when the balance fetched for
    its subject is at least the threshold: refresh answers 200 with
    [refreshed = true] and a token newly signed for the same subject, and
    that token is the only one signed. *)
Theorem refresh_renews_after_recheck `{Libraries} (cfg : Config) (env : Env)
    (h : option jsstring) (st : ServerState) (token : jsstring)
    (p : payload) :
  getBearerToken h = Some token →
  jwt_verify token (JWT_SECRET cfg) (Date_now env 0) = Some p →
  secondsUntil (exp p) (Date_now env 1) ≤ REFRESH_MIN_REMAIN_SEC cfg →
  RECHECK_ON_REFRESH cfg = true →
  is_Some (apiHandle cfg env st) → 0 ≤ VFT_DECIMALS cfg →
  rawThreshold cfg ≤ rawBalance env (sub p) →
  let newJwt :=
    signJwt (sub p) (JWT_TTL_MIN cfg) (JWT_SECRET cfg) (Date_now env 2) in
  fst (post_auth_refresh cfg env h st)
  = {| status := 200;
       json := RefreshBody newJwt
                 (secondsUntil (jwt_decode newJwt ≫= exp) (Date_now env 3))
                 true |}
  ∧ signedTokens (trace (snd (post_auth_refresh cfg env h st)))
    = signedTokens (trace st) ++ [newJwt]
  ∧ nonceStore (snd (post_auth_refresh cfg env h st)) = nonceStore st.
Proof.
  intros Htok Hver Hrem Hre Hapi Hdec Hok newJwt.
  destruct (refresh_at_recheck cfg env h st token p) as (api & _ & ->);
    [done..|]. cbv zeta.
  assert ((rawBalance env (sub p) <? rawThreshold cfg) = false) as ->
    by (apply Z.ltb_ge; lia).
  split; [done|]. split; [|done]. simpl.
  by rewrite !signedTokens_app, signedTokens_balanceEvents, app_nil_r.
Qed.

(** X20. Refresh answers [401 Invalid token] to a valid token when the
    re-check cannot be carried out: with re-check enabled and no more seconds
    remaining than the floor, a chain connection that cannot be created, or
    a negative [VFT_DECIMALS], ends in the same answer as a rejected token,
    and no token is signed. *)
Theorem refresh_fault_reads_invalid_token `{Libraries} (cfg : Config)
    (env : Env) (h : option jsstring) (st : ServerState) (token : jsstring)
    (p : payload) :
  getBearerToken h = Some token →
  jwt_verify token (JWT_SECRET cfg) (Date_now env 0) = Some p →
  secondsUntil (exp p) (Date_now env 1) ≤ REFRESH_MIN_REMAIN_SEC cfg →
  RECHECK_ON_REFRESH cfg = true →
  apiHandle cfg env st = None ∨ VFT_DECIMALS cfg < 0 →
  fst (post_auth_refresh cfg env h st)
  = {| status := 401; json := ErrorBody (Text "Invalid token") |}
  ∧ signedTokens (trace (snd (post_auth_refresh cfg env h st)))
    = signedTokens (trace st).
Proof. apply refresh_fault_run. Qed.

Section RefreshRuns.
Import Reference Deployments.

Lemma refresh_renews_without_recheck_witness :
  fst (post_auth_refresh cfg_no_recheck
         (env_at (NEW_YEAR_2025 + 1000000) unreachable_chain)
         (bearer (signJwt alice 20 (lit "s3cret") NEW_YEAR_2025))
         empty_state)
  = {| status := 200;
       json := RefreshBody
                 (signJwt alice 20 (lit "s3cret") (NEW_YEAR_2025 + 1000000))
                 1200 true |}.
Proof.
  destruct (refresh_renews_without_recheck cfg_no_recheck
              (env_at (NEW_YEAR_2025 + 1000000) unreachable_chain)
              (bearer (signJwt alice 20 (lit "s3cret") NEW_YEAR_2025))
              empty_state
              (signJwt alice 20 (lit "s3cret") NEW_YEAR_2025)
              {| sub := alice; hasAccess := Some true;
                 iat := Some 1735689600; exp := Some 1735690800 |})
    as [Hrun _]; [by_computation..|].
  rewrite Hrun. reflexivity.
Defined.

Lemma refresh_renews_after_recheck_witness :
  fst (post_auth_refresh cfg
         (env_at (NEW_YEAR_2025 + 1000000) (chain_with (Finite 3000)))
         (bearer (signJwt alice 20 (lit "s3cret") NEW_YEAR_2025))
         empty_state)
  = {| status := 200;
       json := RefreshBody
                 (signJwt alice 20 (lit "s3cret") (NEW_YEAR_2025 + 1000000))
                 1200 true |}.
Proof.
  destruct (refresh_renews_after_recheck cfg
              (env_at (NEW_YEAR_2025 + 1000000) (chain_with (Finite 3000)))
              (bearer (signJwt alice 20 (lit "s3cret") NEW_YEAR_2025))
              empty_state
              (signJwt alice 20 (lit "s3cret") NEW_YEAR_2025)
              {| sub := alice; hasAccess := Some true;
                 iat := Some 1735689600; exp := Some 1735690800 |})
    as [Hrun _]; [by_computation..|].
  rewrite Hrun. reflexivity.
Defined.

Lemma refresh_fault_reads_invalid_token_witness :
  fst (post_auth_refresh cfg
         (env_at (NEW_YEAR_2025 + 1000000) unreachable_chain)
         (bearer (signJwt alice 20 (lit "s3cret") NEW_YEAR_2025))
         empty_state)
  = {| status := 401; json := ErrorBody (Text "Invalid token") |}.
Proof.
  destruct (refresh_fault_reads_invalid_token cfg
              (env_at (NEW_YEAR_2025 + 1000000) unreachable_chain)
              (bearer (signJwt alice 20 (lit "s3cret") NEW_YEAR_2025))
              empty_state
              (signJwt alice 20 (lit "s3cret") NEW_YEAR_2025)
              {| sub := alice; hasAccess := Some true;
                 iat := Some 1735689600; exp := Some 1735690800 |})
    as [Hrun _]; [by_computation.. | left; reflexivity |].
  exact Hrun.
Defined.

End RefreshRuns.


(** X21. Refresh never touches the nonce registry, and it signs a token
    exactly when it answers with [refreshed = true]: the tokens signed
    during the request are that token of the response, and none for every
    other answer. *)
Theorem refresh_signs_when_refreshed `{Libraries} (cfg : Config) (env : Env)
    (h : option jsstring) (st : ServerState) :
  nonceStore (snd (post_auth_refresh cfg env h st)) = nonceStore st
  ∧ signedTokens (trace (snd (post_auth_refresh cfg env h st)))
    = signedTokens (trace st)
      ++ renewed_token (fst (post_auth_refresh cfg env h st)).
Proof.
  split.
  { unfold post_auth_refresh. rewrite handle_registry.
    by rewrite refresh_try_keeps. }
  destruct (getBearerToken h) as [token|] eqn:Htok.
  2:{ destruct (invalid_token_generic_cases cfg env h st) as [Hnone _].
      rewrite (Hnone Htok). simpl. by rewrite app_nil_r. }
  destruct (jwt_verify token (JWT_SECRET cfg) (Date_now env 0)) as [p|]
    eqn:Hver.
  2:{ destruct (invalid_token_generic_cases cfg env h st) as [_ Hrej].
      rewrite (Hrej token Htok Hver). simpl. by rewrite app_nil_r. }
  destruct (Z.lt_ge_cases (REFRESH_MIN_REMAIN_SEC cfg)
              (secondsUntil (exp p) (Date_now env 1))) as [Hearly|Hlate].
  { assert (post_auth_refresh cfg env h st
            = ({| status := 200;
                  json := RefreshBody token
                            (secondsUntil (exp p) (Date_now env 1)) false |},
               st)) as ->.
    { unfold post_auth_refresh, handle, refresh_try. rewrite Htok.
      unfold jwtVerify. rewrite Hver, bind_ret. cbv zeta.
      by assert ((REFRESH_MIN_REMAIN_SEC cfg
                  <? secondsUntil (exp p) (Date_now env 1)) = true) as ->
        by (apply Z.ltb_lt; lia). }
    simpl. by rewrite app_nil_r. }
  destruct (RECHECK_ON_REFRESH cfg) eqn:Hre.
  2:{ rewrite (refresh_renews_without_recheck_run cfg env h st token p)
        by done.
      simpl. by rewrite signedTokens_app. }
  destruct (apiHandle cfg env st) as [api|] eqn:Hapi.
  2:{ destruct (refresh_fault_run cfg env h st token p) as [-> ->];
        [done..|by left|]. simpl. by rewrite app_nil_r. }
  destruct (Z.lt_ge_cases (VFT_DECIMALS cfg) 0) as [Hneg|Hdec].
  { destruct (refresh_fault_run cfg env h st token p) as [-> ->];
      [done..|by right|]. simpl. by rewrite app_nil_r. }
  destruct (refresh_at_recheck cfg env h st token p) as (api' & _ & ->);
    [done..|by exists api|done|]. cbv zeta.
  destruct (rawBalance env (sub p) <? rawThreshold cfg); simpl.
  - by rewrite signedTokens_app, signedTokens_balanceEvents, !app_nil_r.
  - by rewrite !signedTokens_app, signedTokens_balanceEvents, app_nil_r.
Qed.

(** ** Blank fields, the balance lookup and the CORS allow-list *)

(** X22. A field whose first line carries only white space after the colon
    counts as missing: [mustExtract] throws for it, also when a later line
    gives the key a value. *)
Theorem mustExtract_blank_first_line `{Libraries} (key l rest : jsstring)
    (st : ServerState) :
  LF ∉ l → COLON ∉ key →
  Js.startsWith l (key ++ [COLON]) = true →
  blank (drop (S (length key)) l) = true →
  mustExtract (l ++ LF :: rest) key st = (Thrown (MissingField key), st).
Proof.
  intros Hlf Hkey Hstart Hblank.
  destruct (extractLine_lines key l rest Hlf Hkey) as [Hhit _].
  destruct (Hhit Hstart) as [_ Hvalue].
  unfold mustExtract. rewrite Hvalue.
  rewrite <- (app_nil_r (drop (S (length key)) l)).
  change (drop (S (length key)) l ++ [])
    with (drop (S (length key)) l ++ [] ++ []).
  by rewrite (trim_surrounded _ [] []).
Qed.

Section BlankRuns.
Import Reference.

Lemma mustExtract_blank_first_line_witness :
  mustExtract (lit "Nonce:   " ++ LF :: lit "Nonce: abc") (lit "Nonce")
    empty_state
  = (Thrown (MissingField (lit "Nonce")), empty_state).
Proof.
  apply (mustExtract_blank_first_line (lit "Nonce") (lit "Nonce:   ")
           (lit "Nonce: abc") empty_state);
    first [reflexivity | compute_done].
Defined.

End BlankRuns.

(** X23. [toHexAddress] returns an address that starts with 0x and is longer
    than that prefix as it is, without a warning and whatever the decoder
    would do. For every other address the decoder decides: when it throws,
    the address comes back as it was given and exactly one warning is
    written; when it succeeds, its hex text is returned without a warning.
    If the decoder only yields 0x texts longer than the prefix, converting
    twice gives the same address as converting once. *)
Theorem toHexAddress_spec `{Libraries} (addr : jsstring) :
  (Js.startsWith addr (lit "0x") = true → (2 < length addr)%nat →
   toHexAddress addr = (addr, []))
  ∧ (Js.startsWith addr (lit "0x") = false ∨ (length addr ≤ 2)%nat →
     decodeAddress addr = None →
     toHexAddress addr = (addr, [Warn "[toHexAddress] Error:"]))
  ∧ (Js.startsWith addr (lit "0x") = false ∨ (length addr ≤ 2)%nat →
     ∀ hex, decodeAddress addr = Some hex →
            toHexAddress addr = (hex, []))
  ∧ ((∀ a hex, decodeAddress a = Some hex →
        Js.startsWith hex (lit "0x") = true ∧ (2 < length hex)%nat) →
     fst (toHexAddress (fst (toHexAddress addr))) = fst (toHexAddress addr)).
Proof.
  assert (∀ a, Js.startsWith a (lit "0x") = true → (2 < length a)%nat →
            toHexAddress a = (a, [])) as Hhex.
  { intros a Hstart Hlen. unfold toHexAddress. rewrite Hstart.
    by assert ((2 <? Z.of_nat (length a)) = true) as ->
      by (apply Z.ltb_lt; lia). }
  assert (∀ a, Js.startsWith a (lit "0x") = false ∨ (length a ≤ 2)%nat →
            Js.startsWith a (lit "0x") && (2 <? Z.of_nat (length a))
            = false) as Hguard.
  { intros a [Hstart|Hlen]; [by rewrite Hstart|].
    apply andb_false_iff. right. apply Z.ltb_ge. lia. }
  split; [apply Hhex|]. split; [|split].
  - intros Hother Hthrow. unfold toHexAddress.
    by rewrite (Hguard _ Hother), Hthrow.
  - intros Hother hex Hdec. unfold toHexAddress.
    by rewrite (Hguard _ Hother), Hdec.
  - intros Hlib.
    destruct (Js.startsWith addr (lit "0x")
              && (2 <? Z.of_nat (length addr))) eqn:E.
    + apply andb_true_iff in E as [Hs Hl]. apply Z.ltb_lt in Hl.
      rewrite (Hhex addr) by (done || lia). cbn [fst].
      by rewrite (Hhex addr) by (done || lia).
    + destruct (decodeAddress addr) as [hex|] eqn:Hdec.
      * assert (toHexAddress addr = (hex, [])) as ->
          by (unfold toHexAddress; by rewrite E, Hdec).
        cbn [fst]. destruct (Hlib _ _ Hdec) as [Hs Hl].
        by rewrite (Hhex hex).
      * assert (toHexAddress addr = (addr, [Warn "[toHexAddress] Error:"]))
          as Hrun by (unfold toHexAddress; by rewrite E, Hdec).
        rewrite Hrun. cbn [fst]. by rewrite Hrun.
Qed.

Section HexRuns.
Import Reference.

Lemma toHexAddress_spec_witness :
  toHexAddress (lit "0xd43593c7") = (lit "0xd43593c7", [])
  ∧ toHexAddress (lit "") = (lit "", [Warn "[toHexAddress] Error:"])
  ∧ toHexAddress alice = (lit "0x" ++ alice, [])
  ∧ fst (toHexAddress (fst (toHexAddress alice))) = fst (toHexAddress alice).
Proof.
  split; [|split; [|split]].
  - apply (proj1 (toHexAddress_spec (lit "0xd43593c7"))); by_computation.
  - apply (proj1 (proj2 (toHexAddress_spec (lit "")))).
    + right. simpl. lia.
    + reflexivity.
  - apply (proj1 (proj2 (proj2 (toHexAddress_spec alice)))).
    + left. reflexivity.
    + reflexivity.
  - apply (proj2 (proj2 (proj2 (toHexAddress_spec alice)))).
    intros a hex Hdec. simpl in Hdec. destruct a as [|c a]; [done|].
    injection Hdec as <-. split; [reflexivity | simpl; lia].
Defined.

End HexRuns.

(** X24. A balance other than [0] that [getVFTBalance] reports is the number
    the chain query returned for the converted address: there was an
    account, a handle and a working client, nothing was written by the
    lookup itself, and exactly one query was sent. *)
Theorem getVFTBalance_nonzero_from_chain `{Libraries} (ch : Chain)
    (account : jsstring) (api : option GearApi) :
  fst (getVFTBalance ch account api) ≠ Finite 0 →
  account ≠ [] ∧ is_Some api ∧ newProgram ch = true
  ∧ balanceOf ch (fst (toHexAddress account))
    = QueryReturns (fst (getVFTBalance ch account api))
  ∧ snd (getVFTBalance ch account api)
    = snd (toHexAddress account)
      ++ [BalanceQuery (fst (toHexAddress account))].
Proof.
  unfold getVFTBalance. destruct account as [|c account]; [done|].
  destruct api as [api|]; [|done].
  destruct (newProgram ch); [|done]. cbn [negb].
  destruct (toHexAddress (c :: account)) as [normalized ev]. simpl.
  destruct (balanceOf ch normalized) as [|balance]; [done|].
  destruct (Num.isNaN balance); [done|]. simpl. intros _.
  repeat split; try done; by eexists.
Qed.

Section BalanceRuns.
Import Reference.

Lemma getVFTBalance_nonzero_from_chain_witness :
  balanceOf (chain_with (Finite 5000)) (fst (toHexAddress alice))
  = QueryReturns (Finite 5000)
  ∧ snd (getVFTBalance (chain_with (Finite 5000)) alice
           (Some {| providerAddress := [] |}))
    = [BalanceQuery (lit "0x" ++ alice)].
Proof.
  destruct (getVFTBalance_nonzero_from_chain (chain_with (Finite 5000))
              alice (Some {| providerAddress := [] |}))
    as (_ & _ & _ & Hchain & Hevents); [by vm_compute|].
  split; [exact Hchain | exact Hevents].
Defined.

End BalanceRuns.

(** X25. The entries of the CORS allow-list are never empty and carry no
    white space around them, however the variable is written; with the
    variable unset or empty the list is the single entry [*] and every
    origin is allowed. *)
Theorem ALLOWED_ORIGINS_entries (env : option jsstring) :
  Forall (λ o, o ≠ [] ∧ trimmed o = true) (ALLOWED_ORIGINS env)
  ∧ (env = None ∨ env = Some [] →
     ALLOWED_ORIGINS env = [lit "*"]
     ∧ ∀ origin, corsAllows (ALLOWED_ORIGINS env) origin = true).
Proof.
  split.
  - unfold ALLOWED_ORIGINS. apply Forall_forall. intros o Ho.
    apply list_elem_of_filter in Ho as [Hne Ho].
    apply list_elem_of_fmap in Ho as (raw & -> & _).
    split; [done | apply trim_trimmed].
  - intros Henv.
    assert (ALLOWED_ORIGINS env = [lit "*"]) as ->
      by (by destruct Henv as [-> | ->]).
    split; [done|]. by intros [[|c o]|].
Qed.

Lemma ALLOWED_ORIGINS_entries_witness :
  ALLOWED_ORIGINS (Some (lit " https://a.example , ,https://b.example"))
  = [lit "https://a.example"; lit "https://b.example"]
  ∧ corsAllows (ALLOWED_ORIGINS None) (Some (lit "https://evil.example"))
    = true.
Proof.
  split; [by vm_compute|].
  apply (proj2 (ALLOWED_ORIGINS_entries None)). by left.
Defined.
